(** * Stateful key-value cache rewriting for OpenVINO graphs

    A shallow embedding of [optimum/exporters/openvino/stateful.py].

    The Python module rewrites an [ov.Model] in place.  The embedding keeps
    the graph as an explicit store of nodes addressed by index; ports are
    references (node index, output index) into that store, so aliasing of
    ports held by the caller's [not_kv_inputs] list is preserved.  Python
    statements become computations in a state-and-exception monad whose state
    is the graph, the [not_kv_inputs] list and the text printed so far.

    The store holds node objects: every node of the graph, and every node a
    constructor call has made, from the moment it is made.  For the engine a
    node belongs to the graph once an input, an output or a sink of the graph
    reaches it; a node that nothing reads is an object of the store only.
    The statements about the nodes a function makes are statements about
    these objects and about the input slots that read them.

    Conventions.  The arguments [ov_model] and [not_kv_inputs] of the Python
    functions are the two fields of the state, since every function works on
    the one graph and the one list of its caller.  Partial shapes have static
    rank.  The axis arguments ([gather_dim], [batch_dim]) are Python integers,
    of type [Z]: a negative one indexes a Python list from its end; the
    batch and head counts are of type [N].  Indexing a shape or a list out
    of range raises, as it does in Python.  The engine (shape inference, the
    make-stateful transformation, the version query) is an interface. *)

From stdpp Require Import base strings list gmap.
From Stdlib Require Import ZArith.

Local Open Scope Z_scope.
Local Open Scope string_scope.
Local Open Scope list_scope.

(** ** The graph data model *)

(** [ov.Type]: the element types that occur in exported decoder graphs. *)
Inductive ov_Type := boolean | bf16 | f16 | f32 | f64 | i8 | i32 | i64 | u8.

Global Instance ov_Type_eq_dec : EqDecision ov_Type.
Proof. solve_decision. Defined.

(** [ov.Dimension]: an interval of extents; [max_length = None] is an
    unbounded (dynamic) dimension. *)
Record Dimension := mkDim { min_length : Z; max_length : option Z }.

Global Instance Dimension_eq_dec : EqDecision Dimension.
Proof. solve_decision. Defined.

(** The dimension obtained from a Python integer extent. *)
Definition static_dim (n : Z) : Dimension := mkDim n (Some n).

(** [ov.PartialShape] of static rank. *)
Abbreviation PartialShape := (list Dimension).

(** The tensor descriptor of an output port.  The set of names is kept as a
    list whose head is the name [get_any_name] reports. *)
Record Tensor := mkTensor {
  names : list string;
  partial_shape : PartialShape;
  element_type : ov_Type
}.

(** [ov.Output]: an output port, and [ov.Input]: an input slot of a node. *)
Abbreviation Output := (nat * nat)%type.
Abbreviation Input := (nat * nat)%type.

(** Node attributes that are not edges. *)
Inductive Attrs :=
| AParameter (friendly_name : string) (dtype : ov_Type) (shape : PartialShape)
| AConstant (dtype : ov_Type) (dims : list nat) (data : list Z)
| AShapeOf (output_type : ov_Type)
| AConcat (axis : Z)
| ANone.

Global Instance Attrs_eq_dec : EqDecision Attrs.
Proof. solve_decision. Defined.

Record Node := mkNode {
  type_name : string;
  arguments : list Output;
  outputs : list Tensor;
  attributes : Attrs
}.

(** [ov.Model]: the node store, the ordered Parameter and Result nodes and
    the sinks (persistent-state writes). *)
Record Model := mkModel {
  nodes : list Node;
  parameters : list nat;
  results : list nat;
  sinks : list nat
}.

Definition set_nodes (f : list Node → list Node) (m : Model) : Model :=
  mkModel (f (nodes m)) (parameters m) (results m) (sinks m).

(** [ov_model.inputs] and [ov_model.outputs]. *)
Definition model_inputs (m : Model) : list Output := (λ p, (p, 0%nat)) <$> parameters m.
Definition model_outputs (m : Model) : list Output := (λ r, (r, 0%nat)) <$> results m.

Definition get_tensor (m : Model) (o : Output) : option Tensor :=
  nodes m !! o.1 ≫= λ n, outputs n !! o.2.

(** [port.get_names()] *)
Definition get_names (m : Model) (o : Output) : list string :=
  default [] (names <$> get_tensor m o).

(** [ov_model.input(name)]: the first input that carries the tensor name. *)
Definition model_input (m : Model) (name : string) : option Output :=
  head (filter (λ o, name ∈ get_names m o) (model_inputs m)).

(** [input.get_source_output()] *)
Definition source_output (m : Model) (i : Input) : option Output :=
  nodes m !! i.1 ≫= λ n, arguments n !! i.2.

(** [port.get_target_inputs()]: every input slot that reads the port. *)
Fixpoint arg_positions (o : Output) (k : nat) (args : list Output) : list nat :=
  match args with
  | [] => []
  | a :: rest =>
      if decide (a = o) then k :: arg_positions o (S k) rest
      else arg_positions o (S k) rest
  end.

Fixpoint target_inputs_from (o : Output) (i : nat) (ns : list Node) : list Input :=
  match ns with
  | [] => []
  | n :: rest =>
      ((λ k, (i, k)) <$> arg_positions o 0 (arguments n)) ++ target_inputs_from o (S i) rest
  end.

Definition get_target_inputs (m : Model) (o : Output) : list Input :=
  target_inputs_from o 0 (nodes m).

(** [consumer.replace_source_output(new)] *)
Definition set_argument (k : nat) (new : Output) (n : Node) : Node :=
  mkNode (type_name n) (<[k := new]> (arguments n)) (outputs n) (attributes n).

Definition replace_source_output (i : Input) (new : Output) (m : Model) : Model :=
  set_nodes (alter (set_argument i.2 new) i.1) m.

(** [op.set_arguments(args)] *)
Definition set_arguments (args : list Output) (n : Node) : Node :=
  mkNode (type_name n) args (outputs n) (attributes n).

(** [tensor.add_names(new)] on an output port. *)
Definition add_tensor_names (new : list string) (t : Tensor) : Tensor :=
  mkTensor (names t ++ new) (partial_shape t) (element_type t).

Definition add_output_names (idx : nat) (new : list string) (n : Node) : Node :=
  mkNode (type_name n) (arguments n) (alter (add_tensor_names new) idx (outputs n)) (attributes n).

(** The shape and element type a Parameter declares, and
    [parameter.set_partial_shape(shape)]. *)
Definition declared (n : Node) : option (ov_Type * PartialShape) :=
  match attributes n with
  | AParameter _ ty sh => Some (ty, sh)
  | _ => None
  end.

Definition set_declared_shape (sh : PartialShape) (n : Node) : option Node :=
  match attributes n with
  | AParameter fn ty _ =>
      Some (mkNode (type_name n) (arguments n) (outputs n) (AParameter fn ty sh))
  | _ => None
  end.

(** ** The graph engine

    Shape and type inference, the version query and the make-stateful
    transformation belong to the OpenVINO runtime, not to this module.  They
    are taken as an interface.  Re-validation recomputes the tensors of the
    graph from the node attributes and the edges: it changes no edge, no
    attribute and no Parameter or Result list, and the output of a Parameter
    takes the declared shape and type and keeps its names. *)

Definition redeclare (ty : ov_Type) (sh : PartialShape) (t : Tensor) : Tensor :=
  mkTensor (names t) sh ty.

Record revalidated_node (n n' : Node) : Prop := {
  rv_type_name : type_name n' = type_name n;
  rv_arguments : arguments n' = arguments n;
  rv_attributes : attributes n' = attributes n;
  rv_arity : length (outputs n') = length (outputs n);
  rv_parameter : ∀ ty sh, declared n = Some (ty, sh) →
                   outputs n' = redeclare ty sh <$> outputs n
}.

Record revalidated (m m' : Model) : Prop := {
  rv_parameters : parameters m' = parameters m;
  rv_results : results m' = results m;
  rv_sinks : sinks m' = sinks m;
  rv_nodes : Forall2 revalidated_node (nodes m) (nodes m')
}.

Record Engine := mkEngine {
  (** [ov.__version__] *)
  ov_version : string;
  (** [optimum.intel.utils.import_utils.is_openvino_version(operation, version)] *)
  is_openvino_version : string → string → bool;
  (** the inference a node constructor runs: the shape and type of every
      output, or failure *)
  infer_node : list Node → string → list Output → Attrs → option (list (PartialShape * ov_Type));
  (** a Parameter has one output, of the declared shape and type *)
  infer_parameter :
    ∀ ns fn ty sh outs,
      infer_node ns "Parameter" [] (AParameter fn ty sh) = Some outs → outs = [(sh, ty)];
  (** [ov_model.validate_nodes_and_infer_types()] *)
  validate_nodes_and_infer_types : Model → option Model;
  validate_revalidated :
    ∀ m m', validate_nodes_and_infer_types m = Some m' → revalidated m m';
  (** [apply_make_stateful_transformation(ov_model, input_output_map)] *)
  apply_make_stateful_transformation : Model → gmap string string → option Model
}.

(** ** Python statements as state-and-exception computations *)

Inductive Exn :=
| AssertionError
| ValueError (msg : string)
| RuntimeError (msg : string)
| IndexError (msg : string)
| AttributeError (msg : string).

Inductive Result (A : Type) :=
| Ok (a : A)
| Raise (e : Exn).
Arguments Ok {A} a.
Arguments Raise {A} e.

Record State := mkState {
  ov_model : Model;
  not_kv_inputs : list Output;
  stdout : list string
}.

Definition M (A : Type) : Type := State → Result A * State.

Definition ret {A} (a : A) : M A := λ st, (Ok a, st).

Definition bind {A B} (c : M A) (k : A → M B) : M B :=
  λ st, match c st with
        | (Ok a, st') => k a st'
        | (Raise e, st') => (Raise e, st')
        end.

Definition raise {A} (e : Exn) : M A := λ st, (Raise e, st).

Declare Scope py_scope.
Delimit Scope py_scope with py.
Notation "x <- c ;; k" := (bind c (λ x, k))
  (at level 100, c at next level, right associativity) : py_scope.
Notation "c >> k" := (bind c (λ _, k))
  (at level 100, k at level 200, right associativity) : py_scope.
Local Open Scope py_scope.

Definition get_model : M Model := λ st, (Ok (ov_model st), st).

Definition modify_model (f : Model → Model) : M unit :=
  λ st, (Ok tt, mkState (f (ov_model st)) (not_kv_inputs st) (stdout st)).

Definition get_not_kv_inputs : M (list Output) := λ st, (Ok (not_kv_inputs st), st).

Definition set_not_kv_inputs (l : list Output) : M unit :=
  λ st, (Ok tt, mkState (ov_model st) l (stdout st)).

(** [print(line)] *)
Definition print (line : string) : M unit :=
  λ st, (Ok tt, mkState (ov_model st) (not_kv_inputs st) (stdout st ++ [line])).

Definition from_option {A} (e : Exn) (o : option A) : M A :=
  match o with
  | Some a => ret a
  | None => raise e
  end.

(** [assert b] *)
Definition py_assert (b : bool) : M unit :=
  if b then ret tt else raise AssertionError.

(** [for x in l: body x] *)
Fixpoint for_each {A} (l : list A) (body : A → M unit) : M unit :=
  match l with
  | [] => ret tt
  | x :: rest => body x >> for_each rest body
  end.

(** A loop that threads a local variable. *)
Fixpoint for_fold {A S} (l : list A) (body : S → A → M S) (s : S) : M S :=
  match l with
  | [] => ret s
  | x :: rest => s' <- body s x ;; for_fold rest body s'
  end.

(** The position a Python integer index denotes in a sequence of the given
    length: a negative index counts from the end, and an index outside
    [-len, len) denotes none. *)
Definition py_index (len : nat) (i : Z) : option nat :=
  if decide (0 ≤ i < Z.of_nat len) then Some (Z.to_nat i)
  else if decide (- Z.of_nat len ≤ i < 0) then Some (Z.to_nat (Z.of_nat len + i))
  else None.

(** ** Graph introspection *)

Definition model_has_name (m : Model) (name : string) : bool :=
  bool_decide (name ∈ concat (get_names m <$> (model_inputs m ++ model_outputs m))).

Definition model_has_input (m : Model) (name : string) : bool :=
  bool_decide (name ∈ concat (get_names m <$> model_inputs m)).

Definition model_has_cache_reorder (m : Model) : bool :=
  model_has_input m "beam_idx".

Definition model_has_state (m : Model) : bool :=
  bool_decide (0 < length (sinks m))%nat.

(** ** The metadata object of the exported model (the [model] argument of
    [patch_stateful]) *)

Record PyModel := mkPyModel {
  key_value_input_names : list string;
  key_value_output_names : list string;
  config_model_type : string;
  normalized_config_num_attention_heads : N
}.

Section Stateful.

Variable E : Engine.

(** *** Graph-engine calls lifted to statements *)

(** Every node constructor of [opset13] makes one node object, which the
    store holds from then on whether or not a node of the graph reads it
    yet, and runs the engine's inference for it; the new tensors carry no
    names. *)
Definition fresh_tensor (o : PartialShape * ov_Type) : Tensor := mkTensor [] o.1 o.2.

Definition new_node (ty : string) (args : list Output) (attrs : Attrs) : M nat :=
  λ st,
    let m := ov_model st in
    match infer_node E (nodes m) ty args attrs with
    | None => (Raise (RuntimeError "node validation failed"), st)
    | Some outs =>
        (Ok (length (nodes m)),
         mkState (set_nodes (λ ns, ns ++ [mkNode ty args (fresh_tensor <$> outs) attrs]) m)
                 (not_kv_inputs st) (stdout st))
    end.

Definition opset13_parameter (name : string) (dtype : ov_Type) (shape : PartialShape) : M nat :=
  new_node "Parameter" [] (AParameter name dtype shape).

(** [opset13.constant(v)] for a Python integer, [opset13.constant([...])] /
    [np.array([...], dtype=np.int64)] for a vector of integers, and
    [opset13.constant(0.0, dtype=ty)]. *)
Definition opset13_constant_int (v : Z) : M nat :=
  new_node "Constant" [] (AConstant i64 [] [v]).

Definition opset13_constant_ints (vs : list Z) : M nat :=
  new_node "Constant" [] (AConstant i64 [length vs] vs).

Definition opset13_constant_zero (dtype : ov_Type) : M nat :=
  new_node "Constant" [] (AConstant dtype [] [0]).

Definition opset13_gather (data indices axis : Output) : M nat :=
  new_node "Gather" [data; indices; axis] ANone.

Definition opset13_shape_of (data : Output) (output_type : ov_Type) : M nat :=
  new_node "ShapeOf" [data] (AShapeOf output_type).

Definition opset13_concat (parts : list Output) (axis : Z) : M nat :=
  new_node "Concat" parts (AConcat axis).

Definition opset13_broadcast (data target_shape : Output) : M nat :=
  new_node "Broadcast" [data; target_shape] ANone.

Definition validate_and_infer : M unit :=
  λ st,
    match validate_nodes_and_infer_types E (ov_model st) with
    | None => (Raise (RuntimeError "shape inference failed"), st)
    | Some m' => (Ok tt, mkState m' (not_kv_inputs st) (stdout st))
    end.

Definition make_stateful_transformation (input_output_map : gmap string string) : M unit :=
  λ st,
    match apply_make_stateful_transformation E (ov_model st) input_output_map with
    | None => (Raise (RuntimeError "MakeStateful failed"), st)
    | Some m' => (Ok tt, mkState m' (not_kv_inputs st) (stdout st))
    end.

(** [ov_model.input(name)] raises when no input carries the name. *)
Definition input_by_name (name : string) : M Output :=
  m <- get_model ;;
  from_option (RuntimeError ("no input named " ++ name)) (model_input m name).

Definition get_partial_shape (port : Output) : M PartialShape :=
  m <- get_model ;;
  from_option (RuntimeError "no such port") (partial_shape <$> get_tensor m port).

(** [port.get_any_name()]: the engine raises when the tensor of the port
    carries no name. *)
Definition get_any_name (port : Output) : M string :=
  m <- get_model ;;
  from_option (RuntimeError "Attempt to get a name for a Tensor without names")
              (head (get_names m port)).

(** [shape[k]] for a literal [k], and [shape[k] = d] for an integer [k], on
    a partial shape; the engine normalises the key as Python does. *)
Definition shape_getitem (shape : PartialShape) (k : nat) : M Dimension :=
  from_option (IndexError "Accessing out-of-range dimension") (shape !! k).

Definition shape_setitem (shape : PartialShape) (k : Z) (d : Dimension) : M PartialShape :=
  match py_index (length shape) k with
  | Some i => ret (<[i := d]> shape)
  | None => raise (IndexError "Accessing out-of-range dimension")
  end.

(** [port.get_node().set_partial_shape(shape)] *)
Definition set_partial_shape (port : Output) (shape : PartialShape) : M unit :=
  m <- get_model ;;
  n' <- from_option (AttributeError "set_partial_shape")
          (nodes m !! port.1 ≫= set_declared_shape shape) ;;
  modify_model (set_nodes (<[port.1 := n']>)).

(** *** [fuse_cache_reorder] *)

(** The body of the loop over [key_value_input_names]. *)
Definition reorder_cache_input (beam_idx : nat) (gather_dim : Z) (input_name : string) : M unit :=
  parameter_output_port <- input_by_name input_name ;;
  m <- get_model ;;
  let consumers := get_target_inputs m parameter_output_port in
  axis <- opset13_constant_int gather_dim ;;
  gather <- opset13_gather parameter_output_port (beam_idx, 0%nat) (axis, 0%nat) ;;
  for_each consumers (λ consumer,
    modify_model (replace_source_output consumer (gather, 0%nat))).

Definition add_parameters (new : list nat) (m : Model) : Model :=
  mkModel (nodes m) (parameters m ++ new) (results m) (sinks m).

Definition fuse_cache_reorder (key_value_input_names : list string) (gather_dim : Z) : M unit :=
  m <- get_model ;;
  py_assert (negb (model_has_name m "beam_idx")) >>
  input_ids <- input_by_name "input_ids" ;;
  shape <- get_partial_shape input_ids ;;
  input_batch <- shape_getitem shape 0 ;;
  beam_idx <- opset13_parameter "beam_idx" i32 [input_batch] ;;
  modify_model (set_nodes (alter (add_output_names 0 ["beam_idx"]) beam_idx)) >>
  modify_model (add_parameters [beam_idx]) >>
  m <- get_model ;;
  new_input <- from_option (IndexError "list index out of range") (last (model_inputs m)) ;;
  l <- get_not_kv_inputs ;;
  set_not_kv_inputs (l ++ [new_input]) >>
  for_each key_value_input_names (reorder_cache_input beam_idx gather_dim) >>
  validate_and_infer.

(** *** [build_state_initializer] *)

(** An entry of the Python list [dims]: an integer or a node. *)
Inductive DimItem :=
| DimInt (v : Z)
| DimNode (n : nat).

Definition dim_to_node (d : DimItem) : M nat :=
  match d with
  | DimInt v => opset13_constant_ints [v]
  | DimNode n => ret n
  end.

(** [[f(x) for x in l]] for a constructor call [f]. *)
Fixpoint list_comprehension {A B} (l : list A) (f : A → M B) : M (list B) :=
  match l with
  | [] => ret []
  | x :: rest => y <- f x ;; ys <- list_comprehension rest f ;; ret (y :: ys)
  end.

(** The body of the loop over [ov_model.get_ops()]. *)
Definition initialize_state (batch : nat) (batch_dim : Z) (op : nat) : M unit :=
  m <- get_model ;;
  node <- from_option (RuntimeError "no such node") (nodes m !! op) ;;
  if decide (type_name node = "ReadValue") then
    out <- from_option (RuntimeError "no such port") (outputs node !! 0%nat) ;;
    let dims := (λ dim, DimInt (min_length dim)) <$> partial_shape out in
    dims <- match py_index (length dims) batch_dim with
            | Some k => ret (<[k := DimNode batch]> dims)
            | None => raise (IndexError "list assignment index out of range")
            end ;;
    dims <- list_comprehension dims dim_to_node ;;
    shape <- opset13_concat ((λ d, (d, 0%nat)) <$> dims) 0 ;;
    zero <- opset13_constant_zero (element_type out) ;;
    broadcast <- opset13_broadcast (zero, 0%nat) (shape, 0%nat) ;;
    modify_model (set_nodes (alter (set_arguments [(broadcast, 0%nat)]) op))
  else ret tt.

(** [ov_model.get_ops()], as the loop of [build_state_initializer] uses it.
    The body of that loop acts on ReadValue nodes only and no constructor
    call of this module makes one, so the nodes it rewires are those of the
    graph it was given, whatever the order of the visit and whatever other
    objects the store holds; the list is the store in creation order. *)
Definition get_ops (m : Model) : list nat := seq 0 (length (nodes m)).

Definition build_state_initializer (batch_dim : Z) : M unit :=
  input_ids <- input_by_name "input_ids" ;;
  shape_of <- opset13_shape_of input_ids i64 ;;
  indices <- opset13_constant_ints [0] ;;
  axis <- opset13_constant_int 0 ;;
  batch <- opset13_gather (shape_of, 0%nat) (indices, 0%nat) (axis, 0%nat) ;;
  m <- get_model ;;
  for_each (get_ops m) (initialize_state batch batch_dim) >>
  validate_and_infer.

(** *** [make_stateful] *)

Definition rank_warning (name : string) : string :=
  "[ WARNING ] Rank of " ++ name ++ " input of the model is not 2, batch size is not set".

(** The body of the loop over [not_kv_inputs]. *)
Definition pin_not_kv_input (num_beams_and_batch : N) (input : Output) : M unit :=
  shape <- get_partial_shape input ;;
  if decide (length shape ≤ 2)%nat then
    shape <- shape_setitem shape 0 (static_dim (Z.of_N num_beams_and_batch)) ;;
    set_partial_shape input shape
  else
    name <- get_any_name input ;;
    print (rank_warning name).

(** The body of the loop over the zipped key-value names. *)
Definition map_kv_pair (batch_dim : Z) (num_attention_heads : N)
    (num_beams_and_batch : option N)
    (input_output_map : gmap string string) (kv_name_pair : string * string)
    : M (gmap string string) :=
  let input_output_map := <[kv_name_pair.1 := kv_name_pair.2]> input_output_map in
  match num_beams_and_batch with
  | Some b =>
      input <- input_by_name kv_name_pair.1 ;;
      shape <- get_partial_shape input ;;
      shape <- shape_setitem shape batch_dim (static_dim (Z.of_N (b * num_attention_heads))) ;;
      set_partial_shape input shape >>
      ret input_output_map
  | None => ret input_output_map
  end.

(** Lines 92-115: the mapping and the pinned shapes handed to the engine's
    transformation. *)
Definition make_stateful_prepare (key_value_input_names key_value_output_names : list string)
    (batch_dim : Z) (num_attention_heads : N) (num_beams_and_batch : option N)
    : M (gmap string string) :=
  match num_beams_and_batch with
  | Some b => l <- get_not_kv_inputs ;; for_each l (pin_not_kv_input b)
  | None => ret tt
  end >>
  input_output_map <-
    for_fold (zip key_value_input_names key_value_output_names)
             (map_kv_pair batch_dim num_attention_heads num_beams_and_batch) ∅ ;;
  match num_beams_and_batch with
  | Some _ => validate_and_infer
  | None => ret tt
  end >>
  ret input_output_map.

Definition make_stateful (key_value_input_names key_value_output_names : list string)
    (batch_dim : Z) (num_attention_heads : N) (num_beams_and_batch : option N) : M unit :=
  input_output_map <-
    make_stateful_prepare key_value_input_names key_value_output_names
                          batch_dim num_attention_heads num_beams_and_batch ;;
  make_stateful_transformation input_output_map >>
  match num_beams_and_batch with
  | None => build_state_initializer batch_dim
  | Some _ => ret tt
  end.

(** *** [patch_stateful] *)

Definition too_old_message : string :=
  "Could not create or use stateful model when using old version of openvino=="
  ++ ov_version E ++ ". Install openvino>=2023.3.0.".

Definition raise_if_openvino_is_too_old : M unit :=
  if is_openvino_version E "<=" "2023.2" then raise (ValueError too_old_message)
  else ret tt.

Definition patch_stateful (model : PyModel) : M unit :=
  raise_if_openvino_is_too_old >>
  m <- get_model ;;
  set_not_kv_inputs
    (filter (λ input, ¬ Exists (λ name, name ∈ key_value_input_names model) (get_names m input))
            (model_inputs m)) >>
  let batch_dim := if decide (config_model_type model = "chatglm") then 1 else 0 in
  fuse_cache_reorder (key_value_input_names model) batch_dim >>
  let num_attention_heads :=
    if decide (config_model_type model = "bloom")
    then normalized_config_num_attention_heads model else 1%N in
  make_stateful (key_value_input_names model) (key_value_output_names model)
                batch_dim num_attention_heads None.

End Stateful.

(** ** A reference engine and a small decoder graph

    A simple executable engine that meets the interface, used to run the
    pass on concrete graphs. *)

Definition dynamic_dim : Dimension := mkDim 0 None.

Definition ref_infer_node (ns : list Node) (ty : string) (args : list Output) (attrs : Attrs)
    : option (list (PartialShape * ov_Type)) :=
  match attrs with
  | AParameter _ dtype shape => Some [(shape, dtype)]
  | AConstant dtype dims _ => Some [((λ d, static_dim (Z.of_nat d)) <$> dims, dtype)]
  | AShapeOf dtype => Some [([dynamic_dim], dtype)]
  | AConcat _ => Some [([dynamic_dim], i64)]
  | ANone =>
      match args with
      | data :: _ =>
          t ← ns !! data.1 ≫= λ n, outputs n !! data.2;
          Some [(partial_shape t, element_type t)]
      | [] => None
      end
  end.

Definition ref_validate_node (n : Node) : Node :=
  match declared n with
  | Some (ty, sh) =>
      mkNode (type_name n) (arguments n) (redeclare ty sh <$> outputs n) (attributes n)
  | None => n
  end.

Definition ref_validate (m : Model) : option Model :=
  Some (set_nodes (fmap ref_validate_node) m).

(** The transformation turns the Parameter of each mapped input into a
    ReadValue and the Result of the mapped output into an Assign sink. *)
Definition model_output (m : Model) (name : string) : option Output :=
  head (filter (λ o, name ∈ get_names m o) (model_outputs m)).

Definition ref_make_stateful_pair (om : option Model) (pair : string * string) : option Model :=
  m ← om;
  i ← model_input m pair.1;
  o ← model_output m pair.2;
  let to_read n := mkNode "ReadValue" [] (outputs n) ANone in
  let to_assign n := mkNode "Assign" (arguments n) (outputs n) ANone in
  Some (mkModel (alter to_assign o.1 (alter to_read i.1 (nodes m)))
                (filter (λ p, p ≠ i.1) (parameters m))
                (filter (λ r, r ≠ o.1) (results m))
                (sinks m ++ [o.1])).

Definition ref_make_stateful (m : Model) (input_output_map : gmap string string) : option Model :=
  foldl ref_make_stateful_pair (Some m) (map_to_list input_output_map).

Lemma ref_validate_revalidated m m' : ref_validate m = Some m' → revalidated m m'.
Proof.
  intros [= <-]. split; try reflexivity. simpl.
  apply Forall2_fmap_r, Forall_Forall2_diag, Forall_forall. intros n _.
  unfold compose, ref_validate_node. destruct (declared n) as [[ty sh]|] eqn:Hd.
  - split; cbn [type_name arguments outputs attributes]; try reflexivity.
    + apply length_fmap.
    + intros ty' sh' H. rewrite Hd in H. by simplify_eq.
  - split; try reflexivity. congruence.
Qed.

Lemma ref_infer_parameter ns fn ty sh outs :
  ref_infer_node ns "Parameter" [] (AParameter fn ty sh) = Some outs → outs = [(sh, ty)].
Proof. by intros [= <-]. Qed.

Definition ref_engine (version : string) (too_old : bool) : Engine :=
  mkEngine version (λ _ _, too_old) ref_infer_node ref_infer_parameter
           ref_validate ref_validate_revalidated ref_make_stateful.

(** One decoder step with a single key-value pair: [input_ids] and
    [past_key] feed an attention block whose outputs are [logits] and
    [present_key]. *)
Definition demo_nodes : list Node :=
  [ mkNode "Parameter" [] [mkTensor ["input_ids"] [dynamic_dim; dynamic_dim] i64]
           (AParameter "input_ids" i64 [dynamic_dim; dynamic_dim]);
    mkNode "Parameter" []
           [mkTensor ["past_key"] [dynamic_dim; static_dim 8; dynamic_dim; static_dim 64] f32]
           (AParameter "past_key" f32 [dynamic_dim; static_dim 8; dynamic_dim; static_dim 64]);
    mkNode "Attention" [(0, 0); (1, 0)]%nat
           [mkTensor ["logits"] [dynamic_dim; dynamic_dim; static_dim 100] f32;
            mkTensor ["present_key"] [dynamic_dim; static_dim 8; dynamic_dim; static_dim 64] f32]
           ANone;
    mkNode "Result" [(2, 0)]%nat
           [mkTensor ["logits"] [dynamic_dim; dynamic_dim; static_dim 100] f32] ANone;
    mkNode "Result" [(2, 1)]%nat
           [mkTensor ["present_key"] [dynamic_dim; static_dim 8; dynamic_dim; static_dim 64] f32]
           ANone ].

Definition demo_model : Model := mkModel demo_nodes [0; 1]%nat [3; 4]%nat [].

Definition demo_state : State := mkState demo_model [(0, 0)%nat] [].

Definition demo_engine : Engine := ref_engine "2023.3.0" false.

(** A graph whose only port named [beam_idx] is an output. *)
Definition beam_output_model : Model :=
  mkModel
    [ mkNode "Parameter" [] [mkTensor ["input_ids"] [dynamic_dim; dynamic_dim] i64]
             (AParameter "input_ids" i64 [dynamic_dim; dynamic_dim]);
      mkNode "Result" [(0, 0)]%nat [mkTensor ["beam_idx"] [dynamic_dim; dynamic_dim] i64] ANone ]
    [0]%nat [1]%nat [].

(** ** Vocabulary of the statements *)

(** [input_output_map[pair[0]] = pair[1]] *)
Definition insert_pair (m : gmap string string) (p : string * string) : gmap string string :=
  <[p.1 := p.2]> m.

(** Replacing a source in every argument of a node. *)
Definition subst_output (old new a : Output) : Output :=
  if decide (a = old) then new else a.

Definition subst_node (old new : Output) (n : Node) : Node :=
  mkNode (type_name n) (subst_output old new <$> arguments n) (outputs n) (attributes n).

(** Node [i] after [replace_source_output] was called on the input slots
    in [L]. *)
Definition rewired (L : list Input) (new : Output) (i : nat) (n : Node) : Node :=
  mkNode (type_name n)
         (imap (λ k a, if decide ((i, k) ∈ L) then new else a) (arguments n))
         (outputs n) (attributes n).

(** The loop [for consumer in consumers: consumer.replace_source_output(new)]
    as a function on the graph. *)
Definition replace_all (new : Output) (m : Model) (L : list Input) : Model :=
  foldl (λ m c, replace_source_output c new m) m L.

(** The node is [constant(gather_dim)]. *)
Definition is_axis_constant (gd : Z) (n : Node) : Prop :=
  type_name n = "Constant" ∧ arguments n = [] ∧
  attributes n = AConstant i64 [] [gd].

(** The node is [gather(data, indices, axis)]. *)
Definition is_gather (data indices axis : Output) (n : Node) : Prop :=
  type_name n = "Gather" ∧ arguments n = [data; indices; axis].

(** One turn of the loop of [fuse_cache_reorder] on the graph: the axis
    constant [cn] and the gather [gn] are added behind the existing nodes,
    whose arguments that read [p] now read the gather. *)
Definition reorder_port (p : Output) (cn gn : Node) (m : Model) : Model :=
  set_nodes (λ ns, (subst_node p (S (length ns), 0%nat) <$> ns) ++ [cn; gn]) m.

(** The graph [m'] is the graph [m] after the loop of [fuse_cache_reorder]
    over the given names, which resolved to the given ports; [b] is the node
    of the [beam_idx] parameter. *)
Inductive reordered (b : nat) (gd : Z) : list string → list Output → Model → Model → Prop :=
| reordered_nil m : reordered b gd [] [] m m
| reordered_cons name names p ps m cn gn m' :
    model_input m name = Some p →
    is_axis_constant gd cn →
    is_gather p (b, 0%nat) (length (nodes m), 0%nat) gn →
    reordered b gd names ps (reorder_port p cn gn m) m' →
    reordered b gd (name :: names) (p :: ps) m m'.

(** The Parameter [beam_idx] once it is named and validated. *)
Definition beam_idx_node (d : Dimension) : Node :=
  mkNode "Parameter" [] [mkTensor ["beam_idx"] [d] i32] (AParameter "beam_idx" i32 [d]).

(** Every Parameter of the graph is a node of the store. *)
Definition in_range (m : Model) : Prop :=
  Forall (λ i, (i < length (nodes m))%nat) (parameters m).

(** The nodes of [m0] have the same tensors in [m]. *)
Definition outputs_agree (m0 m : Model) : Prop :=
  ∀ i, (i < length (nodes m0))%nat → outputs <$> nodes m !! i = outputs <$> nodes m0 !! i.

(** What an argument reads after the loop: its old source when that is not
    a key-value port, and otherwise the gather made for that port. *)
Definition edge_rel (b : nat) (gd : Z) (ports : list Output) (ns' : list Node)
    (a a' : Output) : Prop :=
  ((a ∉ ports) ∧ a' = a) ∨
  (a ∈ ports ∧ ∃ g c gn cn,
     a' = (g, 0%nat) ∧ ns' !! g = Some gn ∧ is_gather a (b, 0%nat) (c, 0%nat) gn ∧
     ns' !! c = Some cn ∧ is_axis_constant gd cn).

(** Node [i] is a Parameter of the store; a graph is well formed when its
    inputs are such nodes. *)
Definition declares (m : Model) (i : nat) : Prop :=
  match nodes m !! i with
  | Some n => is_Some (declared n)
  | None => False
  end.

Definition wf_inputs (m : Model) : Prop := Forall (declares m) (parameters m).

(** The sample decoder step after [fuse_cache_reorder]. *)
Definition demo_fused_state : State :=
  (fuse_cache_reorder demo_engine ["past_key"] 0 demo_state).2.

(** The store holds at index [i] a node of the given type, arguments and
    attributes. *)
Definition has_node (ns : list Node) (i : nat) (ty : string) (args : list Output)
    (attrs : Attrs) : Prop :=
  ∃ n, ns !! i = Some n ∧ type_name n = ty ∧ arguments n = args ∧ attributes n = attrs.

(** [batch] is the live extent of axis 0 of the port [input_ids]:
    [gather(shape_of(input_ids, i64), constant([0]), constant(0))]. *)
Definition batch_extent (ns : list Node) (input_ids : Output) (batch : nat) : Prop :=
  ∃ shape_of indices axis,
    has_node ns batch "Gather" [(shape_of, 0%nat); (indices, 0%nat); (axis, 0%nat)] ANone ∧
    has_node ns shape_of "ShapeOf" [input_ids] (AShapeOf i64) ∧
    has_node ns indices "Constant" [] (AConstant i64 [1%nat] [0]) ∧
    has_node ns axis "Constant" [] (AConstant i64 [] [0]).

(** [init] is a zero-valued broadcast of the element type of [out] whose
    target shape concatenates one entry for each dimension of [out]: the node
    [batch] at [batch_dim], a constant holding the minimum length of the
    dimension elsewhere. *)
Definition zero_initializer (ns : list Node) (batch batch_dim : nat) (out : Tensor)
    (init : nat) : Prop :=
  ∃ zero shape ids,
    has_node ns init "Broadcast" [(zero, 0%nat); (shape, 0%nat)] ANone ∧
    has_node ns zero "Constant" [] (AConstant (element_type out) [] [0]) ∧
    has_node ns shape "Concat" ((λ d, (d, 0%nat)) <$> ids) (AConcat 0) ∧
    length ids = length (partial_shape out) ∧
    ∀ k dim, partial_shape out !! k = Some dim →
      if decide (k = batch_dim) then ids !! k = Some batch
      else ∃ c, ids !! k = Some c ∧
                has_node ns c "Constant" [] (AConstant i64 [1%nat] [min_length dim]).

(** A change of the store that keeps the type, arguments and attributes of
    every node that is not a ReadValue. *)
Definition keeps_ops (ns ns' : list Node) : Prop :=
  ∀ i n, ns !! i = Some n → type_name n ≠ "ReadValue" →
    ∃ n', ns' !! i = Some n' ∧ type_name n' = type_name n ∧
          arguments n' = arguments n ∧ attributes n' = attributes n.

(** The node made for an entry of [dims]. *)
Definition dim_node_spec (ns : list Node) (d : DimItem) (id : nat) : Prop :=
  match d with
  | DimNode n => id = n
  | DimInt v => has_node ns id "Constant" [] (AConstant i64 [1%nat] [v])
  end.

(** The nodes a store had, seen after the loop over the operations. *)
Record initialized_from (batch : nat) (bd : Z) (ops : list nat) (ns ns' : list Node) : Prop := {
  init_other : ∀ i n, ns !! i = Some n → type_name n ≠ "ReadValue" → ns' !! i = Some n;
  init_skipped : ∀ i n, ns !! i = Some n → i ∉ ops → ns' !! i = Some n;
  init_structure : ∀ i n, ns !! i = Some n →
    ∃ n', ns' !! i = Some n' ∧ type_name n' = type_name n ∧
          outputs n' = outputs n ∧ attributes n' = attributes n;
  init_read_value : ∀ op n, op ∈ ops → ns !! op = Some n → type_name n = "ReadValue" →
    ∃ out init n' k,
      outputs n !! 0%nat = Some out ∧ ns' !! op = Some n' ∧
      arguments n' = [(init, 0%nat)] ∧
      py_index (length (partial_shape out)) bd = Some k ∧
      zero_initializer ns' batch k out init;
  init_new : ∀ i n', ns' !! i = Some n' → (length ns ≤ i)%nat → type_name n' ≠ "ReadValue"
}.

(** The sample decoder step after the engine's transformation. *)
Definition demo_map : gmap string string := <["past_key" := "present_key"]> ∅.

Definition demo_transformed_state : State :=
  (make_stateful_transformation demo_engine demo_map demo_state).2.

(** The shape of output 0 of a node, the shape [get_partial_shape] reports
    for an input of the graph. *)
Definition shape0 (n : Node) : PartialShape :=
  default [] (partial_shape <$> outputs n !! 0%nat).

(** The attributes after [set_partial_shape(sh)]. *)
Definition pinned_attrs (sh : PartialShape) (a : Attrs) : Attrs :=
  match a with
  | AParameter fn ty _ => AParameter fn ty sh
  | _ => a
  end.

(** What a run of the pinning loops may change: the shape a Parameter
    declares, and the printed text. *)
Record pinned_from (rewrites : nat → Node → option PartialShape) (st st' : State) : Prop := {
  pin_not_kv_inputs : not_kv_inputs st' = not_kv_inputs st;
  pin_parameters : parameters (ov_model st') = parameters (ov_model st);
  pin_results : results (ov_model st') = results (ov_model st);
  pin_sinks : sinks (ov_model st') = sinks (ov_model st);
  pin_length : length (nodes (ov_model st')) = length (nodes (ov_model st));
  pin_stdout : ∃ printed, stdout st' = stdout st ++ printed;
  pin_nodes : ∀ i n, nodes (ov_model st) !! i = Some n →
    ∃ n', nodes (ov_model st') !! i = Some n' ∧
          type_name n' = type_name n ∧ arguments n' = arguments n ∧
          outputs n' = outputs n ∧
          attributes n' = match rewrites i n with
                          | Some sh => pinned_attrs sh (attributes n)
                          | None => attributes n
                          end;
  pin_declared : ∀ i n sh, nodes (ov_model st) !! i = Some n → rewrites i n = Some sh →
    is_Some (declared n)
}.

(** The shape the loop over [not_kv_inputs] (resp. over the key-value
    names) leaves declared at node [i], if it sets one. *)
Definition pin_rewrites (b : N) (l : list Output) (i : nat) (n : Node) : option PartialShape :=
  if decide ((i, 0%nat) ∈ l ∧ (length (shape0 n) ≤ 2)%nat)
  then Some (<[0%nat := static_dim (Z.of_N b)]> (shape0 n))
  else None.

Definition kv_rewrites (m : Model) (batch_dim : nat) (v : N) (kv : list string)
    (i : nat) (n : Node) : option PartialShape :=
  if decide ((i, 0%nat) ∈ omap (model_input m) kv)
  then Some (<[batch_dim := static_dim (Z.of_N v)]> (shape0 n))
  else None.

(** The port is output 0 of a Parameter that declares the shape its tensor
    has: the graph was validated since that shape was set. *)
Definition validated_input (m : Model) (p : Output) : Prop :=
  p.2 = 0%nat ∧
  ∃ n ty t, nodes m !! p.1 = Some n ∧ outputs n !! 0%nat = Some t ∧
            declared n = Some (ty, partial_shape t).

(** The sample decoder step prepared with batch 2 and 8 attention heads. *)
Definition demo_pinned_state : State :=
  (make_stateful_prepare demo_engine ["past_key"] ["present_key"] 0 8 (Some 2%N) demo_state).2.

(** A graph with a non-key-value input of rank 3, with and without a tensor
    name. *)
Definition rank3_model (names3 : list string) : Model :=
  mkModel
    [ mkNode "Parameter" [] [mkTensor ["input_ids"] [dynamic_dim; dynamic_dim] i64]
             (AParameter "input_ids" i64 [dynamic_dim; dynamic_dim]);
      mkNode "Parameter" []
             [mkTensor names3 [dynamic_dim; dynamic_dim; static_dim 64] f32]
             (AParameter "encoder_hidden_states" f32 [dynamic_dim; dynamic_dim; static_dim 64]);
      mkNode "Attention" [(0, 0); (1, 0)]%nat
             [mkTensor ["logits"] [dynamic_dim; dynamic_dim; static_dim 100] f32] ANone;
      mkNode "Result" [(2, 0)]%nat
             [mkTensor ["logits"] [dynamic_dim; dynamic_dim; static_dim 100] f32] ANone ]
    [0; 1]%nat [3]%nat [].

Definition rank3_state (names3 : list string) : State :=
  mkState (rank3_model names3) [(0, 0); (1, 0)]%nat [].

(** What a statement may do that only sets declared shapes, re-validates
    and prints: the inputs, outputs and sinks of the graph, the type and the
    arguments of every node and the list of non-key-value inputs are kept,
    and the printed text is only extended. *)
Definition same_wiring (st st' : State) : Prop :=
  parameters (ov_model st') = parameters (ov_model st) ∧
  results (ov_model st') = results (ov_model st) ∧
  sinks (ov_model st') = sinks (ov_model st) ∧
  type_name <$> nodes (ov_model st') = type_name <$> nodes (ov_model st) ∧
  arguments <$> nodes (ov_model st') = arguments <$> nodes (ov_model st) ∧
  not_kv_inputs st' = not_kv_inputs st ∧
  ∃ printed, stdout st' = stdout st ++ printed.

(** A statement keeps an invariant of the state on every outcome, whether
    it returns or raises. *)
Definition preserves {A} (I : State → Prop) (c : M A) : Prop :=
  ∀ st r st', c st = (r, st') → I st → I st'.

(** Node [b] is an input of the graph and its tensor is named [beam_idx]. *)
Definition beam_marked (b : nat) (st : State) : Prop :=
  (b, 0%nat) ∈ model_inputs (ov_model st) ∧
  "beam_idx" ∈ get_names (ov_model st) (b, 0%nat).

(** ** Reasoning about statements *)

Lemma py_index_of_nat len k :
  py_index len (Z.of_nat k) = if decide (k < len)%nat then Some k else None.
Proof.
  unfold py_index. destruct (decide (k < len)%nat) as [Hlt|Hge].
  - rewrite decide_True by lia. by rewrite Nat2Z.id.
  - rewrite !decide_False by lia. done.
Qed.

Lemma py_index_lt len i k : py_index len i = Some k → (k < len)%nat.
Proof. unfold py_index. repeat case_decide; intros [= <-]; lia. Qed.

Lemma bind_Ok {A B} (c : M A) (k : A → M B) st b st' :
  bind c k st = (Ok b, st') → ∃ a st1, c st = (Ok a, st1) ∧ k a st1 = (Ok b, st').
Proof. unfold bind. destruct (c st) as [[a|e] st1]; [eauto | done]. Qed.

Lemma bind_Ok_l {A B} (c : M A) (k : A → M B) st a st1 :
  c st = (Ok a, st1) → bind c k st = k a st1.
Proof. unfold bind. by intros ->. Qed.

Lemma bind_Raise_l {A B} (c : M A) (k : A → M B) st e st1 :
  c st = (Raise e, st1) → bind c k st = (Raise e, st1).
Proof. unfold bind. by intros ->. Qed.

Lemma from_option_Ok {A} e (o : option A) st a st' :
  from_option e o st = (Ok a, st') → o = Some a ∧ st' = st.
Proof. destruct o; unfold from_option, ret, raise; naive_solver. Qed.

Lemma py_assert_Ok b st u st' : py_assert b st = (Ok u, st') → b = true ∧ st' = st.
Proof. destruct b; unfold py_assert, ret, raise; naive_solver. Qed.

Lemma for_each_app {A} (l1 l2 : list A) (body : A → M unit) st :
  for_each (l1 ++ l2) body st = (for_each l1 body >> for_each l2 body) st.
Proof.
  revert st. induction l1 as [|x l1 IH]; intros st; simpl.
  - reflexivity.
  - unfold bind. destruct (body x st) as [[[]|e] st1]; [|done].
    rewrite IH. reflexivity.
Qed.

(** A loop whose body only updates the graph folds the update. *)
Lemma for_each_modify {A} (l : list A) (f : A → Model → Model) st :
  for_each l (λ x, modify_model (f x)) st =
  (Ok tt, mkState (foldl (λ m x, f x m) (ov_model st) l) (not_kv_inputs st) (stdout st)).
Proof.
  revert st. induction l as [|x l IH]; intros st; simpl.
  - by destruct st.
  - unfold bind, modify_model at 1. rewrite IH. reflexivity.
Qed.

(** Decomposes a successful run of a sequence of statements. *)
Ltac ok_bind H x st' Hx :=
  apply bind_Ok in H as (x & st' & Hx & H).

Ltac ok_prim H :=
  first
    [ apply from_option_Ok in H as [H ->]
    | apply py_assert_Ok in H as [H ->]
    | (unfold get_model, get_not_kv_inputs, set_not_kv_inputs, modify_model, print, ret in H;
       first [injection H as <- <- | injection H as <-]) ].

(** ** The version gate *)

Section VersionGate.

Variable E : Engine.

(** C3: when the engine's version is at or below 2023.2, [patch_stateful]
    raises the unsupported-version error whose message carries the detected
    version string, and the state it raises in (the graph, the caller's list
    and the printed text) is the one it was called in: nothing was mutated. *)
Theorem patch_stateful_too_old (model : PyModel) (st : State) :
  is_openvino_version E "<=" "2023.2" = true →
  patch_stateful E model st =
    (Raise (ValueError
       ("Could not create or use stateful model when using old version of openvino=="
        ++ ov_version E ++ ". Install openvino>=2023.3.0.")), st).
Proof.
  intros Hold. unfold patch_stateful.
  apply bind_Raise_l. unfold raise_if_openvino_is_too_old. by rewrite Hold.
Qed.

End VersionGate.

Lemma patch_stateful_too_old_witness :
  is_openvino_version (ref_engine "2023.2.0" true) "<=" "2023.2" = true ∧
  patch_stateful (ref_engine "2023.2.0" true)
                 (mkPyModel ["past_key"] ["present_key"] "gpt2" 12) demo_state =
    (Raise (ValueError
       "Could not create or use stateful model when using old version of openvino==2023.2.0. Install openvino>=2023.3.0."),
     demo_state).
Proof.
  split; [reflexivity|].
  apply (patch_stateful_too_old (ref_engine "2023.2.0" true)). reflexivity.
Defined.

(** ** Introspection *)

Lemma model_has_input_has_name m name :
  model_has_input m name = true → model_has_name m name = true.
Proof.
  unfold model_has_input, model_has_name. rewrite !bool_decide_eq_true.
  rewrite fmap_app, concat_app, elem_of_app. auto.
Qed.

(** C8: the precondition of [fuse_cache_reorder] looks at the names of the
    inputs and of the outputs, the cache-reorder query at the inputs only.
    Whenever the query finds the name the precondition check finds it too,
    and on a graph whose only port named [beam_idx] is an output the query
    answers false while [fuse_cache_reorder] fails its assertion, leaving the
    state as it was. *)
Theorem beam_idx_precondition_stronger_than_query :
  (∀ m, model_has_cache_reorder m = true → model_has_name m "beam_idx" = true) ∧
  ∃ m,
    (∀ i, i ∈ model_inputs m → "beam_idx" ∉ get_names m i) ∧
    (∃ o, o ∈ model_outputs m ∧ "beam_idx" ∈ get_names m o) ∧
    model_has_cache_reorder m = false ∧
    ∀ E nkv out kv gather_dim,
      fuse_cache_reorder E kv gather_dim (mkState m nkv out) =
        (Raise AssertionError, mkState m nkv out).
Proof.
  split.
  - intros m. apply model_has_input_has_name.
  - exists beam_output_model. split_and!.
    + intros i Hi. apply (bool_decide_unpack _). revert i Hi.
      apply Forall_forall. by vm_compute; repeat constructor.
    + exists (1, 0)%nat. split; apply (bool_decide_unpack _); by vm_compute.
    + reflexivity.
    + reflexivity.
Qed.

(** ** The orchestrator and the name mapping *)

Section Orchestration.

Variable E : Engine.

(** C5: on an engine that passes the version gate, [patch_stateful] runs
    [fuse_cache_reorder] and then [make_stateful] on a list of non-key-value
    inputs that holds, in graph order, exactly the inputs none of whose names
    is a key-value input name; the batch dimension is 1 for the family
    [chatglm] and 0 otherwise, the number of attention heads is the
    configured one for the family [bloom] and 1 otherwise, and
    [num_beams_and_batch] is [None]. *)
Theorem patch_stateful_arguments (model : PyModel) (st : State) :
  is_openvino_version E "<=" "2023.2" = false →
  ∃ (nkv : list Output) (batch_dim : Z) (heads : N),
    (∀ p, p ∈ nkv ↔
          p ∈ model_inputs (ov_model st) ∧
          ∀ name, name ∈ get_names (ov_model st) p → name ∉ key_value_input_names model) ∧
    sublist nkv (model_inputs (ov_model st)) ∧
    (config_model_type model = "chatglm" → batch_dim = 1) ∧
    (config_model_type model ≠ "chatglm" → batch_dim = 0) ∧
    (config_model_type model = "bloom" → heads = normalized_config_num_attention_heads model) ∧
    (config_model_type model ≠ "bloom" → heads = 1%N) ∧
    patch_stateful E model st =
      (fuse_cache_reorder E (key_value_input_names model) batch_dim >>
       make_stateful E (key_value_input_names model) (key_value_output_names model)
                     batch_dim heads None)
        (mkState (ov_model st) nkv (stdout st)).
Proof.
  intros Hver.
  eexists (filter (λ input, ¬ Exists (λ name, name ∈ key_value_input_names model)
                                     (get_names (ov_model st) input))
                  (model_inputs (ov_model st))),
          (if decide (config_model_type model = "chatglm") then 1 else 0),
          (if decide (config_model_type model = "bloom")
           then normalized_config_num_attention_heads model else 1%N).
  split_and!.
  - intros p. rewrite list_elem_of_filter, Exists_exists. split.
    + intros [Hnone Hin]. split; [done|]. intros name Hname Hkv. apply Hnone. eauto.
    + intros [Hin Hnone]. split; [|done]. intros (name & Hname & Hkv). by apply (Hnone name).
  - apply sublist_filter.
  - intros Hc. by rewrite decide_True.
  - intros Hc. by rewrite decide_False.
  - intros Hc. by rewrite decide_True.
  - intros Hc. by rewrite decide_False.
  - unfold patch_stateful, raise_if_openvino_is_too_old. rewrite Hver. reflexivity.
Qed.

Lemma for_fold_map_kv_pair_None bd heads l acc st :
  for_fold l (map_kv_pair bd heads None) acc st = (Ok (foldl insert_pair acc l), st).
Proof.
  revert acc. induction l as [|p l IH]; intros acc; simpl; [done|].
  unfold bind. simpl. apply IH.
Qed.

Lemma foldl_insert_pair_lookup l acc k v :
  foldl insert_pair acc l !! k = Some v → (k, v) ∈ l ∨ acc !! k = Some v.
Proof.
  revert acc. induction l as [|[k' v'] l IH]; intros acc; simpl; [auto|].
  intros [Hin|Hacc]%IH.
  - left. by right.
  - unfold insert_pair in Hacc. simpl in Hacc.
    destruct (decide (k' = k)) as [->|Hne].
    + rewrite lookup_insert_eq in Hacc. simplify_eq. left. by left.
    + rewrite lookup_insert_ne in Hacc by done. by right.
Qed.

Lemma foldl_insert_pair_is_Some l acc k :
  is_Some (acc !! k) ∨ k ∈ l.*1 → is_Some (foldl insert_pair acc l !! k).
Proof.
  revert acc. induction l as [|[k' v'] l IH]; intros acc; simpl.
  - intros [?|Hin]; [done|]. by apply elem_of_nil in Hin.
  - intros H. apply IH. unfold insert_pair. simpl.
    destruct (decide (k' = k)) as [->|Hne].
    + left. rewrite lookup_insert_eq. eauto.
    + rewrite lookup_insert_ne by done.
      destruct H as [?|Hin]; [by left|]. apply elem_of_cons in Hin as [?|?]; [done|by right].
Qed.

(** C9: the mapping is built from the positional zip of the two name lists.
    A call with lists of unequal length behaves in every respect as the call
    with both lists cut to the shorter length [n]; without a pinned batch the
    preparation raises nothing and changes nothing, and the mapping it hands
    on holds exactly the first [n] input names, each bound to an output name
    of the same position. *)
Theorem make_stateful_zip_truncates
    (kv_in kv_out : list string) (bd : Z) (heads : N) (nb : option N) (st : State) :
  let n := Nat.min (length kv_in) (length kv_out) in
  make_stateful E kv_in kv_out bd heads nb st =
    make_stateful E (take n kv_in) (take n kv_out) bd heads nb st ∧
  ∃ input_output_map : gmap string string,
    make_stateful_prepare E kv_in kv_out bd heads None st = (Ok input_output_map, st) ∧
    (∀ k v, input_output_map !! k = Some v →
            ∃ i, (i < n)%nat ∧ kv_in !! i = Some k ∧ kv_out !! i = Some v) ∧
    (∀ i k, (i < n)%nat → kv_in !! i = Some k → is_Some (input_output_map !! k)) ∧
    (∀ i k, (n ≤ i)%nat → kv_in !! i = Some k → k ∉ take n kv_in →
            input_output_map !! k = None).
Proof.
  intros n. split.
  - unfold make_stateful, make_stateful_prepare.
    assert (zip (take n kv_in) (take n kv_out) = zip kv_in kv_out) as ->
      by (apply zip_with_take_both'; subst n; lia).
    reflexivity.
  - exists (foldl insert_pair ∅ (zip kv_in kv_out)). split_and!.
    + unfold make_stateful_prepare, bind, ret.
      rewrite for_fold_map_kv_pair_None. reflexivity.
    + intros k v [Hin|Hemp]%foldl_insert_pair_lookup; [|by rewrite lookup_empty in Hemp].
      apply list_elem_of_lookup in Hin as [i Hi].
      apply lookup_zip_Some in Hi as [Hk Hv].
      exists i. split_and!; [|done..].
      apply lookup_lt_Some in Hk. apply lookup_lt_Some in Hv. subst n. lia.
    + intros i k Hi Hk. apply foldl_insert_pair_is_Some. right.
      assert (is_Some (kv_out !! i)) as [v Hv] by (apply lookup_lt_is_Some; subst n; lia).
      apply list_elem_of_fmap. exists (k, v). split; [done|].
      apply list_elem_of_lookup. exists i. by apply lookup_zip_Some.
    + intros i k Hi Hk Hnot.
      destruct (foldl insert_pair ∅ (zip kv_in kv_out) !! k) as [v|] eqn:Hl; [|done].
      apply foldl_insert_pair_lookup in Hl as [Hin|Hemp]; [|by rewrite lookup_empty in Hemp].
      apply list_elem_of_lookup in Hin as [j Hj].
      apply lookup_zip_Some in Hj as [Hjk Hjv].
      exfalso. apply Hnot. apply list_elem_of_lookup. exists j.
      rewrite lookup_take_lt; [done|].
      apply lookup_lt_Some in Hjk. apply lookup_lt_Some in Hjv. subst n. lia.
Qed.

End Orchestration.

Lemma patch_stateful_arguments_witness :
  let model := mkPyModel ["past_key"] ["present_key"] "bloom" 12 in
  is_openvino_version demo_engine "<=" "2023.2" = false ∧
  ∃ (nkv : list Output) (batch_dim : Z) (heads : N),
    (∀ p, p ∈ nkv ↔
          p ∈ model_inputs (ov_model demo_state) ∧
          ∀ name, name ∈ get_names (ov_model demo_state) p →
                  name ∉ key_value_input_names model) ∧
    sublist nkv (model_inputs (ov_model demo_state)) ∧
    (config_model_type model = "chatglm" → batch_dim = 1) ∧
    (config_model_type model ≠ "chatglm" → batch_dim = 0) ∧
    (config_model_type model = "bloom" → heads = normalized_config_num_attention_heads model) ∧
    (config_model_type model ≠ "bloom" → heads = 1%N) ∧
    patch_stateful demo_engine model demo_state =
      (fuse_cache_reorder demo_engine (key_value_input_names model) batch_dim >>
       make_stateful demo_engine (key_value_input_names model) (key_value_output_names model)
                     batch_dim heads None)
        (mkState (ov_model demo_state) nkv (stdout demo_state)).
Proof.
  intros model. split; [reflexivity|].
  apply (patch_stateful_arguments demo_engine model demo_state). reflexivity.
Defined.

(** ** Edges and rewiring *)

Lemma elem_of_arg_positions o k0 args k :
  k ∈ arg_positions o k0 args ↔ (k0 ≤ k)%nat ∧ args !! (k - k0)%nat = Some o.
Proof.
  revert k0. induction args as [|a args IH]; intros k0; simpl.
  - split; [by intros ?%elem_of_nil | by intros [_ ?]].
  - assert (∀ x, (k0 < k)%nat → (a :: args) !! (k - k0)%nat = x ↔ args !! (k - S k0)%nat = x) as Hs.
    { intros x Hlt. by replace (k - k0)%nat with (S (k - S k0)) by lia. }
    destruct (decide (a = o)) as [->|Hne]; [rewrite elem_of_cons|]; rewrite IH; split.
    + intros [->|[Hle Hl]]; [split; [lia|]; by replace (k0 - k0)%nat with 0%nat by lia |].
      split; [lia|]. apply Hs; [lia|done].
    + intros [Hle Hl]. destruct (decide (k = k0)) as [->|]; [by left|right].
      split; [lia|]. apply Hs; [lia|done].
    + intros [Hle Hl]. split; [lia|]. apply Hs; [lia|done].
    + intros [Hle Hl]. destruct (decide (k = k0)) as [->|].
      { replace (k0 - k0)%nat with 0%nat in Hl by lia. simpl in Hl. congruence. }
      split; [lia|]. apply Hs; [lia|done].
Qed.

Lemma elem_of_target_inputs_from o i0 ns i k :
  (i, k) ∈ target_inputs_from o i0 ns ↔
  (i0 ≤ i)%nat ∧ ∃ n, ns !! (i - i0)%nat = Some n ∧ arguments n !! k = Some o.
Proof.
  revert i0. induction ns as [|n ns IH]; intros i0; simpl.
  - split; [by intros ?%elem_of_nil | by intros [_ (? & ? & _)]].
  - rewrite elem_of_app, list_elem_of_fmap, IH. split.
    + intros [(k' & [= -> ->] & Hk)|[Hle (n' & Hn' & Ha)]].
      * apply elem_of_arg_positions in Hk as [_ Hk].
        split; [lia|]. exists n. replace (i0 - i0)%nat with 0%nat by lia.
        split; [done|]. by rewrite Nat.sub_0_r in Hk.
      * split; [lia|]. exists n'. by replace (i - i0)%nat with (S (i - S i0)) by lia.
    + intros [Hle (n' & Hn' & Ha)]. destruct (decide (i = i0)) as [->|Hne].
      * left. exists k. split; [done|]. apply elem_of_arg_positions.
        replace (i0 - i0)%nat with 0%nat in Hn' by lia. simpl in Hn'. simplify_eq.
        split; [lia|]. by rewrite Nat.sub_0_r.
      * right. split; [lia|]. exists n'.
        by replace (i - i0)%nat with (S (i - S i0)) in Hn' by lia.
Qed.

Lemma elem_of_get_target_inputs m o (i : Input) :
  i ∈ get_target_inputs m o ↔ source_output m i = Some o.
Proof.
  destruct i as [i k]. unfold get_target_inputs, source_output. simpl.
  rewrite elem_of_target_inputs_from, Nat.sub_0_r. split.
  - intros [_ (n & -> & Ha)]. done.
  - intros H. split; [lia|]. destruct (nodes m !! i) as [n|]; [eauto|done].
Qed.

Lemma replace_all_lists new m L :
  parameters (replace_all new m L) = parameters m ∧
  results (replace_all new m L) = results m ∧
  sinks (replace_all new m L) = sinks m.
Proof.
  revert m. induction L as [|c L IH]; intros m; simpl; [done|].
  unfold replace_all in *. simpl. destruct (IH (replace_source_output c new m)) as (-> & -> & ->).
  done.
Qed.

Lemma replace_all_lookup new m L i :
  nodes (replace_all new m L) !! i = rewired L new i <$> nodes m !! i.
Proof.
  revert m. induction L as [|c L IH]; intros m.
  - simpl. destruct (nodes m !! i) as [n|]; [|done]. simpl. f_equal.
    destruct n as [t args outs attrs]. unfold rewired. simpl. f_equal.
    apply list_eq. intros k. rewrite list_lookup_imap.
    by destruct (args !! k).
  - unfold replace_all in *. simpl. rewrite IH.
    unfold replace_source_output at 1. simpl. destruct c as [ci ck]. simpl.
    rewrite list_lookup_alter. destruct (decide (ci = i)) as [->|Hne].
    + destruct (nodes m !! i) as [n|]; [|done]. simpl. f_equal.
      unfold rewired, set_argument. simpl. f_equal.
      apply list_eq. intros k. rewrite !list_lookup_imap, list_lookup_insert.
      destruct (decide (ck = k ∧ (ck < length (arguments n))%nat)) as [[-> Hlt]|Hn].
      * apply lookup_lt_is_Some in Hlt as [a Ha]. rewrite Ha. simpl.
        rewrite (decide_True (P := (i, k) ∈ (i, k) :: L)) by by left.
        by destruct (decide ((i, k) ∈ L)).
      * destruct (arguments n !! k) as [a|] eqn:Ha; [|done]. simpl. f_equal.
        assert (ck ≠ k) as Hck.
        { intros ->. apply Hn. split; [done|]. by apply lookup_lt_is_Some. }
        destruct (decide ((i, k) ∈ L)) as [Hin|Hnin].
        -- by rewrite decide_True by by right.
        -- rewrite decide_False; [done|]. intros [?|?]%elem_of_cons; simplify_eq; done.
    + destruct (nodes m !! i) as [n|]; [|done]. simpl. f_equal.
      unfold rewired. f_equal. apply imap_ext. intros k a _.
      destruct (decide ((i, k) ∈ L)) as [Hin|Hnin].
      * by rewrite decide_True by by right.
      * rewrite decide_False; [done|]. intros [?|?]%elem_of_cons; simplify_eq; done.
Qed.

(** Redirecting every consumer of a port, as listed before new nodes were
    added, replaces the port in the arguments of the nodes present at that
    time and leaves the new nodes alone. *)
Lemma replace_all_target_inputs p new ns extra m :
  nodes m = ns ++ extra →
  nodes (replace_all new m (target_inputs_from p 0 ns)) = (subst_node p new <$> ns) ++ extra.
Proof.
  intros Hm. apply list_eq. intros i. rewrite replace_all_lookup, Hm.
  destruct (decide (i < length ns)%nat) as [Hlt|Hge].
  - rewrite !lookup_app_l by (by rewrite ?length_fmap). rewrite list_lookup_fmap.
    destruct (ns !! i) as [n|] eqn:Hn; [|done]. simpl. f_equal.
    unfold rewired, subst_node. f_equal.
    apply list_eq. intros k. rewrite list_lookup_imap, list_lookup_fmap.
    destruct (arguments n !! k) as [a|] eqn:Ha; [|done]. simpl. f_equal.
    unfold subst_output. destruct (decide (a = p)) as [->|Hne].
    + rewrite decide_True; [done|]. apply elem_of_target_inputs_from.
      split; [lia|]. exists n. by rewrite Nat.sub_0_r.
    + rewrite decide_False; [done|]. intros (_ & n' & Hn' & Ha')%elem_of_target_inputs_from.
      rewrite Nat.sub_0_r in Hn'. simplify_eq.
  - rewrite !lookup_app_r by (rewrite ?length_fmap; lia). rewrite length_fmap.
    destruct (extra !! (i - length ns)%nat) as [n|]; [|done]. simpl. f_equal.
    destruct n as [t args outs attrs]. unfold rewired. simpl. f_equal.
    apply list_eq. intros k. rewrite list_lookup_imap.
    destruct (args !! k); [|done]. simpl. f_equal.
    rewrite decide_False; [done|]. intros (_ & n' & Hn' & _)%elem_of_target_inputs_from.
    rewrite Nat.sub_0_r in Hn'. apply lookup_lt_Some in Hn'. lia.
Qed.

(** ** Ports and names *)

Lemma filter_ext_elem {A} (P Q : A → Prop) `{!∀ x, Decision (P x), !∀ x, Decision (Q x)}
    (l : list A) :
  (∀ x, x ∈ l → P x ↔ Q x) → filter P l = filter Q l.
Proof.
  induction l as [|a l IH]; intros Hext; [done|].
  assert (filter P l = filter Q l) as Hl by (apply IH; intros x Hx; apply Hext; by right).
  destruct (decide (P a)) as [HP|HP].
  - rewrite !filter_cons_True; [by rewrite Hl| |done]. apply Hext; [by left|done].
  - rewrite !filter_cons_False; [done| |done]. intros HQ. apply HP, Hext; [by left|done].
Qed.

Lemma elem_of_concat {A} (x : A) (ls : list (list A)) :
  x ∈ concat ls ↔ ∃ l, l ∈ ls ∧ x ∈ l.
Proof.
  induction ls as [|l ls IH]; simpl.
  - split; [by intros ?%elem_of_nil | by intros (? & ?%elem_of_nil & _)].
  - rewrite elem_of_app, IH. split.
    + intros [?|(l' & ? & ?)]; [exists l; split; [by left|done] | exists l'; split; [by right|done]].
    + intros (l' & [->|?]%elem_of_cons & ?); [by left | right; eauto].
Qed.

Lemma model_input_Some m name p :
  model_input m name = Some p → p ∈ model_inputs m ∧ name ∈ get_names m p.
Proof.
  unfold model_input. intros H%head_Some_elem_of.
  apply list_elem_of_filter in H as [? ?]. done.
Qed.

Lemma get_names_elem_lt m o name : name ∈ get_names m o → (o.1 < length (nodes m))%nat.
Proof.
  unfold get_names, get_tensor. destruct (nodes m !! o.1) as [n|] eqn:Hn.
  - intros _. by apply lookup_lt_Some in Hn.
  - simpl. by intros ?%elem_of_nil.
Qed.

Lemma model_has_name_false m name :
  model_has_name m name = false →
  ∀ o, o ∈ model_inputs m ++ model_outputs m → name ∉ get_names m o.
Proof.
  unfold model_has_name. intros H%bool_decide_eq_false o Ho Hin. apply H.
  apply elem_of_concat. exists (get_names m o). split; [|done].
  apply list_elem_of_fmap. eauto.
Qed.

Lemma model_has_name_true m name o :
  o ∈ model_inputs m ++ model_outputs m → name ∈ get_names m o → model_has_name m name = true.
Proof.
  intros Ho Hin. unfold model_has_name. apply bool_decide_eq_true.
  apply elem_of_concat. exists (get_names m o). split; [|done].
  apply list_elem_of_fmap. eauto.
Qed.

Lemma model_input_None m name : model_has_input m name = false → model_input m name = None.
Proof.
  unfold model_has_input. intros H%bool_decide_eq_false.
  destruct (model_input m name) as [p|] eqn:Hp; [|done].
  apply model_input_Some in Hp as [Hin Hname]. exfalso. apply H.
  apply elem_of_concat. exists (get_names m p). split; [|done].
  apply list_elem_of_fmap. eauto.
Qed.

(** ** Decomposing successful runs *)

Lemma model_eq m m' :
  nodes m = nodes m' → parameters m = parameters m' → results m = results m' →
  sinks m = sinks m' → m = m'.
Proof. destruct m, m'. simpl. by intros -> -> -> ->. Qed.

Lemma replace_all_reorder p cn gn m :
  replace_all (S (length (nodes m)), 0%nat)
              (set_nodes (λ ns, ns ++ [gn]) (set_nodes (λ ns, ns ++ [cn]) m))
              (get_target_inputs m p)
  = reorder_port p cn gn m.
Proof.
  match goal with |- replace_all ?new ?m2 ?L = _ =>
    destruct (replace_all_lists new m2 L) as (Hpar & Hres & Hsinks)
  end.
  apply model_eq; [|done..].
  unfold get_target_inputs.
  rewrite (replace_all_target_inputs p _ (nodes m) [cn; gn]); [done|].
  simpl. by rewrite <- app_assoc.
Qed.

Section Runs.

Variable E : Engine.

Lemma new_node_Ok ty args attrs st id st' :
  new_node E ty args attrs st = (Ok id, st') →
  ∃ outs,
    infer_node E (nodes (ov_model st)) ty args attrs = Some outs ∧
    id = length (nodes (ov_model st)) ∧
    st' = mkState (set_nodes (λ ns, ns ++ [mkNode ty args (fresh_tensor <$> outs) attrs])
                             (ov_model st))
                  (not_kv_inputs st) (stdout st).
Proof.
  unfold new_node. destruct (infer_node E _ ty args attrs) as [outs|]; [|done].
  intros [= <- <-]. eauto.
Qed.

Lemma validate_and_infer_Ok st u st' :
  validate_and_infer E st = (Ok u, st') →
  revalidated (ov_model st) (ov_model st') ∧
  not_kv_inputs st' = not_kv_inputs st ∧ stdout st' = stdout st.
Proof.
  unfold validate_and_infer.
  destruct (validate_nodes_and_infer_types E (ov_model st)) as [m'|] eqn:Hv; [|done].
  intros [= _ <-]. simpl. split; [|done]. by apply (validate_revalidated E).
Qed.

Lemma input_by_name_Ok name st p st' :
  input_by_name name st = (Ok p, st') → model_input (ov_model st) name = Some p ∧ st' = st.
Proof.
  unfold input_by_name. intros H. ok_bind H m st1 Hm. ok_prim Hm. by ok_prim H.
Qed.

Lemma input_by_name_None name st :
  model_input (ov_model st) name = None →
  input_by_name name st = (Raise (RuntimeError ("no input named " ++ name)), st).
Proof. unfold input_by_name, bind, get_model. by intros ->. Qed.

Lemma fuse_cache_reorder_Ok kv gd st st' :
  fuse_cache_reorder E kv gd st = (Ok tt, st') →
  let m0 := ov_model st in
  let b := length (nodes m0) in
  model_has_name m0 "beam_idx" = false ∧
  ∃ input_ids tensor d st2,
    model_input m0 "input_ids" = Some input_ids ∧
    get_tensor m0 input_ids = Some tensor ∧
    partial_shape tensor !! 0%nat = Some d ∧
    for_each kv (reorder_cache_input E b gd)
      (mkState (mkModel (nodes m0 ++ [beam_idx_node d]) (parameters m0 ++ [b])
                        (results m0) (sinks m0))
               (not_kv_inputs st ++ [(b, 0%nat)]) (stdout st)) = (Ok tt, st2) ∧
    validate_and_infer E st2 = (Ok tt, st').
Proof.
  intros H m0 b. unfold fuse_cache_reorder in H.
  ok_bind H m st1 Hm. ok_prim Hm.
  ok_bind H u st1 Hassert. ok_prim Hassert. apply negb_true_iff in Hassert.
  ok_bind H input_ids st1 Hin. apply input_by_name_Ok in Hin as [Hin ->].
  ok_bind H shape st1 Hshape. unfold get_partial_shape in Hshape.
  ok_bind Hshape m st2 Hm. ok_prim Hm. ok_prim Hshape.
  destruct (get_tensor (ov_model st) input_ids) as [tensor|] eqn:Htensor; [|done].
  simpl in Hshape. simplify_eq.
  ok_bind H d st1 Hd. ok_prim Hd.
  ok_bind H beam st1 Hbeam. apply new_node_Ok in Hbeam as (outs & Houts & -> & ->).
  apply infer_parameter in Houts as ->.
  ok_bind H u1 st1 Hnames. ok_prim Hnames.
  ok_bind H u2 st1 Hparams. ok_prim Hparams.
  ok_bind H m st1 Hm. ok_prim Hm.
  ok_bind H new_input st1 Hnew. ok_prim Hnew.
  ok_bind H l st1 Hl. ok_prim Hl.
  ok_bind H u3 st1 Hset. ok_prim Hset.
  ok_bind H u4 st2 Hloop. destruct u4.
  split; [done|]. exists input_ids, tensor, d, st2. split_and!; try done.
  rewrite <- Hloop. f_equal. simpl in *.
  unfold model_inputs, add_parameters, set_nodes in Hnew. cbn [parameters] in Hnew.
  rewrite fmap_app in Hnew.
  change ((λ p, (p, 0%nat)) <$> [length (nodes (ov_model st))])
    with [(length (nodes (ov_model st)), 0%nat)] in Hnew.
  rewrite last_snoc in Hnew. simplify_eq.
  subst m0 b. f_equal. unfold set_nodes, add_parameters. cbn [nodes parameters results sinks].
  f_equal. rewrite alter_app_r_alt by lia. rewrite Nat.sub_diag. reflexivity.
Qed.

Lemma reorder_cache_input_Ok b gd name st st' :
  reorder_cache_input E b gd name st = (Ok tt, st') →
  ∃ p cn gn,
    model_input (ov_model st) name = Some p ∧
    is_axis_constant gd cn ∧
    is_gather p (b, 0%nat) (length (nodes (ov_model st)), 0%nat) gn ∧
    st' = mkState (reorder_port p cn gn (ov_model st)) (not_kv_inputs st) (stdout st).
Proof.
  unfold reorder_cache_input. intros H.
  ok_bind H p st1 Hp. apply input_by_name_Ok in Hp as [Hp ->].
  ok_bind H m st1 Hm. ok_prim Hm.
  ok_bind H c st1 Hc. apply new_node_Ok in Hc as (outs & _ & -> & ->).
  ok_bind H g st1 Hg. apply new_node_Ok in Hg as (outs' & _ & -> & ->).
  rewrite for_each_modify in H. injection H as <-.
  exists p, (mkNode "Constant" [] (fresh_tensor <$> outs) (AConstant i64 [] [gd])),
         (mkNode "Gather" [p; (b, 0%nat); (length (nodes (ov_model st)), 0%nat)]
                 (fresh_tensor <$> outs') ANone).
  split_and!; [done|done|done|].
  f_equal. cbn [ov_model not_kv_inputs stdout].
  rewrite length_app, Nat.add_1_r. apply replace_all_reorder.
Qed.

Lemma reorder_loop_Ok b gd kv st st' :
  for_each kv (reorder_cache_input E b gd) st = (Ok tt, st') →
  ∃ ports,
    reordered b gd kv ports (ov_model st) (ov_model st') ∧
    not_kv_inputs st' = not_kv_inputs st ∧ stdout st' = stdout st.
Proof.
  revert st. induction kv as [|name kv IH]; intros st H; simpl in H.
  - injection H as <-. exists []. split; [constructor|done].
  - ok_bind H u st1 Hstep. destruct u.
    apply reorder_cache_input_Ok in Hstep as (p & cn & gn & Hp & Hcn & Hgn & ->).
    apply IH in H as (ports & Hr & Hnkv & Hout). exists (p :: ports).
    split; [|done]. econstructor; eauto.
Qed.

End Runs.

(** ** The graph after the reorder loop *)

Lemma reorder_port_lookup_old p cn gn m i n :
  nodes m !! i = Some n →
  nodes (reorder_port p cn gn m) !! i = Some (subst_node p (S (length (nodes m)), 0%nat) n).
Proof.
  intros Hn. unfold reorder_port, set_nodes. cbn [nodes].
  rewrite lookup_app_l by (rewrite length_fmap; by eapply lookup_lt_Some).
  by rewrite list_lookup_fmap, Hn.
Qed.

Lemma reorder_port_lookup_constant p cn gn m :
  nodes (reorder_port p cn gn m) !! length (nodes m) = Some cn.
Proof.
  unfold reorder_port, set_nodes. cbn [nodes].
  rewrite lookup_app_r by (rewrite length_fmap; lia).
  by rewrite length_fmap, Nat.sub_diag.
Qed.

Lemma reorder_port_lookup_gather p cn gn m :
  nodes (reorder_port p cn gn m) !! S (length (nodes m)) = Some gn.
Proof.
  unfold reorder_port, set_nodes. cbn [nodes].
  rewrite lookup_app_r by (rewrite length_fmap; lia).
  rewrite length_fmap. by replace (S (length (nodes m)) - length (nodes m))%nat with 1%nat by lia.
Qed.

Lemma reorder_port_length p cn gn m :
  length (nodes (reorder_port p cn gn m)) = S (S (length (nodes m))).
Proof.
  unfold reorder_port, set_nodes. cbn [nodes]. rewrite length_app, length_fmap. simpl. lia.
Qed.

Lemma reordered_lists b gd kv ports m m' :
  reordered b gd kv ports m m' →
  parameters m' = parameters m ∧ results m' = results m ∧ sinks m' = sinks m.
Proof.
  induction 1 as [|name names p ps m cn gn m' Hp Hcn Hgn Hr IH]; [done|].
  destruct IH as (-> & -> & ->). done.
Qed.

(** The loop touches the arguments of the nodes only. *)
Lemma reordered_structure b gd kv ports m m' :
  reordered b gd kv ports m m' →
  ∀ i n, nodes m !! i = Some n →
    ∃ n', nodes m' !! i = Some n' ∧ type_name n' = type_name n ∧
          outputs n' = outputs n ∧ attributes n' = attributes n.
Proof.
  induction 1 as [|name names p ps m cn gn m' Hp Hcn Hgn Hr IH]; intros i n Hn; [eauto|].
  destruct (IH i _ (reorder_port_lookup_old p cn gn m i n Hn)) as (n' & Hn' & Ht & Ho & Ha).
  eauto.
Qed.

Lemma get_names_agree m0 m o :
  (o.1 < length (nodes m0))%nat → outputs_agree m0 m → get_names m o = get_names m0 o.
Proof.
  intros Hlt Hagree. specialize (Hagree _ Hlt). unfold get_names, get_tensor.
  destruct (nodes m !! o.1), (nodes m0 !! o.1); simplify_eq/=; [|done..].
  by rewrite Hagree.
Qed.

(** A name that resolves in a graph resolves to the same input after inputs
    were appended, as long as the tensors of the old nodes are unchanged. *)
Lemma model_input_agree m0 m extra name p :
  in_range m0 → parameters m = parameters m0 ++ extra → outputs_agree m0 m →
  model_input m0 name = Some p → model_input m name = Some p.
Proof.
  intros Hrange Hpar Hagree. unfold model_input, model_inputs.
  rewrite Hpar, fmap_app, filter_app.
  rewrite (filter_ext_elem (λ o, name ∈ get_names m o) (λ o, name ∈ get_names m0 o)
             ((λ p, (p, 0%nat)) <$> parameters m0)).
  - destruct (filter _ (_ <$> parameters m0)); [done|]. simpl. done.
  - intros o (i & -> & Hi)%list_elem_of_fmap.
    rewrite (get_names_agree m0 m); [done| |done].
    simpl. unfold in_range in Hrange. rewrite Forall_forall in Hrange. by apply Hrange.
Qed.

Lemma outputs_agree_reorder_port m0 m p cn gn :
  outputs_agree m0 m → outputs_agree m0 (reorder_port p cn gn m).
Proof.
  intros Hagree i Hi. rewrite <- (Hagree i Hi).
  destruct (nodes m0 !! i) as [n0|] eqn:Hn0; [|apply lookup_ge_None in Hn0; lia].
  specialize (Hagree i Hi). rewrite Hn0 in Hagree.
  destruct (nodes m !! i) as [n|] eqn:Hn; [|done].
  by rewrite (reorder_port_lookup_old _ _ _ _ _ _ Hn).
Qed.

Lemma reordered_ports m0 extra b gd kv ports ports' m m' :
  in_range m0 → parameters m = parameters m0 ++ extra → outputs_agree m0 m →
  reordered b gd kv ports m m' →
  Forall2 (λ name p, model_input m0 name = Some p) kv ports' →
  ports = ports'.
Proof.
  intros Hrange Hpar Hagree Hr. revert ports' Hpar Hagree.
  induction Hr as [|name names p ps m cn gn m' Hp Hcn Hgn Hr IH]; intros ports' Hpar Hagree HF.
  - by apply Forall2_nil_inv_l in HF.
  - apply Forall2_cons_inv_l in HF as (p' & ps' & Hp' & HF & ->).
    apply (model_input_agree m0 m extra) in Hp'; [|done..]. simplify_eq. f_equal.
    apply IH; [done| |done]. by apply outputs_agree_reorder_port.
Qed.

Lemma edge_rel_fixed b gd ports ns' l l' :
  Forall (λ a, a ∉ ports) l → Forall2 (edge_rel b gd ports ns') l l' → l' = l.
Proof.
  intros Hl HF. revert Hl. induction HF as [|a a' l l' Ha HF IH]; intros Hl; [done|].
  apply Forall_cons in Hl as [Hnot Hl]. rewrite IH by done.
  destruct Ha as [[_ ->]|[Hin _]]; [done|by destruct Hnot].
Qed.

Lemma reordered_edges b gd kv ports m m' :
  reordered b gd kv ports m m' →
  NoDup ports → (∀ p, p ∈ ports → (p.1 < b)%nat) → (b < length (nodes m))%nat →
  ∀ i n, nodes m !! i = Some n →
    ∃ n', nodes m' !! i = Some n' ∧ type_name n' = type_name n ∧
          Forall2 (edge_rel b gd ports (nodes m')) (arguments n) (arguments n').
Proof.
  induction 1 as [|name names p ps m cn gn m' Hp Hcn Hgn Hr IH]; intros Hnd Hlt Hb i n Hn.
  - exists n. split_and!; [done..|]. apply Forall_Forall2_diag, Forall_forall.
    intros a _. left. split; [apply not_elem_of_nil|done].
  - apply NoDup_cons in Hnd as [Hpps Hnd].
    assert (∀ q, q ∈ ps → (q.1 < b)%nat) as Hlt' by (intros q Hq; apply Hlt; by right).
    assert (b < length (nodes (reorder_port p cn gn m)))%nat as Hb'
      by (rewrite reorder_port_length; lia).
    specialize (IH Hnd Hlt' Hb').
    (* the constant and the gather of this turn survive the later turns *)
    destruct (IH _ _ (reorder_port_lookup_constant p cn gn m)) as (cn' & Hcn' & Hct & Hca).
    destruct (IH _ _ (reorder_port_lookup_gather p cn gn m)) as (gn' & Hgn' & Hgt & Hga).
    destruct Hcn as (Hcnt & Hcna & Hcnat). destruct Hgn as (Hgnt & Hgna).
    rewrite Hcna in Hca. apply Forall2_nil_inv_l in Hca.
    rewrite Hgna in Hga. apply edge_rel_fixed in Hga.
    2:{ repeat apply Forall_cons_2; [done| | |apply Forall_nil_2].
        - intros Hin%Hlt'. simpl in Hin. lia.
        - intros Hin%Hlt'. simpl in Hin. lia. }
    destruct (reordered_structure _ _ _ _ _ _ Hr _ _ (reorder_port_lookup_constant p cn gn m))
      as (cn'' & Hcn'' & _ & _ & Hcattr).
    rewrite Hcn' in Hcn''. injection Hcn'' as <-.
    destruct (IH _ _ (reorder_port_lookup_old p cn gn m i n Hn)) as (n' & Hn' & Ht & Ha).
    exists n'. split_and!; [done|done|].
    unfold subst_node in Ha. cbn [arguments] in Ha.
    rewrite Forall2_fmap_l in Ha.
    eapply Forall2_impl; [exact Ha|]. intros a a'. unfold compose, subst_output.
    destruct (decide (a = p)) as [->|Hne].
    + intros [[_ ->]|[Hin _]].
      * right. split; [by left|].
        exists (S (length (nodes m))), (length (nodes m)), gn', cn'.
        split_and!; [done|done| |done|].
        -- split; [by rewrite Hgt|done].
        -- split_and!; [by rewrite Hct|done|by rewrite Hcattr].
      * apply Hlt' in Hin. simpl in Hin. lia.
    + intros [[Hnin ->]|[Hin Hex]].
      * left. split; [|done]. intros [?|?]%elem_of_cons; done.
      * right. split; [by right|done].
Qed.

(** ** Re-validation *)

Lemma revalidated_lookup m m' i n :
  revalidated m m' → nodes m !! i = Some n →
  ∃ n', nodes m' !! i = Some n' ∧ revalidated_node n n'.
Proof. intros [_ _ _ HF] Hn. by apply (Forall2_lookup_l _ _ _ _ _ HF Hn). Qed.

Lemma revalidated_lookup_r m m' i n' :
  revalidated m m' → nodes m' !! i = Some n' →
  ∃ n, nodes m !! i = Some n ∧ revalidated_node n n'.
Proof. intros [_ _ _ HF] Hn. by apply (Forall2_lookup_r _ _ _ _ _ HF Hn). Qed.

Lemma revalidated_length m m' : revalidated m m' → length (nodes m') = length (nodes m).
Proof. intros [_ _ _ HF]. symmetry. by eapply Forall2_length. Qed.

Lemma wf_inputs_in_range m : wf_inputs m → in_range m.
Proof.
  intros Hwf. eapply Forall_impl; [exact Hwf|]. intros i. unfold declares.
  destruct (nodes m !! i) eqn:Hn; [|done]. intros _. by eapply lookup_lt_Some.
Qed.

Section Fuser.

Variable E : Engine.

(** The new input of a successful run. *)
Lemma fuse_cache_reorder_beam_input kv gd st st' :
  fuse_cache_reorder E kv gd st = (Ok tt, st') →
  let m := ov_model st in
  let m' := ov_model st' in
  let b := length (nodes m) in
  model_has_name m "beam_idx" = false ∧
  ∃ input_ids tensor d m1 m2 ports,
    model_input m "input_ids" = Some input_ids ∧
    get_tensor m input_ids = Some tensor ∧
    partial_shape tensor !! 0%nat = Some d ∧
    m1 = mkModel (nodes m ++ [beam_idx_node d]) (parameters m ++ [b]) (results m) (sinks m) ∧
    reordered b gd kv ports m1 m2 ∧
    revalidated m2 m' ∧
    model_inputs m' = model_inputs m ++ [(b, 0%nat)] ∧
    get_tensor m' (b, 0%nat) = Some (mkTensor ["beam_idx"] [d] i32) ∧
    not_kv_inputs st' = not_kv_inputs st ++ [(b, 0%nat)] ∧
    stdout st' = stdout st.
Proof.
  intros H m m' b. subst m'.
  apply fuse_cache_reorder_Ok in H
    as (Hassert & input_ids & tensor & d & st2 & Hin & Ht & Hd & Hloop & Hval).
  split; [done|].
  apply reorder_loop_Ok in Hloop as (ports & Hr & Hnkv & Hout). cbn [ov_model] in Hr.
  apply validate_and_infer_Ok in Hval as (Hrv & Hnkv' & Hout').
  eexists input_ids, tensor, d, _, (ov_model st2), ports.
  split_and!; [done|done|done|reflexivity|exact Hr|done| | | |].
  - unfold model_inputs. rewrite (rv_parameters _ _ Hrv).
    destruct (reordered_lists _ _ _ _ _ _ Hr) as (-> & _ & _). simpl.
    by rewrite fmap_app.
  - assert (nodes (mkModel (nodes m ++ [beam_idx_node d]) (parameters m ++ [b])
                           (results m) (sinks m)) !! b = Some (beam_idx_node d)) as Hb.
    { simpl. rewrite lookup_app_r by (subst b; lia). subst b. by rewrite Nat.sub_diag. }
    destruct (reordered_structure _ _ _ _ _ _ Hr _ _ Hb) as (n2 & Hn2 & _ & Ho2 & Ha2).
    destruct (revalidated_lookup _ _ _ _ Hrv Hn2) as (n' & Hn' & Hrn).
    unfold get_tensor. cbn [fst snd]. rewrite Hn'. simpl.
    rewrite (rv_parameter _ _ Hrn i32 [d]), Ho2; [done|].
    unfold declared. by rewrite Ha2.
  - by rewrite Hnkv', Hnkv.
  - by rewrite Hout', Hout.
Qed.

End Fuser.

Section FuserClaims.

Variable E : Engine.

(** C1 (amended): on a graph whose inputs are Parameter nodes, let the
    key-value names resolve to pairwise distinct input ports.  After a
    successful run of [fuse_cache_reorder] the graph had no port named
    [beam_idx] before, its inputs are the old inputs followed by one new
    input, that input is the only one named [beam_idx], it has type [i32] and
    the one-dimensional shape whose extent is dimension 0 of [input_ids], it
    was appended to [not_kv_inputs], and every input slot that read a
    key-value port now reads output 0 of a Gather node whose data argument is
    that port, whose indices argument is the new input and whose axis
    argument is a constant holding [gather_dim]. *)
Theorem fuse_cache_reorder_gathers
    (kv : list string) (gather_dim : Z) (st st' : State) (ports : list Output) :
  wf_inputs (ov_model st) →
  Forall2 (λ name p, model_input (ov_model st) name = Some p) kv ports →
  NoDup ports →
  fuse_cache_reorder E kv gather_dim st = (Ok tt, st') →
  let m := ov_model st in
  let m' := ov_model st' in
  let beam_idx : Output := (length (nodes m), 0%nat) in
  model_has_name m "beam_idx" = false ∧
  (∃ input_ids tensor d,
     model_input m "input_ids" = Some input_ids ∧
     get_tensor m input_ids = Some tensor ∧
     partial_shape tensor !! 0%nat = Some d ∧
     get_tensor m' beam_idx = Some (mkTensor ["beam_idx"] [d] i32)) ∧
  model_inputs m' = model_inputs m ++ [beam_idx] ∧
  filter (λ o, "beam_idx" ∈ get_names m' o) (model_inputs m') = [beam_idx] ∧
  not_kv_inputs st' = not_kv_inputs st ++ [beam_idx] ∧
  ∀ p consumer,
    p ∈ ports → source_output m consumer = Some p →
    ∃ g c gn cn,
      source_output m' consumer = Some (g, 0%nat) ∧
      nodes m' !! g = Some gn ∧ is_gather p beam_idx (c, 0%nat) gn ∧
      nodes m' !! c = Some cn ∧ is_axis_constant gather_dim cn.
Proof.
  intros Hwf Hports Hnd H m m' beam_idx.
  destruct (fuse_cache_reorder_beam_input E _ _ _ _ H)
    as (Hassert & input_ids & tensor & d & m1 & m2 & ports0 & Hin & Ht & Hd & Hm1 & Hr & Hrv
        & Hinputs & Hbeam & Hnkv & Hout).
  fold m m' beam_idx in Hassert, Hin, Ht, Hm1, Hrv, Hinputs, Hbeam, Hnkv.
  pose proof (wf_inputs_in_range _ Hwf) as Hrange. fold m in Hrange, Hwf, Hports.
  assert (outputs_agree m m1) as Hagree.
  { intros i Hi. subst m1. simpl. by rewrite lookup_app_l. }
  assert (ports0 = ports) as ->.
  { eapply (reordered_ports m [length (nodes m)]); [done| |done|exact Hr|done].
    by subst m1. }
  assert (∀ p, p ∈ ports → (p.1 < length (nodes m))%nat) as Hlt.
  { intros p Hp. apply list_elem_of_lookup in Hp as [j Hj].
    destruct (Forall2_lookup_r _ _ _ _ _ Hports Hj) as (name & _ & Hname).
    apply model_input_Some in Hname as [_ Hname]. by eapply get_names_elem_lt. }
  split_and!; [done|by eauto 10|done| |done|].
  - rewrite Hinputs, filter_app.
    rewrite (filter_ext_elem _ (λ _, False) (model_inputs m)).
    + assert (filter (λ _ : Output, False) (model_inputs m) = []) as ->.
      { clear. induction (model_inputs m) as [|a l IH]; [done|].
        rewrite filter_cons_False; [exact IH|tauto]. }
      rewrite filter_cons_True, filter_nil; [done|].
      unfold get_names. rewrite Hbeam. by left.
    + intros o Ho. split; [|done]. intros Hname.
      apply (model_has_name_false _ _ Hassert o); [apply elem_of_app; by left|].
      apply list_elem_of_fmap in Ho as (i & -> & Hi).
      unfold wf_inputs in Hwf. rewrite Forall_forall in Hwf. specialize (Hwf i Hi).
      unfold declares in Hwf. destruct (nodes m !! i) as [n|] eqn:Hn; [|done].
      destruct Hwf as [[ty sh] Hdecl].
      assert (nodes m1 !! i = Some n) as Hn1.
      { subst m1. simpl. by apply lookup_app_l_Some. }
      destruct (reordered_structure _ _ _ _ _ _ Hr _ _ Hn1) as (n2 & Hn2 & _ & Ho2 & Ha2).
      destruct (revalidated_lookup _ _ _ _ Hrv Hn2) as (n' & Hn' & Hrn).
      revert Hname. unfold get_names, get_tensor. cbn [fst snd]. rewrite Hn', Hn. simpl.
      rewrite (rv_parameter _ _ Hrn ty sh), Ho2 by (unfold declared in *; by rewrite Ha2).
      rewrite list_lookup_fmap. by destruct (outputs n !! 0%nat).
  - intros p [i k] Hp Hsrc. unfold source_output in Hsrc. cbn [fst snd] in Hsrc.
    destruct (nodes m !! i) as [n|] eqn:Hn; [|done]. simpl in Hsrc.
    assert (nodes m1 !! i = Some n) as Hn1.
    { subst m1. simpl. by apply lookup_app_l_Some. }
    assert (length (nodes m) < length (nodes m1))%nat as Hb.
    { subst m1. cbn [nodes]. rewrite length_app. simpl. lia. }
    destruct (reordered_edges _ _ _ _ _ _ Hr Hnd Hlt Hb i n Hn1) as (n2 & Hn2 & _ & Hedges).
    destruct (Forall2_lookup_l _ _ _ _ _ Hedges Hsrc) as (a' & Ha' & [[Hnin _]|[_ Hex]]);
      [done|].
    destruct Hex as (g & c & gn & cn & -> & Hg & [Hgt Hga] & Hc & (Hct & Hca & Hcattr)).
    destruct (revalidated_lookup _ _ _ _ Hrv Hn2) as (n' & Hn' & Hrn).
    destruct (revalidated_lookup _ _ _ _ Hrv Hg) as (gn' & Hgn' & Hrg).
    destruct (revalidated_lookup _ _ _ _ Hrv Hc) as (cn' & Hcn' & Hrc).
    exists g, c, gn', cn'. split_and!; [|done| |done|].
    + unfold source_output. cbn [fst snd]. rewrite Hn'. simpl.
      by rewrite (rv_arguments _ _ Hrn).
    + split; [by rewrite (rv_type_name _ _ Hrg)|by rewrite (rv_arguments _ _ Hrg)].
    + split_and!; [by rewrite (rv_type_name _ _ Hrc)|by rewrite (rv_arguments _ _ Hrc)|
                   by rewrite (rv_attributes _ _ Hrc)].
Qed.

(** C6: after a successful run of [fuse_cache_reorder] the graph has a port
    named [beam_idx], so a second run, whatever its arguments, fails its
    assertion and leaves the state of the first run untouched. *)
Theorem fuse_cache_reorder_twice_fails
    (kv kv' : list string) (gather_dim gather_dim' : Z) (st st' : State) :
  fuse_cache_reorder E kv gather_dim st = (Ok tt, st') →
  model_has_name (ov_model st') "beam_idx" = true ∧
  fuse_cache_reorder E kv' gather_dim' st' = (Raise AssertionError, st').
Proof.
  intros H.
  destruct (fuse_cache_reorder_beam_input E _ _ _ _ H)
    as (_ & _ & _ & d & _ & _ & _ & _ & _ & _ & _ & _ & _ & Hinputs & Hbeam & _).
  assert (model_has_name (ov_model st') "beam_idx" = true) as Hname.
  { eapply (model_has_name_true _ _ (length (nodes (ov_model st)), 0%nat)).
    - rewrite Hinputs, !elem_of_app. left. right. by left.
    - unfold get_names. rewrite Hbeam. by left. }
  split; [done|].
  unfold fuse_cache_reorder, bind, get_model. by rewrite Hname.
Qed.

End FuserClaims.

Lemma fuse_cache_reorder_gathers_witness :
  wf_inputs demo_model ∧
  Forall2 (λ name p, model_input demo_model name = Some p) ["past_key"] [(1, 0)%nat] ∧
  NoDup [(1, 0)%nat] ∧
  fuse_cache_reorder demo_engine ["past_key"] 0 demo_state = (Ok tt, demo_fused_state) ∧
  source_output demo_model (2, 1)%nat = Some (1, 0)%nat ∧
  ∃ g c gn cn,
    source_output (ov_model demo_fused_state) (2, 1)%nat = Some (g, 0%nat) ∧
    nodes (ov_model demo_fused_state) !! g = Some gn ∧
    is_gather (1, 0)%nat (5, 0)%nat (c, 0%nat) gn ∧
    nodes (ov_model demo_fused_state) !! c = Some cn ∧ is_axis_constant 0 cn.
Proof.
  assert (wf_inputs demo_model) as Hwf by (repeat constructor; by eexists).
  assert (Forall2 (λ name p, model_input demo_model name = Some p) ["past_key"] [(1, 0)%nat])
    as Hports by (repeat constructor).
  assert (NoDup [(1, 0)%nat]) as Hnd by apply NoDup_singleton.
  assert (fuse_cache_reorder demo_engine ["past_key"] 0 demo_state = (Ok tt, demo_fused_state))
    as Hrun by (vm_compute; reflexivity).
  split_and!; [done..|].
  apply (fuse_cache_reorder_gathers demo_engine ["past_key"] 0 demo_state demo_fused_state
           [(1, 0)%nat] Hwf Hports Hnd Hrun); [by left|reflexivity].
Defined.

(** C1 as stated fails when two key-value names resolve to the same port:
    the second turn of the loop finds the first gather as the only consumer
    of the port and puts a second gather in front of it, so the consumer reads
    a gather whose data argument is another gather, not the port. *)
Lemma fuse_cache_reorder_duplicate_names_counterexample :
  let kv := ["past_key"; "past_key"] in
  let st' := (fuse_cache_reorder demo_engine kv 0 demo_state).2 in
  model_has_input demo_model "input_ids" = true ∧
  model_has_name demo_model "beam_idx" = false ∧
  Forall (λ name, model_input demo_model name = Some (1, 0)%nat) kv ∧
  fuse_cache_reorder demo_engine kv 0 demo_state = (Ok tt, st') ∧
  source_output demo_model (2, 1)%nat = Some (1, 0)%nat ∧
  ¬ ∃ g c gn cn,
      source_output (ov_model st') (2, 1)%nat = Some (g, 0%nat) ∧
      nodes (ov_model st') !! g = Some gn ∧
      is_gather (1, 0)%nat (5, 0)%nat (c, 0%nat) gn ∧
      nodes (ov_model st') !! c = Some cn ∧ is_axis_constant 0 cn.
Proof.
  intros kv st'. split_and!; [reflexivity|reflexivity|by repeat constructor| |reflexivity|].
  - vm_compute. reflexivity.
  - intros (g & c & gn & cn & Hsrc & Hg & [_ Hargs] & _).
    vm_compute in Hsrc. injection Hsrc as <-.
    vm_compute in Hg. injection Hg as <-.
    vm_compute in Hargs. discriminate Hargs.
Qed.

Lemma fuse_cache_reorder_twice_fails_witness :
  fuse_cache_reorder demo_engine ["past_key"] 0 demo_state = (Ok tt, demo_fused_state) ∧
  model_has_name (ov_model demo_fused_state) "beam_idx" = true ∧
  fuse_cache_reorder demo_engine ["past_key"] 0 demo_fused_state =
    (Raise AssertionError, demo_fused_state).
Proof.
  assert (fuse_cache_reorder demo_engine ["past_key"] 0 demo_state = (Ok tt, demo_fused_state))
    as Hrun by (vm_compute; reflexivity).
  split; [done|].
  apply (fuse_cache_reorder_twice_fails demo_engine ["past_key"] ["past_key"] 0 0
           demo_state demo_fused_state Hrun).
Defined.

(** ** State initializers *)

Lemma has_node_keeps ns ns' i ty args attrs :
  keeps_ops ns ns' → ty ≠ "ReadValue" →
  has_node ns i ty args attrs → has_node ns' i ty args attrs.
Proof.
  intros Hk Hty (n & Hn & <- & <- & <-).
  destruct (Hk i n Hn Hty) as (n' & Hn' & ? & ? & ?). by exists n'.
Qed.

Lemma batch_extent_keeps ns ns' input_ids batch :
  keeps_ops ns ns' → batch_extent ns input_ids batch → batch_extent ns' input_ids batch.
Proof.
  intros Hk (so & ix & ax & H1 & H2 & H3 & H4). exists so, ix, ax.
  split_and!; (eapply has_node_keeps; [exact Hk|done|done]).
Qed.

Lemma zero_initializer_keeps ns ns' batch bd out init :
  keeps_ops ns ns' → zero_initializer ns batch bd out init →
  zero_initializer ns' batch bd out init.
Proof.
  intros Hk (zero & shape & ids & H1 & H2 & H3 & Hlen & Hdims). exists zero, shape, ids.
  split_and!; [by eapply has_node_keeps..|done|].
  intros k dim Hdim. specialize (Hdims k dim Hdim). case_decide; [done|].
  destruct Hdims as (c & Hc & Hcn). exists c. split; [done|]. by eapply has_node_keeps.
Qed.

Lemma keeps_ops_refl ns : keeps_ops ns ns.
Proof. intros i n Hn _. eauto. Qed.

Lemma keeps_ops_trans ns1 ns2 ns3 : keeps_ops ns1 ns2 → keeps_ops ns2 ns3 → keeps_ops ns1 ns3.
Proof.
  intros H12 H23 i n Hn Hty. destruct (H12 i n Hn Hty) as (n2 & Hn2 & Ht & Ha & Hat).
  destruct (H23 i n2 Hn2) as (n3 & Hn3 & Ht3 & Ha3 & Hat3); [congruence|].
  exists n3. split_and!; congruence.
Qed.

Lemma keeps_ops_revalidated m m' : revalidated m m' → keeps_ops (nodes m) (nodes m').
Proof.
  intros Hrv i n Hn _. destruct (revalidated_lookup _ _ _ _ Hrv Hn) as (n' & Hn' & Hr).
  exists n'. by destruct Hr.
Qed.

Lemma keeps_ops_app ns extra : keeps_ops ns (ns ++ extra).
Proof. intros i n Hn _. exists n. split; [by apply lookup_app_l_Some|done]. Qed.

Lemma set_nodes_app_nil m : set_nodes (λ ns, ns ++ []) m = m.
Proof. destruct m. unfold set_nodes. simpl. by rewrite app_nil_r. Qed.

Lemma set_nodes_compose f g m : set_nodes f (set_nodes g m) = set_nodes (f ∘ g) m.
Proof. reflexivity. Qed.

Lemma lookup_app_3 {A} (l : list A) (x y z : A) :
  (l ++ [x; y; z]) !! length l = Some x ∧
  (l ++ [x; y; z]) !! S (length l) = Some y ∧
  (l ++ [x; y; z]) !! S (S (length l)) = Some z.
Proof.
  split_and!; rewrite lookup_app_r by lia.
  - by rewrite Nat.sub_diag.
  - by replace (S (length l) - length l)%nat with 1%nat by lia.
  - by replace (S (S (length l)) - length l)%nat with 2%nat by lia.
Qed.

Section Initializer.

Variable E : Engine.

Lemma dims_to_nodes_Ok dims st ids st' :
  list_comprehension dims (dim_to_node E) st = (Ok ids, st') →
  ∃ extra,
    st' = mkState (set_nodes (λ ns, ns ++ extra) (ov_model st)) (not_kv_inputs st) (stdout st) ∧
    Forall (λ n, type_name n = "Constant") extra ∧
    Forall2 (dim_node_spec (nodes (ov_model st) ++ extra)) dims ids.
Proof.
  revert st ids. induction dims as [|d dims IH]; intros st ids H; simpl in H.
  - injection H as <- <-. exists []. split_and!; [|done|done].
    rewrite set_nodes_app_nil. by destruct st.
  - ok_bind H y st1 Hy. ok_bind H ys st2 Hys. injection H as <- <-.
    apply IH in Hys as (extra & -> & Hconst & Hids). destruct d as [v|n].
    + apply new_node_Ok in Hy as (outs & _ & -> & ->). cbn [ov_model not_kv_inputs stdout] in *.
      set (cn := mkNode "Constant" [] (fresh_tensor <$> outs) (AConstant i64 [1%nat] [v])) in *.
      exists (cn :: extra). unfold set_nodes in *. cbn [nodes parameters results sinks] in *.
      rewrite <- app_assoc in *. simpl in *. split_and!; [done|by constructor|].
      constructor; [|done]. exists cn. split; [|done].
      by rewrite list_lookup_middle.
    + injection Hy as <- <-. exists extra. split_and!; [done..|]. by constructor.
Qed.

Lemma initialize_state_Ok batch bd op st st' :
  initialize_state E batch bd op st = (Ok tt, st') →
  ∃ node,
    nodes (ov_model st) !! op = Some node ∧
    if decide (type_name node = "ReadValue") then
      ∃ out extra init k,
        outputs node !! 0%nat = Some out ∧
        st' = mkState (set_nodes (λ ns, alter (set_arguments [(init, 0%nat)]) op (ns ++ extra))
                                 (ov_model st))
                      (not_kv_inputs st) (stdout st) ∧
        Forall (λ n, type_name n ≠ "ReadValue") extra ∧
        py_index (length (partial_shape out)) bd = Some k ∧
        zero_initializer (nodes (ov_model st) ++ extra) batch k out init
    else st' = st.
Proof.
  unfold initialize_state. intros H.
  ok_bind H m st1 Hm. ok_prim Hm.
  ok_bind H node st1 Hnode. ok_prim Hnode. exists node. split; [done|].
  case_decide as Hty; [|by injection H as <-].
  ok_bind H out st1 Hout. ok_prim Hout. exists out.
  ok_bind H dims st1 Hdims. rewrite length_fmap in Hdims.
  destruct (py_index (length (partial_shape out)) bd) as [k|] eqn:Hbd; [|done].
  injection Hdims as <- <-.
  ok_bind H ids st1 Hids. apply dims_to_nodes_Ok in Hids as (extra & -> & Hconst & Hids).
  ok_bind H shape st1 Hshape. apply new_node_Ok in Hshape as (outs1 & _ & -> & ->).
  ok_bind H zero st1 Hzero. apply new_node_Ok in Hzero as (outs2 & _ & -> & ->).
  ok_bind H bc st1 Hbc. apply new_node_Ok in Hbc as (outs3 & _ & -> & ->).
  injection H as <-. cbn [ov_model not_kv_inputs stdout nodes set_nodes] in *.
  set (base := nodes (ov_model st) ++ extra) in *.
  assert (length ((base ++ [mkNode "Concat" ((λ d, (d, 0%nat)) <$> ids)
                                   (fresh_tensor <$> outs1) (AConcat 0)]) ++
                  [mkNode "Constant" [] (fresh_tensor <$> outs2)
                          (AConstant (element_type out) [] [0])])
          = S (S (length base))) as -> by (rewrite !length_app; simpl; lia).
  assert (length (base ++ [mkNode "Concat" ((λ d, (d, 0%nat)) <$> ids)
                                  (fresh_tensor <$> outs1) (AConcat 0)])
          = S (length base)) as -> by (rewrite !length_app; simpl; lia).
  set (sn := mkNode "Concat" _ _ _). set (zn := mkNode "Constant" _ _ _).
  set (bn := mkNode "Broadcast" _ _ _).
  destruct (lookup_app_3 base sn zn bn) as (Hs & Hz & Hb).
  exists (extra ++ [sn; zn; bn]), (S (S (length base))), k. rewrite !app_assoc. fold base.
  split_and!.
  - done.
  - f_equal. unfold set_nodes. cbn [nodes parameters results sinks]. f_equal.
    subst base. by rewrite <- !app_assoc.
  - apply Forall_app. split.
    + eapply Forall_impl; [exact Hconst|]. intros n ->. done.
    + by repeat constructor.
  - done.
  - apply py_index_lt in Hbd.
    exists (S (length base)), (length base), ids. split_and!.
    + by exists bn.
    + by exists zn.
    + by exists sn.
    + apply Forall2_length in Hids. rewrite length_insert, length_fmap in Hids. done.
    + intros k' dim Hdim.
      assert (((λ dim, DimInt (min_length dim)) <$> partial_shape out) !! k'
              = Some (DimInt (min_length dim))) as Hk by (by rewrite list_lookup_fmap, Hdim).
      case_decide as Hkbd.
      * subst k'.
        destruct (Forall2_lookup_l _ _ _ k (DimNode batch) Hids) as (id & Hid & Hspec).
        { apply list_lookup_insert_eq. by rewrite length_fmap. }
        simpl in Hspec. by subst id.
      * destruct (Forall2_lookup_l _ _ _ k' (DimInt (min_length dim)) Hids)
          as (id & Hid & Hspec).
        { by rewrite list_lookup_insert_ne. }
        exists id. split; [done|]. simpl in Hspec.
        eapply has_node_keeps; [apply keeps_ops_app|done|exact Hspec].
Qed.

Lemma initialize_loop_Ok batch bd ops st st' :
  NoDup ops →
  for_each ops (initialize_state E batch bd) st = (Ok tt, st') →
  not_kv_inputs st' = not_kv_inputs st ∧ stdout st' = stdout st ∧
  parameters (ov_model st') = parameters (ov_model st) ∧
  results (ov_model st') = results (ov_model st) ∧
  sinks (ov_model st') = sinks (ov_model st) ∧
  initialized_from batch bd ops (nodes (ov_model st)) (nodes (ov_model st')).
Proof.
  intros Hnd. revert st. induction Hnd as [|op ops Hop Hnd IH]; intros st H; simpl in H.
  - injection H as <-. split_and!; [done..|]. split; try by eauto.
    + intros op n Hin. by apply elem_of_nil in Hin.
    + intros i n' Hn' Hle. apply lookup_lt_Some in Hn'. lia.
  - ok_bind H u st1 Hstep. destruct u.
    apply initialize_state_Ok in Hstep as (node & Hnode & Hstep).
    apply IH in H as (Hnkv & Hout & Hpar & Hres & Hsinks & [F1 F2 F3 F4 F5]).
    case_decide as Hty.
    + destruct Hstep as (out & extra & init & k & Houtp & -> & Hextra & Hk & Hinit).
      cbn [ov_model not_kv_inputs stdout nodes set_nodes parameters results sinks] in *.
      set (ns := nodes (ov_model st)) in *.
      set (ns1 := alter (set_arguments [(init, 0%nat)]) op (ns ++ extra)) in *.
      assert (∀ i n, (ns ++ extra) !! i = Some n → i ≠ op → ns1 !! i = Some n) as Ha.
      { intros i n Hn Hne. subst ns1. by rewrite list_lookup_alter_ne. }
      assert (ns1 !! op = Some (set_arguments [(init, 0%nat)] node)) as Hb.
      { subst ns1. by rewrite list_lookup_alter_eq, (lookup_app_l_Some _ _ _ _ Hnode). }
      assert (∀ i n, ns !! i = Some n → type_name n ≠ "ReadValue" → i ≠ op) as Hne.
      { intros i n Hn Hnty ->. congruence. }
      split_and!; [done..|]. split.
      * intros i n Hn Hnty. apply F1; [|done]. apply Ha; [by apply lookup_app_l_Some|].
        by eapply Hne.
      * intros i n Hn Hni. apply not_elem_of_cons in Hni as [Hi Hni].
        apply F2; [|done]. apply Ha; [by apply lookup_app_l_Some|done].
      * intros i n Hn. destruct (decide (i = op)) as [->|Hi].
        -- rewrite Hnode in Hn. injection Hn as <-. apply (F3 _ _ Hb).
        -- apply F3. apply Ha; [by apply lookup_app_l_Some|done].
      * intros op' n [->|Hin]%elem_of_cons Hn Hnty.
        -- rewrite Hnode in Hn. injection Hn as <-.
           exists out, init, (set_arguments [(init, 0%nat)] node), k.
           split_and!; [done|by apply F2|done|done|].
           eapply zero_initializer_keeps; [|exact Hinit].
           intros i n Hn Hnty'. exists n. split; [|done]. apply F1; [|done].
           apply Ha; [done|]. intros ->.
           rewrite (lookup_app_l_Some _ _ _ _ Hnode) in Hn. congruence.
        -- apply F4; [done| |done]. apply Ha; [by apply lookup_app_l_Some|].
           intros ->. done.
      * intros i n' Hn' Hle.
        destruct (decide (length (ns ++ extra) ≤ i)%nat) as [Hge|Hlt].
        { apply (F5 i n' Hn'). subst ns1. by rewrite length_alter. }
        assert (is_Some (extra !! (i - length ns)%nat)) as [n Hn].
        { apply lookup_lt_is_Some. rewrite length_app in Hlt. lia. }
        assert (type_name n ≠ "ReadValue") as Hnty.
        { rewrite Forall_forall in Hextra. apply Hextra. by eapply list_elem_of_lookup_2. }
        assert (nodes (ov_model st') !! i = Some n) as Hn''.
        { apply F1; [|done]. apply Ha.
          - by rewrite lookup_app_r.
          - apply lookup_lt_Some in Hnode. fold ns in Hnode. lia. }
        congruence.
    + subst st1. split_and!; [done..|]. split; [done| |done| |done].
      * intros i n Hn Hni. apply not_elem_of_cons in Hni as [Hi Hni]. by apply F2.
      * intros op' n [->|Hin]%elem_of_cons Hn Hnty; [congruence|by apply F4].
Qed.

Lemma initialized_from_keeps batch bd ops ns ns' :
  initialized_from batch bd ops ns ns' → keeps_ops ns ns'.
Proof. intros [F1 _ _ _ _] i n Hn Hty. exists n. split; [by apply F1|done]. Qed.

Lemma build_state_initializer_Ok bd st st' :
  build_state_initializer E bd st = (Ok tt, st') →
  let m := ov_model st in
  let m' := ov_model st' in
  ∃ input_ids batch,
    model_input m "input_ids" = Some input_ids ∧
    batch_extent (nodes m') input_ids batch ∧
    (∀ i n, nodes m !! i = Some n → type_name n = "ReadValue" →
       ∃ out init n' k,
         outputs n !! 0%nat = Some out ∧ nodes m' !! i = Some n' ∧
         type_name n' = "ReadValue" ∧ arguments n' = [(init, 0%nat)] ∧
         py_index (length (partial_shape out)) bd = Some k ∧
         zero_initializer (nodes m') batch k out init) ∧
    (∀ i n', nodes m' !! i = Some n' → type_name n' = "ReadValue" →
       ∃ n, nodes m !! i = Some n ∧ type_name n = "ReadValue") ∧
    keeps_ops (nodes m) (nodes m') ∧
    parameters m' = parameters m ∧ results m' = results m ∧ sinks m' = sinks m ∧
    not_kv_inputs st' = not_kv_inputs st ∧ stdout st' = stdout st.
Proof.
  intros H m m'. subst m m'. unfold build_state_initializer in H.
  ok_bind H input_ids st1 Hin. apply input_by_name_Ok in Hin as [Hin ->].
  ok_bind H so st1 Hso. apply new_node_Ok in Hso as (outs1 & _ & -> & ->).
  ok_bind H ix st1 Hix. apply new_node_Ok in Hix as (outs2 & _ & -> & ->).
  ok_bind H ax st1 Hax. apply new_node_Ok in Hax as (outs3 & _ & -> & ->).
  ok_bind H batch st1 Hbatch. apply new_node_Ok in Hbatch as (outs4 & _ & -> & ->).
  ok_bind H m st1 Hm. ok_prim Hm.
  ok_bind H u st2 Hloop. destruct u. unfold get_ops in Hloop.
  apply (initialize_loop_Ok _ _ _ _ _ (NoDup_seq _ _)) in Hloop
    as (Hnkv & Hout & Hpar & Hres & Hsinks & Hinit).
  apply validate_and_infer_Ok in H as (Hrv & Hnkv' & Hout').
  cbn [ov_model not_kv_inputs stdout nodes set_nodes parameters results sinks] in *.
  set (ns := nodes (ov_model st)) in *.
  rewrite !length_app in Hinit. cbn [length] in Hinit. rewrite !Nat.add_1_r in Hinit.
  rewrite <- !app_assoc in Hinit. cbn [app] in Hinit.
  set (son := mkNode "ShapeOf" _ _ _) in *. set (ixn := mkNode "Constant" _ _ _) in *.
  set (axn := mkNode "Constant" [] (fresh_tensor <$> outs3) _) in *.
  set (bn := mkNode "Gather" _ _ _) in *.
  pose proof (initialized_from_keeps _ _ _ _ _ Hinit) as Hk2.
  pose proof (keeps_ops_revalidated _ _ Hrv) as Hk3.
  pose proof (rv_parameters _ _ Hrv) as Hpar'.
  pose proof (rv_results _ _ Hrv) as Hres'.
  pose proof (rv_sinks _ _ Hrv) as Hsinks'.
  pose proof (keeps_ops_trans _ _ _ Hk2 Hk3) as Hk.
  assert (∀ i n, ns !! i = Some n → (ns ++ [son; ixn; axn; bn]) !! i = Some n) as Hold
    by (intros; by apply lookup_app_l_Some).
  exists input_ids, (S (S (S (length ns)))). split_and!; [done| | | | |congruence..].
  - eapply batch_extent_keeps; [exact Hk|].
    exists (length ns), (S (length ns)), (S (S (length ns))).
    split_and!; [exists bn|exists son|exists ixn|exists axn]; (split; [|done]);
      rewrite lookup_app_r by lia.
    + by replace (S (S (S (length ns))) - length ns)%nat with 3%nat by lia.
    + by rewrite Nat.sub_diag.
    + by replace (S (length ns) - length ns)%nat with 1%nat by lia.
    + by replace (S (S (length ns)) - length ns)%nat with 2%nat by lia.
  - intros i n Hn Hty.
    destruct (init_read_value _ _ _ _ _ Hinit i n)
      as (out & init & n2 & k & Ho & Hn2 & Ha & Hpos & Hz); [|by apply Hold|done|].
    { apply elem_of_seq. apply lookup_lt_Some in Hn. lia. }
    destruct (init_structure _ _ _ _ _ Hinit i n (Hold _ _ Hn)) as (n2' & Hn2' & Ht2 & _).
    rewrite Hn2 in Hn2'. injection Hn2' as <-.
    destruct (revalidated_lookup _ _ _ _ Hrv Hn2) as (n' & Hn' & Hr).
    exists out, init, n', k. split_and!; [done|done| | |done|].
    + by rewrite (rv_type_name _ _ Hr), Ht2.
    + by rewrite (rv_arguments _ _ Hr).
    + eapply zero_initializer_keeps; [exact Hk3|exact Hz].
  - intros i n' Hn' Hty.
    destruct (revalidated_lookup_r _ _ _ _ Hrv Hn') as (n2 & Hn2 & Hr).
    rewrite (rv_type_name _ _ Hr) in Hty.
    destruct (decide (length (ns ++ [son; ixn; axn; bn]) ≤ i)%nat) as [Hge|Hlt].
    { by destruct (init_new _ _ _ _ _ Hinit i n2 Hn2 Hge). }
    assert (is_Some ((ns ++ [son; ixn; axn; bn]) !! i)) as [n Hn]
      by (apply lookup_lt_is_Some; lia).
    destruct (init_structure _ _ _ _ _ Hinit i n Hn) as (n2' & Hn2' & Ht2 & _).
    rewrite Hn2 in Hn2'. injection Hn2' as <-.
    apply lookup_app_Some in Hn as [Hn|[Hle Hn]]; [exists n; split; [done|congruence]|].
    exfalso. rewrite Ht2 in Hty.
    destruct (i - length ns)%nat as [|[|[|[|k]]]]; simpl in Hn; simplify_eq; done.
  - intros i n Hn Hty. apply Hk; [by apply Hold|done].
Qed.

End Initializer.

(** What an argument of an old node reads after the loop, whether or not
    names repeat: its old source when that is not a key-value port, and
    otherwise a gather by [beam_idx] along a constant that holds [gd]. *)
Lemma reordered_gather_axis b gd kv ports m m' :
  reordered b gd kv ports m m' →
  (∀ p, p ∈ ports → (p.1 < b)%nat) → (b < length (nodes m))%nat →
  ∀ i n, nodes m !! i = Some n →
    ∃ n', nodes m' !! i = Some n' ∧
      Forall2 (λ a a', ((a ∉ ports) ∧ a' = a) ∨
                 (a ∈ ports ∧ ∃ g c gn cn data,
                    a' = (g, 0%nat) ∧ nodes m' !! g = Some gn ∧
                    is_gather data (b, 0%nat) (c, 0%nat) gn ∧
                    nodes m' !! c = Some cn ∧ is_axis_constant gd cn))
              (arguments n) (arguments n').
Proof.
  induction 1 as [|name names p ps m cn gn m' Hp Hcn Hgn Hr IH]; intros Hlt Hb i n Hn.
  - exists n. split; [done|]. apply Forall_Forall2_diag, Forall_forall.
    intros a _. left. split; [apply not_elem_of_nil|done].
  - assert (∀ q, q ∈ ps → (q.1 < b)%nat) as Hlt' by (intros q Hq; apply Hlt; by right).
    assert (b < length (nodes (reorder_port p cn gn m)))%nat as Hb'
      by (rewrite reorder_port_length; lia).
    specialize (IH Hlt' Hb').
    assert (∀ a a' : Output, (b ≤ a.1)%nat →
              ((a ∉ ps) ∧ a' = a) ∨
              (a ∈ ps ∧ ∃ g c gn0 cn0 data,
                 a' = (g, 0%nat) ∧ nodes m' !! g = Some gn0 ∧
                 is_gather data (b, 0%nat) (c, 0%nat) gn0 ∧
                 nodes m' !! c = Some cn0 ∧ is_axis_constant gd cn0) →
              a' = a) as Hfix.
    { intros a a' Hge [[_ ->]|[Hin _]]; [done|]. apply Hlt' in Hin. lia. }
    destruct (IH _ _ (reorder_port_lookup_constant p cn gn m)) as (cn' & Hcn' & Hca).
    destruct (IH _ _ (reorder_port_lookup_gather p cn gn m)) as (gn' & Hgn' & Hga).
    destruct (reordered_structure _ _ _ _ _ _ Hr _ _ (reorder_port_lookup_constant p cn gn m))
      as (cn'' & Hcn'' & Hct & _ & Hcattr).
    rewrite Hcn' in Hcn''. injection Hcn'' as <-.
    destruct (reordered_structure _ _ _ _ _ _ Hr _ _ (reorder_port_lookup_gather p cn gn m))
      as (gn'' & Hgn'' & Hgt & _).
    rewrite Hgn' in Hgn''. injection Hgn'' as <-.
    destruct Hcn as (Hcnt & Hcna & Hcnat). destruct Hgn as (Hgnt & Hgna).
    rewrite Hcna in Hca. apply Forall2_nil_inv_l in Hca.
    rewrite Hgna in Hga.
    apply Forall2_cons_inv_l in Hga as (a1 & l1 & _ & Hga & Hargs).
    apply Forall2_cons_inv_l in Hga as (a2 & l2 & H2 & Hga & ->).
    apply Forall2_cons_inv_l in Hga as (a3 & l3 & H3 & Hga & ->).
    apply Forall2_nil_inv_l in Hga as ->.
    apply Hfix in H2; [|simpl; lia]. apply Hfix in H3; [|simpl; lia]. subst a2 a3.
    destruct (IH _ _ (reorder_port_lookup_old p cn gn m i n Hn)) as (n' & Hn' & Ha).
    exists n'. split; [done|]. unfold subst_node in Ha. cbn [arguments] in Ha.
    rewrite Forall2_fmap_l in Ha. eapply Forall2_impl; [exact Ha|].
    intros a a'. unfold compose, subst_output.
    destruct (decide (a = p)) as [->|Hne].
    + intros ->%Hfix; [|simpl; lia]. right. split; [by left|].
      exists (S (length (nodes m))), (length (nodes m)), gn', cn', a1.
      split_and!; [done|done| |done|].
      * split; [by rewrite Hgt|done].
      * split_and!; [by rewrite Hct|done|by rewrite Hcattr].
    + intros [[Hnin ->]|[Hin Hex]].
      * left. split; [|done]. intros [?|?]%elem_of_cons; done.
      * right. split; [by right|done].
Qed.

Section InitializerClaims.

Variable E : Engine.

(** C2: let [st2] be the state in which the engine's make-stateful
    transformation returns.  With a pinned batch [make_stateful] ends there;
    without one it continues with [build_state_initializer] on [st2].  When
    that succeeds, the graph has a node [batch] computing the live extent of
    axis 0 of [input_ids], and every ReadValue node of the result is a
    ReadValue node of [st2] whose only argument is now a zero-valued
    broadcast of its output element type whose target shape has [batch] at
    the position the Python index [batch_dim] denotes and the minimum length
    of its output shape elsewhere. *)
Theorem make_stateful_state_initializer
    (kv_in kv_out : list string) (batch_dim : Z) (heads : N) (nb : option N)
    (st st1 st2 : State) (input_output_map : gmap string string) :
  make_stateful_prepare E kv_in kv_out batch_dim heads nb st = (Ok input_output_map, st1) →
  make_stateful_transformation E input_output_map st1 = (Ok tt, st2) →
  (∀ b, nb = Some b → make_stateful E kv_in kv_out batch_dim heads nb st = (Ok tt, st2)) ∧
  (nb = None →
   make_stateful E kv_in kv_out batch_dim heads nb st =
     build_state_initializer E batch_dim st2 ∧
   ∀ st', build_state_initializer E batch_dim st2 = (Ok tt, st') →
     ∃ input_ids batch,
       model_input (ov_model st2) "input_ids" = Some input_ids ∧
       batch_extent (nodes (ov_model st')) input_ids batch ∧
       ∀ i n', nodes (ov_model st') !! i = Some n' → type_name n' = "ReadValue" →
         ∃ n out init k,
           nodes (ov_model st2) !! i = Some n ∧ type_name n = "ReadValue" ∧
           outputs n !! 0%nat = Some out ∧
           arguments n' = [(init, 0%nat)] ∧
           py_index (length (partial_shape out)) batch_dim = Some k ∧
           zero_initializer (nodes (ov_model st')) batch k out init).
Proof.
  intros Hprep Htrans.
  assert (make_stateful E kv_in kv_out batch_dim heads nb st =
          match nb with
          | None => build_state_initializer E batch_dim st2
          | Some _ => (Ok tt, st2)
          end) as Hrun.
  { unfold make_stateful. rewrite (bind_Ok_l _ _ _ _ _ Hprep).
    rewrite (bind_Ok_l _ _ _ _ _ Htrans). by destruct nb. }
  split.
  - intros b ->. exact Hrun.
  - intros ->. split; [exact Hrun|]. intros st' Hinit.
    apply build_state_initializer_Ok in Hinit
      as (input_ids & batch & Hin & Hbatch & Hrv & Hrv' & _).
    exists input_ids, batch. split_and!; [done..|].
    intros i n' Hn' Hty. destruct (Hrv' i n' Hn' Hty) as (n & Hn & Hnty).
    destruct (Hrv i n Hn Hnty) as (out & init & n'' & k & Ho & Hn'' & _ & Ha & Hk & Hz).
    rewrite Hn' in Hn''. injection Hn'' as <-. by exists n, out, init, k.
Qed.

(** C10: for every integer value [dim] of the [gather_dim] / [batch_dim]
    argument.  On a graph without an input named [input_ids] both
    [fuse_cache_reorder] and [build_state_initializer] raise and leave the
    state alone.  When [fuse_cache_reorder] succeeds, the extent of the new
    [beam_idx] input is dimension 0 of the shape of [input_ids], whatever
    [dim] is, and [dim] is the gather axis: every input slot that read the
    port of a key-value name now reads a Gather by [beam_idx] whose axis
    argument is a constant holding [dim].  When [build_state_initializer]
    succeeds, the extent it puts into the state shapes is
    [gather(shape_of(input_ids), [0], 0)], whatever [dim] is, and [dim] is
    the position where it is put: the one the Python index [dim] denotes in
    the shape of the state. *)
Theorem batch_extent_read_from_input_ids_axis_0
    (kv : list string) (dim : Z) (st : State) :
  (model_has_input (ov_model st) "input_ids" = false →
   (∃ e, fuse_cache_reorder E kv dim st = (Raise e, st)) ∧
   (∃ e, build_state_initializer E dim st = (Raise e, st))) ∧
  (∀ st', fuse_cache_reorder E kv dim st = (Ok tt, st') →
     (∃ input_ids tensor d,
        model_input (ov_model st) "input_ids" = Some input_ids ∧
        get_tensor (ov_model st) input_ids = Some tensor ∧
        partial_shape tensor !! 0%nat = Some d ∧
        get_tensor (ov_model st') (length (nodes (ov_model st)), 0%nat) =
          Some (mkTensor ["beam_idx"] [d] i32)) ∧
     (∀ ports, wf_inputs (ov_model st) →
        Forall2 (λ name p, model_input (ov_model st) name = Some p) kv ports →
        ∀ p consumer, p ∈ ports → source_output (ov_model st) consumer = Some p →
          ∃ g c gn cn data,
            source_output (ov_model st') consumer = Some (g, 0%nat) ∧
            nodes (ov_model st') !! g = Some gn ∧
            is_gather data (length (nodes (ov_model st)), 0%nat) (c, 0%nat) gn ∧
            nodes (ov_model st') !! c = Some cn ∧ is_axis_constant dim cn)) ∧
  (∀ st', build_state_initializer E dim st = (Ok tt, st') →
     ∃ input_ids batch,
       model_input (ov_model st) "input_ids" = Some input_ids ∧
       batch_extent (nodes (ov_model st')) input_ids batch ∧
       ∀ i n', nodes (ov_model st') !! i = Some n' → type_name n' = "ReadValue" →
         ∃ n out init k,
           nodes (ov_model st) !! i = Some n ∧ outputs n !! 0%nat = Some out ∧
           arguments n' = [(init, 0%nat)] ∧
           py_index (length (partial_shape out)) dim = Some k ∧
           zero_initializer (nodes (ov_model st')) batch k out init).
Proof.
  split_and!.
  - intros Hno%model_input_None. split.
    + unfold fuse_cache_reorder, bind, get_model.
      destruct (negb (model_has_name (ov_model st) "beam_idx")); simpl; [|by eauto].
      rewrite (input_by_name_None _ _ Hno). by eauto.
    + unfold build_state_initializer. rewrite (bind_Raise_l _ _ _ _ _ (input_by_name_None _ _ Hno)).
      by eauto.
  - intros st' H.
    destruct (fuse_cache_reorder_beam_input E _ _ _ _ H)
      as (_ & input_ids & tensor & d & m1 & m2 & ports0 & Hin & Ht & Hd & Hm1 & Hr & Hrv
          & _ & Hbeam & _).
    split; [by exists input_ids, tensor, d|].
    intros ports Hwf Hports p [i k] Hp Hsrc.
    pose proof (wf_inputs_in_range _ Hwf) as Hrange.
    assert (ports0 = ports) as ->.
    { eapply (reordered_ports (ov_model st) [length (nodes (ov_model st))]);
        [done| | |exact Hr|done].
      - by subst m1.
      - intros j Hj. subst m1. simpl. by rewrite lookup_app_l. }
    assert (∀ q, q ∈ ports → (q.1 < length (nodes (ov_model st)))%nat) as Hlt.
    { intros q Hq. apply list_elem_of_lookup in Hq as [j Hj].
      destruct (Forall2_lookup_r _ _ _ _ _ Hports Hj) as (name & _ & Hname).
      apply model_input_Some in Hname as [_ Hname]. by eapply get_names_elem_lt. }
    unfold source_output in Hsrc. cbn [fst snd] in Hsrc.
    destruct (nodes (ov_model st) !! i) as [n|] eqn:Hn; [|done]. simpl in Hsrc.
    assert (nodes m1 !! i = Some n) as Hn1.
    { subst m1. simpl. by apply lookup_app_l_Some. }
    assert (length (nodes (ov_model st)) < length (nodes m1))%nat as Hb.
    { subst m1. cbn [nodes]. rewrite length_app. simpl. lia. }
    destruct (reordered_gather_axis _ _ _ _ _ _ Hr Hlt Hb i n Hn1) as (n2 & Hn2 & Hedges).
    destruct (Forall2_lookup_l _ _ _ _ _ Hedges Hsrc) as (a' & Ha' & [[Hnin _]|[_ Hex]]);
      [done|].
    destruct Hex as (g & c & gn & cn & data & -> & Hg & [Hgt Hga] & Hc & (Hct & Hca & Hcattr)).
    destruct (revalidated_lookup _ _ _ _ Hrv Hn2) as (n' & Hn' & Hrn).
    destruct (revalidated_lookup _ _ _ _ Hrv Hg) as (gn' & Hgn' & Hrg).
    destruct (revalidated_lookup _ _ _ _ Hrv Hc) as (cn' & Hcn' & Hrc).
    exists g, c, gn', cn', data. split_and!; [|done| |done|].
    + unfold source_output. cbn [fst snd]. rewrite Hn'. simpl.
      by rewrite (rv_arguments _ _ Hrn).
    + split; [by rewrite (rv_type_name _ _ Hrg)|by rewrite (rv_arguments _ _ Hrg)].
    + split_and!; [by rewrite (rv_type_name _ _ Hrc)|by rewrite (rv_arguments _ _ Hrc)|
                   by rewrite (rv_attributes _ _ Hrc)].
  - intros st' Hinit.
    apply build_state_initializer_Ok in Hinit
      as (input_ids & batch & Hin & Hbatch & Hrv & Hrv' & _).
    exists input_ids, batch. split_and!; [done..|].
    intros i n' Hn' Hty. destruct (Hrv' i n' Hn' Hty) as (n & Hn & Hnty).
    destruct (Hrv i n Hn Hnty) as (out & init & n'' & k & Ho & Hn'' & _ & Ha & Hk & Hz).
    rewrite Hn' in Hn''. injection Hn'' as <-. by exists n, out, init, k.
Qed.

End InitializerClaims.

Lemma make_stateful_state_initializer_witness :
  make_stateful_prepare demo_engine ["past_key"] ["present_key"] 0 1 None demo_state =
    (Ok demo_map, demo_state) ∧
  make_stateful_transformation demo_engine demo_map demo_state = (Ok tt, demo_transformed_state) ∧
  make_stateful demo_engine ["past_key"] ["present_key"] 0 1 None demo_state =
    build_state_initializer demo_engine 0 demo_transformed_state ∧
  ∃ st', build_state_initializer demo_engine 0 demo_transformed_state = (Ok tt, st').
Proof.
  assert (make_stateful_prepare demo_engine ["past_key"] ["present_key"] 0 1 None demo_state =
            (Ok demo_map, demo_state)) as Hprep by reflexivity.
  assert (make_stateful_transformation demo_engine demo_map demo_state =
            (Ok tt, demo_transformed_state)) as Htrans by (vm_compute; reflexivity).
  split_and!; [done|done| |].
  - apply (make_stateful_state_initializer demo_engine ["past_key"] ["present_key"] 0 1 None
             demo_state demo_state demo_transformed_state demo_map Hprep Htrans). reflexivity.
  - eexists. vm_compute. reflexivity.
Defined.

Lemma batch_extent_read_from_input_ids_axis_0_witness :
  fuse_cache_reorder demo_engine ["past_key"] (-1) demo_state =
    (Ok tt, (fuse_cache_reorder demo_engine ["past_key"] (-1) demo_state).2) ∧
  source_output demo_model (2, 1)%nat = Some (1, 0)%nat ∧
  (∃ g c gn cn data,
     source_output (ov_model (fuse_cache_reorder demo_engine ["past_key"] (-1) demo_state).2)
                   (2, 1)%nat = Some (g, 0%nat) ∧
     nodes (ov_model (fuse_cache_reorder demo_engine ["past_key"] (-1) demo_state).2) !! g
       = Some gn ∧
     is_gather data (5, 0)%nat (c, 0%nat) gn ∧
     nodes (ov_model (fuse_cache_reorder demo_engine ["past_key"] (-1) demo_state).2) !! c
       = Some cn ∧
     is_axis_constant (-1) cn) ∧
  build_state_initializer demo_engine (-1) demo_transformed_state =
    (Ok tt, (build_state_initializer demo_engine (-1) demo_transformed_state).2) ∧
  py_index 4 (-1) = Some 3%nat ∧
  ∃ input_ids batch,
    model_input (ov_model demo_transformed_state) "input_ids" = Some input_ids ∧
    batch_extent
      (nodes (ov_model (build_state_initializer demo_engine (-1) demo_transformed_state).2))
      input_ids batch ∧
    ∀ i n',
      nodes (ov_model (build_state_initializer demo_engine (-1) demo_transformed_state).2) !! i
        = Some n' →
      type_name n' = "ReadValue" →
      ∃ n out init k,
        nodes (ov_model demo_transformed_state) !! i = Some n ∧
        outputs n !! 0%nat = Some out ∧ arguments n' = [(init, 0%nat)] ∧
        py_index (length (partial_shape out)) (-1) = Some k ∧
        zero_initializer
          (nodes (ov_model (build_state_initializer demo_engine (-1) demo_transformed_state).2))
          batch k out init.
Proof.
  set (sf := (fuse_cache_reorder demo_engine ["past_key"] (-1) demo_state).2).
  set (si := (build_state_initializer demo_engine (-1) demo_transformed_state).2).
  assert (fuse_cache_reorder demo_engine ["past_key"] (-1) demo_state = (Ok tt, sf))
    as Hfuse by (vm_compute; reflexivity).
  assert (build_state_initializer demo_engine (-1) demo_transformed_state = (Ok tt, si))
    as Hinit by (vm_compute; reflexivity).
  assert (wf_inputs demo_model) as Hwf by (repeat constructor; by eexists).
  assert (Forall2 (λ name p, model_input demo_model name = Some p) ["past_key"] [(1, 0)%nat])
    as Hports by (repeat constructor).
  destruct (batch_extent_read_from_input_ids_axis_0 demo_engine ["past_key"] (-1) demo_state)
    as (_ & Hgather & _).
  destruct (batch_extent_read_from_input_ids_axis_0 demo_engine [] (-1) demo_transformed_state)
    as (_ & _ & Hextent).
  split_and!; [done|reflexivity| |done|reflexivity|].
  - destruct (Hgather sf Hfuse) as [_ Haxis].
    apply (Haxis [(1, 0)%nat] Hwf Hports (1, 0)%nat (2, 1)%nat); [by left|reflexivity].
  - apply (Hextent si Hinit).
Defined.

(** ** Pinning the batch *)

Lemma for_fold_app {A S} (l1 l2 : list A) (body : S → A → M S) (s : S) st :
  for_fold (l1 ++ l2) body s st = (s1 <- for_fold l1 body s ;; for_fold l2 body s1) st.
Proof.
  revert s st. induction l1 as [|x l1 IH]; intros s st; simpl.
  - reflexivity.
  - unfold bind. destruct (body s x st) as [[s'|e] st1]; [|done].
    rewrite IH. reflexivity.
Qed.

Lemma set_declared_shape_Some sh n n' :
  set_declared_shape sh n = Some n' →
  is_Some (declared n) ∧
  n' = mkNode (type_name n) (arguments n) (outputs n) (pinned_attrs sh (attributes n)).
Proof.
  unfold set_declared_shape, declared, pinned_attrs.
  destruct (attributes n); intros [= <-]; eauto.
Qed.

Lemma pinned_attrs_twice sh sh' a : pinned_attrs sh (pinned_attrs sh' a) = pinned_attrs sh a.
Proof. by destruct a. Qed.

Lemma get_partial_shape_Ok p st sh st' :
  get_partial_shape p st = (Ok sh, st') →
  partial_shape <$> get_tensor (ov_model st) p = Some sh ∧ st' = st.
Proof.
  unfold get_partial_shape. intros H. ok_bind H m st1 Hm. ok_prim Hm. by ok_prim H.
Qed.

Lemma set_partial_shape_Ok p sh st st' :
  set_partial_shape p sh st = (Ok tt, st') →
  ∃ n, nodes (ov_model st) !! p.1 = Some n ∧ is_Some (declared n) ∧
       st' = mkState (set_nodes (<[p.1 := mkNode (type_name n) (arguments n) (outputs n)
                                             (pinned_attrs sh (attributes n))]>)
                                (ov_model st))
                     (not_kv_inputs st) (stdout st).
Proof.
  unfold set_partial_shape. intros H. ok_bind H m st1 Hm. ok_prim Hm.
  ok_bind H n' st1 Hn. ok_prim Hn. ok_prim H.
  destruct (nodes (ov_model st) !! p.1) as [n|] eqn:Hlook; [|done]. simpl in Hn.
  apply set_declared_shape_Some in Hn as [Hd ->]. by exists n.
Qed.

Lemma shape_setitem_Ok sh (k : nat) d st sh' st' :
  shape_setitem sh (Z.of_nat k) d st = (Ok sh', st') →
  (k < length sh)%nat ∧ sh' = <[k := d]> sh ∧ st' = st.
Proof.
  unfold shape_setitem. rewrite py_index_of_nat. case_decide; [|done]. by intros [= <- <-].
Qed.

Lemma pinned_from_get_tensor rewrites st st' p :
  pinned_from rewrites st st' →
  get_tensor (ov_model st') p = get_tensor (ov_model st) p.
Proof.
  intros Hp. unfold get_tensor.
  destruct (nodes (ov_model st) !! p.1) as [n|] eqn:Hn.
  - destruct (pin_nodes _ _ _ Hp _ n Hn) as (n' & Hn' & _ & _ & Ho & _).
    rewrite Hn'. simpl. by rewrite Ho.
  - apply lookup_ge_None in Hn. rewrite <- (pin_length _ _ _ Hp) in Hn.
    apply lookup_ge_None in Hn. by rewrite Hn.
Qed.

Lemma pinned_from_model_input rewrites st st' name :
  pinned_from rewrites st st' →
  model_input (ov_model st') name = model_input (ov_model st) name.
Proof.
  intros Hp. unfold model_input, model_inputs. rewrite (pin_parameters _ _ _ Hp).
  f_equal. apply list_filter_iff. intros o. unfold get_names.
  by rewrite (pinned_from_get_tensor _ _ _ _ Hp).
Qed.

Lemma pinned_from_refl st : pinned_from (λ _ _, None) st st.
Proof. split; try done; [by exists []; rewrite app_nil_r|by eauto 10]. Qed.

Lemma pinned_from_ext rewrites rewrites' st st' :
  pinned_from rewrites st st' →
  (∀ i n, nodes (ov_model st) !! i = Some n → rewrites' i n = rewrites i n) →
  pinned_from rewrites' st st'.
Proof.
  intros [? ? ? ? ? ? Hn Hd] Hext. split; try done.
  - intros i n Hi. rewrite (Hext i n Hi). by apply Hn.
  - intros i n sh Hi. rewrite (Hext i n Hi). by apply Hd.
Qed.

Lemma pinned_from_print rewrites st st' line :
  pinned_from rewrites st st' →
  pinned_from rewrites st (mkState (ov_model st') (not_kv_inputs st') (stdout st' ++ [line])).
Proof.
  intros [? ? ? ? ? [printed Hpr] Hn Hd]. split; try done.
  exists (printed ++ [line]). simpl. by rewrite Hpr, app_assoc.
Qed.

(** One more call of [set_partial_shape], on node [j]. *)
Lemma pinned_from_step rewrites rewrites' st st1 j n1 sh :
  pinned_from rewrites st st1 →
  nodes (ov_model st1) !! j = Some n1 → is_Some (declared n1) →
  (∀ i n, nodes (ov_model st) !! i = Some n →
     rewrites' i n = if decide (i = j) then Some sh else rewrites i n) →
  pinned_from rewrites' st
    (mkState (set_nodes (<[j := mkNode (type_name n1) (arguments n1) (outputs n1)
                                      (pinned_attrs sh (attributes n1))]>)
                        (ov_model st1))
             (not_kv_inputs st1) (stdout st1)).
Proof.
  intros [? ? ? ? Hlen ? Hn Hd] Hn1 Hdecl Hrw.
  split; cbn [ov_model not_kv_inputs stdout set_nodes nodes parameters results sinks]; try done.
  - by rewrite length_insert.
  - intros i n Hi. rewrite (Hrw i n Hi).
    destruct (Hn i n Hi) as (n' & Hn' & Ht & Ha & Ho & Hat).
    case_decide as Hij.
    + subst i. rewrite Hn1 in Hn'. injection Hn' as <-.
      eexists. split; [apply list_lookup_insert_eq; by eapply lookup_lt_Some|].
      cbn [type_name arguments outputs attributes]. split_and!; [done..|].
      rewrite Hat. destruct (rewrites j n); [apply pinned_attrs_twice|done].
    + exists n'. rewrite list_lookup_insert_ne by done. done.
  - intros i n sh' Hi. rewrite (Hrw i n Hi). case_decide as Hij; [|by apply Hd].
    subst i. intros _. destruct (Hn j n Hi) as (n' & Hn' & _ & _ & _ & Hat).
    rewrite Hn1 in Hn'. injection Hn' as <-.
    destruct (rewrites j n) as [sh0|] eqn:Hr; [by eapply Hd|].
    unfold declared in *. by rewrite <- Hat.
Qed.

Lemma pin_not_kv_input_Ok b p st st' :
  pin_not_kv_input b p st = (Ok tt, st') →
  ∃ t, get_tensor (ov_model st) p = Some t ∧
    if decide (length (partial_shape t) ≤ 2)%nat then
      (0 < length (partial_shape t))%nat ∧
      ∃ n, nodes (ov_model st) !! p.1 = Some n ∧ is_Some (declared n) ∧
        st' = mkState
                (set_nodes
                   (<[p.1 := mkNode (type_name n) (arguments n) (outputs n)
                               (pinned_attrs (<[0%nat := static_dim (Z.of_N b)]> (partial_shape t))
                                             (attributes n))]>)
                   (ov_model st))
                (not_kv_inputs st) (stdout st)
    else
      ∃ name, head (names t) = Some name ∧
        st' = mkState (ov_model st) (not_kv_inputs st) (stdout st ++ [rank_warning name]).
Proof.
  unfold pin_not_kv_input. intros H.
  ok_bind H shape st1 Hshape. apply get_partial_shape_Ok in Hshape as [Hshape ->].
  destruct (get_tensor (ov_model st) p) as [t|] eqn:Ht; [|done].
  simpl in Hshape. injection Hshape as <-. exists t. split; [done|].
  case_decide as Hrank.
  - ok_bind H shape' st1 Hset. apply (shape_setitem_Ok _ 0%nat) in Hset as (Hlt & -> & ->).
    apply set_partial_shape_Ok in H as (n & Hn & Hd & ->). split; [done|]. by exists n.
  - ok_bind H name st1 Hname. unfold get_any_name in Hname.
    ok_bind Hname m st2 Hm. ok_prim Hm. ok_prim Hname. ok_prim H.
    unfold get_names in Hname. rewrite Ht in Hname. by exists name.
Qed.

Lemma get_tensor_shape0 m i t n :
  get_tensor m (i, 0%nat) = Some t → nodes m !! i = Some n → shape0 n = partial_shape t.
Proof.
  unfold get_tensor, shape0. cbn [fst snd]. intros Ht Hn. rewrite Hn in Ht. simpl in Ht.
  by rewrite Ht.
Qed.

Lemma pin_loop_Ok b l st st' :
  Forall (λ p : Output, p.2 = 0%nat) l →
  for_each l (pin_not_kv_input b) st = (Ok tt, st') →
  pinned_from (pin_rewrites b l) st st'.
Proof.
  revert st'. induction l as [|p l IH] using rev_ind; intros st' Hl H.
  - injection H as <-. eapply pinned_from_ext; [apply pinned_from_refl|].
    intros i n _. unfold pin_rewrites. rewrite decide_False; [done|].
    intros [Hin _]. by apply elem_of_nil in Hin.
  - apply Forall_app in Hl as [Hl Hp]. rewrite Forall_singleton in Hp.
    rewrite for_each_app in H. ok_bind H u st1 Hloop. destruct u.
    specialize (IH _ Hl Hloop). simpl in H. ok_bind H u st2 Hbody. injection H as <-.
    destruct u. destruct p as [j k]. simpl in Hp. subst k.
    apply pin_not_kv_input_Ok in Hbody as (t & Ht & Hbody).
    rewrite (pinned_from_get_tensor _ _ _ _ IH) in Ht.
    assert (∀ i n, nodes (ov_model st) !! i = Some n →
              pin_rewrites b (l ++ [(j, 0%nat)]) i n =
              if decide (i = j ∧ (length (shape0 n) ≤ 2)%nat)
              then Some (<[0%nat := static_dim (Z.of_N b)]> (shape0 n))
              else pin_rewrites b l i n) as Hrw.
    { intros i n _. unfold pin_rewrites.
      destruct (decide (i = j ∧ (length (shape0 n) ≤ 2)%nat)) as [[-> Hr]|Hno].
      - rewrite decide_True; [done|]. split; [|done]. apply elem_of_app. right. by left.
      - destruct (decide ((i, 0%nat) ∈ l ∧ (length (shape0 n) ≤ 2)%nat)) as [[Hin Hr]|Hni].
        + rewrite decide_True; [done|]. split; [|done]. apply elem_of_app. by left.
        + rewrite decide_False; [done|]. intros [[Hin|Hin]%elem_of_app Hr]; [tauto|].
          apply list_elem_of_singleton in Hin. injection Hin as ->. tauto. }
    case_decide as Hrank.
    + destruct Hbody as (Hpos & n1 & Hn1 & Hd & ->). cbn [fst] in *.
      eapply pinned_from_step; [exact IH|exact Hn1|exact Hd|].
      intros i n Hi. rewrite (Hrw i n Hi).
      destruct (decide (i = j)) as [->|Hij].
      * pose proof (get_tensor_shape0 _ _ _ _ Ht Hi) as Hs.
        rewrite decide_True by (by rewrite Hs). by rewrite Hs.
      * rewrite decide_False by tauto. done.
    + destruct Hbody as (name & _ & ->).
      apply pinned_from_print. eapply pinned_from_ext; [exact IH|].
      intros i n Hi. rewrite (Hrw i n Hi). rewrite decide_False; [done|].
      intros [-> Hr]. apply Hrank. by rewrite <- (get_tensor_shape0 _ _ _ _ Ht Hi).
Qed.

Lemma model_input_port m name p : model_input m name = Some p → p = (p.1, 0%nat).
Proof.
  intros [Hin _]%model_input_Some. unfold model_inputs in Hin.
  apply list_elem_of_fmap in Hin as (i & -> & _). done.
Qed.

Lemma map_kv_pair_Ok (bd : nat) heads b acc pair st imap st' :
  map_kv_pair (Z.of_nat bd) heads (Some b) acc pair st = (Ok imap, st') →
  imap = insert_pair acc pair ∧
  ∃ j t n,
    model_input (ov_model st) pair.1 = Some (j, 0%nat) ∧
    get_tensor (ov_model st) (j, 0%nat) = Some t ∧
    (bd < length (partial_shape t))%nat ∧
    nodes (ov_model st) !! j = Some n ∧ is_Some (declared n) ∧
    st' = mkState
            (set_nodes
               (<[j := mkNode (type_name n) (arguments n) (outputs n)
                         (pinned_attrs
                            (<[bd := static_dim (Z.of_N (b * heads))]> (partial_shape t))
                            (attributes n))]>)
               (ov_model st))
            (not_kv_inputs st) (stdout st).
Proof.
  unfold map_kv_pair. intros H.
  ok_bind H p st1 Hp. apply input_by_name_Ok in Hp as [Hp ->].
  ok_bind H shape st1 Hshape. apply get_partial_shape_Ok in Hshape as [Hshape ->].
  ok_bind H shape' st1 Hset. apply shape_setitem_Ok in Hset as (Hlt & -> & ->).
  ok_bind H u st1 Hsps. destruct u. apply set_partial_shape_Ok in Hsps as (n & Hn & Hd & ->).
  injection H as <- <-. split; [done|].
  pose proof (model_input_port _ _ _ Hp) as Hport. destruct p as [j k].
  simpl in Hport. injection Hport as ->. cbn [fst] in *.
  destruct (get_tensor (ov_model st) (j, 0%nat)) as [t|] eqn:Ht; [|done].
  simpl in Hshape. injection Hshape as <-. by exists j, t, n.
Qed.

Lemma kv_loop_Ok (bd : nat) heads b pairs acc st imap st' :
  for_fold pairs (map_kv_pair (Z.of_nat bd) heads (Some b)) acc st = (Ok imap, st') →
  imap = foldl insert_pair acc pairs ∧
  pinned_from (kv_rewrites (ov_model st) bd (b * heads) pairs.*1) st st' ∧
  Forall (λ name, ∃ j t, model_input (ov_model st) name = Some (j, 0%nat) ∧
                         get_tensor (ov_model st) (j, 0%nat) = Some t ∧
                         (bd < length (partial_shape t))%nat) pairs.*1.
Proof.
  revert imap st'. induction pairs as [|pair pairs IH] using rev_ind; intros imap st' H.
  - injection H as <- <-. split_and!; [done| |by constructor].
    eapply pinned_from_ext; [apply pinned_from_refl|]. intros i n _.
    unfold kv_rewrites. case_decide as Hc; [|done]. by apply elem_of_nil in Hc.
  - rewrite for_fold_app in H. ok_bind H acc1 st1 Hloop.
    destruct (IH _ _ Hloop) as (-> & Hpin & Hall). simpl in H.
    ok_bind H imap' st2 Hbody. injection H as <- <-.
    apply map_kv_pair_Ok in Hbody as (-> & j & t & n1 & Hin & Ht & Hlt & Hn1 & Hd & ->).
    rewrite (pinned_from_model_input _ _ _ _ Hpin) in Hin.
    rewrite (pinned_from_get_tensor _ _ _ _ Hpin) in Ht.
    rewrite foldl_snoc, fmap_app. split_and!; [done| |].
    + eapply pinned_from_step; [exact Hpin|exact Hn1|exact Hd|].
      intros i n Hi. unfold kv_rewrites. rewrite omap_app. simpl. rewrite Hin.
      destruct (decide (i = j)) as [->|Hij].
      * rewrite decide_True by (apply elem_of_app; right; by left).
        by rewrite (get_tensor_shape0 _ _ _ _ Ht Hi).
      * destruct (decide ((i, 0%nat) ∈ omap (model_input (ov_model st)) pairs.*1)) as [Hi'|Hi'].
        -- rewrite decide_True; [done|]. apply elem_of_app. by left.
        -- rewrite decide_False; [done|]. intros [?|Hs]%elem_of_app; [done|].
           apply list_elem_of_singleton in Hs. by injection Hs.
    + apply Forall_app. split; [done|]. apply Forall_singleton. by exists j, t.
Qed.

Lemma declared_pinned_attrs n n' sh :
  is_Some (declared n) → attributes n' = pinned_attrs sh (attributes n) →
  ∃ ty, declared n' = Some (ty, sh) ∧ ∃ sh0, declared n = Some (ty, sh0).
Proof.
  unfold declared. intros [[ty sh0] Hd] Ha. rewrite Ha.
  destruct (attributes n); try done. simpl. injection Hd as <- <-. eauto.
Qed.

Lemma declared_same_attrs n n' : attributes n' = attributes n → declared n' = declared n.
Proof. unfold declared. by intros ->. Qed.

Lemma pin_loop_ranks b l st st' :
  Forall (λ p : Output, p.2 = 0%nat) l →
  for_each l (pin_not_kv_input b) st = (Ok tt, st') →
  ∀ p t, p ∈ l → get_tensor (ov_model st) p = Some t →
    (length (partial_shape t) ≤ 2)%nat → (0 < length (partial_shape t))%nat.
Proof.
  revert st. induction l as [|q l IH]; intros st Hl H p t Hp Ht Hrank.
  - by apply elem_of_nil in Hp.
  - apply Forall_cons in Hl as [Hq Hl]. simpl in H. ok_bind H u st1 Hbody. destruct u.
    apply elem_of_cons in Hp as [->|Hp].
    + apply pin_not_kv_input_Ok in Hbody as (t' & Ht' & Hbody).
      rewrite Ht in Ht'. injection Ht' as <-. rewrite decide_True in Hbody by done.
      by destruct Hbody.
    + eapply (IH st1); [done|done|done| |done].
      rewrite (pinned_from_get_tensor (pin_rewrites b [q]) st); [done|].
      apply pin_loop_Ok; [by apply Forall_singleton|].
      simpl. by rewrite (bind_Ok_l _ _ _ _ _ Hbody).
Qed.

Lemma bind_ret_tt (c : M unit) st : (c >> ret tt) st = c st.
Proof. unfold bind, ret. by destruct (c st) as [[[]|e] st']. Qed.

Section Pinning.

Variable E : Engine.

(** C4: [make_stateful] with a pinned batch [b] and [heads] attention
    heads hands to the engine's transformation a graph in which every
    non-key-value input of rank at most 2 has the extent [b] on axis 0,
    every non-key-value input of higher rank has the shape it had, and the
    input of every key-value name that is paired with an output name has the
    extent [b * heads] on axis [batch_dim]; the other axes are unchanged. *)
Theorem make_stateful_pins_batch
    (kv_in kv_out : list string) (batch_dim : nat) (heads b : N)
    (st st1 : State) (input_output_map : gmap string string) :
  Forall (validated_input (ov_model st)) (not_kv_inputs st) →
  (∀ p name, p ∈ not_kv_inputs st → name ∈ kv_in → model_input (ov_model st) name ≠ Some p) →
  make_stateful_prepare E kv_in kv_out (Z.of_nat batch_dim) heads (Some b) st =
    (Ok input_output_map, st1) →
  let m := ov_model st in
  let m1 := ov_model st1 in
  make_stateful E kv_in kv_out (Z.of_nat batch_dim) heads (Some b) st =
    make_stateful_transformation E input_output_map st1 ∧
  (∀ p t, p ∈ not_kv_inputs st → get_tensor m p = Some t →
     ((length (partial_shape t) ≤ 2)%nat →
      ∃ t1, get_tensor m1 p = Some t1 ∧
            partial_shape t1 !! 0%nat = Some (static_dim (Z.of_N b)) ∧
            partial_shape t1 = <[0%nat := static_dim (Z.of_N b)]> (partial_shape t)) ∧
     ((2 < length (partial_shape t))%nat →
      ∃ t1, get_tensor m1 p = Some t1 ∧ partial_shape t1 = partial_shape t)) ∧
  (∀ i name, (i < Nat.min (length kv_in) (length kv_out))%nat → kv_in !! i = Some name →
     ∃ p t t1,
       model_input m name = Some p ∧ get_tensor m p = Some t ∧ get_tensor m1 p = Some t1 ∧
       partial_shape t1 !! batch_dim = Some (static_dim (Z.of_N (b * heads))) ∧
       partial_shape t1 = <[batch_dim := static_dim (Z.of_N (b * heads))]> (partial_shape t)).
Proof.
  intros Hvalid Hdisj Hprep m m1. subst m m1.
  split.
  { unfold make_stateful. rewrite (bind_Ok_l _ _ _ _ _ Hprep). apply bind_ret_tt. }
  unfold make_stateful_prepare in Hprep.
  ok_bind Hprep u sta Hpin. destruct u.
  ok_bind Hpin l st0 Hl. ok_prim Hl.
  ok_bind Hprep iom stb Hkv.
  ok_bind Hprep u st1' Hval. destruct u. injection Hprep as -> ->.
  assert (Forall (λ p : Output, p.2 = 0%nat) (not_kv_inputs st)) as Hzero.
  { eapply Forall_impl; [exact Hvalid|]. by intros p [? _]. }
  pose proof (pin_loop_ranks _ _ _ _ Hzero Hpin) as Hranks.
  apply pin_loop_Ok in Hpin; [|done].
  apply kv_loop_Ok in Hkv as (_ & Hkv & Hall).
  apply validate_and_infer_Ok in Hval as (Hrv & _ & _).
  assert (∀ j n0, nodes (ov_model st) !! j = Some n0 →
            ∃ na nb n1,
              nodes (ov_model sta) !! j = Some na ∧ nodes (ov_model stb) !! j = Some nb ∧
              nodes (ov_model st1) !! j = Some n1 ∧
              outputs na = outputs n0 ∧ outputs nb = outputs n0 ∧
              attributes na = match pin_rewrites b (not_kv_inputs st) j n0 with
                              | Some sh => pinned_attrs sh (attributes n0)
                              | None => attributes n0
                              end ∧
              attributes nb =
                match kv_rewrites (ov_model sta) batch_dim (b * heads) (zip kv_in kv_out).*1 j na
                with
                | Some sh => pinned_attrs sh (attributes na)
                | None => attributes na
                end ∧
              (∀ ty sh, declared nb = Some (ty, sh) → outputs n1 = redeclare ty sh <$> outputs n0))
    as Hnodes.
  { intros j n0 Hn0.
    destruct (pin_nodes _ _ _ Hpin j n0 Hn0) as (na & Hna & _ & _ & Hoa & Haa).
    destruct (pin_nodes _ _ _ Hkv j na Hna) as (nb & Hnb & _ & _ & Hob & Hab).
    destruct (revalidated_lookup _ _ _ _ Hrv Hnb) as (n1 & Hn1 & Hr).
    exists na, nb, n1. split_and!; [done..|congruence|done|done|].
    intros ty sh Hd. rewrite (rv_parameter _ _ Hr ty sh Hd). congruence. }
  split.
  - intros p t Hp Ht.
    rewrite Forall_forall in Hvalid. destruct (Hvalid p Hp) as (Hp2 & n0 & ty & t' & Hn0 & Ho & Hd).
    destruct p as [j k]. simpl in Hp2. subst k. cbn [fst] in *.
    assert (t' = t) as ->.
    { unfold get_tensor in Ht. cbn [fst snd] in Ht. rewrite Hn0 in Ht. simpl in Ht. congruence. }
    destruct (Hnodes j n0 Hn0) as (na & nb & n1 & Hna & Hnb & Hn1 & Hoa & Hob & Haa & Hab & Hrd).
    assert (shape0 n0 = partial_shape t) as Hs0 by (unfold shape0; by rewrite Ho).
    assert (attributes nb = attributes na) as Hba.
    { rewrite Hab. unfold kv_rewrites. rewrite decide_False; [done|].
      intros (name & Hname & Hin)%list_elem_of_omap.
      rewrite (pinned_from_model_input _ _ _ _ Hpin) in Hin.
      apply (Hdisj (j, 0%nat) name); [done| |done].
      apply list_elem_of_fmap in Hname as ([k v] & -> & Hkv'). by eapply elem_of_zip_l. }
    assert (∀ sh, declared nb = Some (ty, sh) →
              ∃ t1, get_tensor (ov_model st1) (j, 0%nat) = Some t1 ∧ partial_shape t1 = sh) as Hfin.
    { intros sh Hdb. exists (redeclare ty sh t). split; [|done].
      unfold get_tensor. cbn [fst snd]. rewrite Hn1. simpl.
      by rewrite (Hrd _ _ Hdb), list_lookup_fmap, Ho. }
    split; intros Hrank.
    + unfold pin_rewrites in Haa. rewrite decide_True in Haa by (by rewrite Hs0).
      rewrite <- Hba in Haa.
      destruct (declared_pinned_attrs n0 nb _ (mk_is_Some _ _ Hd) Haa)
        as (ty' & Hdb & sh0 & Hd0).
      rewrite Hd in Hd0. injection Hd0 as <- _.
      destruct (Hfin _ Hdb) as (t1 & Ht1 & Hsh). exists t1. rewrite Hsh, Hs0.
      split_and!; [done| |done].
      apply list_lookup_insert_eq. by eapply Hranks.
    + unfold pin_rewrites in Haa. rewrite decide_False in Haa by (rewrite Hs0; lia).
      rewrite <- Hba in Haa. apply declared_same_attrs in Haa. rewrite Hd in Haa.
      by apply Hfin.
  - intros i name Hi Hname.
    assert (is_Some (kv_out !! i)) as [out Hout] by (apply lookup_lt_is_Some; lia).
    assert (name ∈ (zip kv_in kv_out).*1) as Hin.
    { apply list_elem_of_fmap. exists (name, out). split; [done|].
      apply list_elem_of_lookup. exists i. by apply lookup_zip_Some. }
    rewrite Forall_forall in Hall. destruct (Hall name Hin) as (j & t & Hj & Ht & Hlt).
    rewrite (pinned_from_get_tensor _ _ _ _ Hpin) in Ht.
    assert (is_Some (nodes (ov_model st) !! j)) as [n0 Hn0].
    { unfold get_tensor in Ht. cbn [fst] in Ht. by destruct (nodes (ov_model st) !! j). }
    destruct (Hnodes j n0 Hn0) as (na & nb & n1 & Hna & Hnb & Hn1 & Hoa & Hob & Haa & Hab & Hrd).
    assert (kv_rewrites (ov_model sta) batch_dim (b * heads) (zip kv_in kv_out).*1 j na =
            Some (<[batch_dim := static_dim (Z.of_N (b * heads))]> (partial_shape t))) as Hrw.
    { unfold kv_rewrites. rewrite decide_True by (apply list_elem_of_omap; eauto).
      f_equal. f_equal. rewrite <- (get_tensor_shape0 _ _ _ _ Ht Hn0). unfold shape0.
      by rewrite Hoa. }
    rewrite Hrw in Hab.
    destruct (declared_pinned_attrs na nb _ (pin_declared _ _ _ Hkv _ _ _ Hna Hrw) Hab)
      as (ty & Hdb & _).
    assert (outputs n0 !! 0%nat = Some t) as Ho.
    { unfold get_tensor in Ht. cbn [fst snd] in Ht. by rewrite Hn0 in Ht. }
    exists (j, 0%nat), t,
      (redeclare ty (<[batch_dim := static_dim (Z.of_N (b * heads))]> (partial_shape t)) t).
    rewrite <- (pinned_from_model_input _ _ _ _ Hpin). split_and!; [done|done| | |done].
    + unfold get_tensor. cbn [fst snd]. rewrite Hn1. simpl.
      by rewrite (Hrd _ _ Hdb), list_lookup_fmap, Ho.
    + simpl. by apply list_lookup_insert_eq.
Qed.

End Pinning.

Lemma make_stateful_pins_batch_witness :
  Forall (validated_input demo_model) [(0, 0)%nat] ∧
  (∀ p name, p ∈ [(0, 0)%nat] → name ∈ ["past_key"] → model_input demo_model name ≠ Some p) ∧
  make_stateful_prepare demo_engine ["past_key"] ["present_key"] 0 8 (Some 2%N) demo_state =
    (Ok demo_map, demo_pinned_state) ∧
  (∃ t1, get_tensor (ov_model demo_pinned_state) (0, 0)%nat = Some t1 ∧
         partial_shape t1 !! 0%nat = Some (static_dim 2) ∧
         partial_shape t1 = <[0%nat := static_dim 2]> [dynamic_dim; dynamic_dim]) ∧
  (∃ p t t1, model_input demo_model "past_key" = Some p ∧
             get_tensor demo_model p = Some t ∧
             get_tensor (ov_model demo_pinned_state) p = Some t1 ∧
             partial_shape t1 !! 0%nat = Some (static_dim 16) ∧
             partial_shape t1 = <[0%nat := static_dim 16]> (partial_shape t)).
Proof.
  assert (Forall (validated_input demo_model) [(0, 0)%nat]) as Hvalid.
  { repeat constructor. by eexists _, _, _. }
  assert (∀ p name, p ∈ [(0, 0)%nat] → name ∈ ["past_key"] →
                    model_input demo_model name ≠ Some p) as Hdisj.
  { intros p name ->%list_elem_of_singleton ->%list_elem_of_singleton. by vm_compute. }
  assert (make_stateful_prepare demo_engine ["past_key"] ["present_key"] 0 8 (Some 2%N) demo_state
          = (Ok demo_map, demo_pinned_state)) as Hprep by (vm_compute; reflexivity).
  destruct (make_stateful_pins_batch demo_engine ["past_key"] ["present_key"] 0 8 2
              demo_state demo_pinned_state demo_map Hvalid Hdisj Hprep) as (_ & Hnkv & Hkv).
  split_and!; [done..| |].
  - apply (Hnkv (0, 0)%nat (mkTensor ["input_ids"] [dynamic_dim; dynamic_dim] i64));
      [by left|reflexivity|simpl; lia].
  - apply (Hkv 0%nat "past_key"); [simpl; lia|reflexivity].
Defined.

(** ** The rank warning *)

Lemma pin_not_kv_input_warns b p t name st :
  get_tensor (ov_model st) p = Some t → (2 < length (partial_shape t))%nat →
  head (names t) = Some name →
  pin_not_kv_input b p st = print (rank_warning name) st.
Proof.
  intros Ht Hrank Hname. unfold pin_not_kv_input.
  rewrite (bind_Ok_l _ _ _ (partial_shape t) st)
    by (unfold get_partial_shape, bind, get_model; by rewrite Ht).
  rewrite decide_False by lia.
  rewrite (bind_Ok_l _ _ _ name st); [done|].
  unfold get_any_name, bind, get_model, get_names. rewrite Ht.
  change (default [] (names <$> Some t)) with (names t). by rewrite Hname.
Qed.

Lemma pin_not_kv_input_preserves b p st st' :
  pin_not_kv_input b p st = (Ok tt, st') →
  (∀ q, get_tensor (ov_model st') q = get_tensor (ov_model st) q) ∧
  ∃ printed, stdout st' = stdout st ++ printed.
Proof.
  intros (t & Ht & H)%pin_not_kv_input_Ok. case_decide.
  - destruct H as (_ & n & Hn & _ & ->). split; [|by exists []; rewrite app_nil_r].
    intros q. unfold get_tensor, set_nodes. cbn [ov_model nodes].
    destruct (decide (q.1 = p.1)) as [Hq|Hq].
    + rewrite Hq, Hn, list_lookup_insert_eq by (by eapply lookup_lt_Some). done.
    + by rewrite list_lookup_insert_ne.
  - destruct H as (name & _ & ->). split; [done|]. by eexists.
Qed.

Lemma pin_loop_preserves b l st st' :
  for_each l (pin_not_kv_input b) st = (Ok tt, st') →
  (∀ q, get_tensor (ov_model st') q = get_tensor (ov_model st) q) ∧
  ∃ printed, stdout st' = stdout st ++ printed.
Proof.
  revert st. induction l as [|p l IH]; intros st H; simpl in H.
  - injection H as <-. split; [done|]. exists []. by rewrite app_nil_r.
  - ok_bind H u st1 Hbody. destruct u.
    apply pin_not_kv_input_preserves in Hbody as (Ht1 & printed1 & Hp1).
    apply IH in H as (Ht2 & printed2 & Hp2). split.
    + intros q. by rewrite Ht2, Ht1.
    + exists (printed1 ++ printed2). by rewrite Hp2, Hp1, app_assoc.
Qed.

Section Warning.

Variable E : Engine.

(** The warning branch on an input that has a name: during batch pinning,
    the turn of a non-key-value input that carries a tensor name and whose
    rank is greater than 2 raises nothing, appends the warning that names the
    input to the printed text and changes nothing else; the loop goes on with
    the inputs behind it; and the warning is in the printed text whenever the
    preparation completes. *)
Theorem rank_warning_is_not_fatal
    (kv_in kv_out : list string) (batch_dim : nat) (heads b : N)
    (l1 l2 : list Output) (p : Output) (t : Tensor) (name : string) (st : State) :
  not_kv_inputs st = l1 ++ p :: l2 →
  get_tensor (ov_model st) p = Some t →
  (2 < length (partial_shape t))%nat →
  head (names t) = Some name →
  pin_not_kv_input b p st =
    (Ok tt, mkState (ov_model st) (not_kv_inputs st) (stdout st ++ [rank_warning name])) ∧
  for_each (not_kv_inputs st) (pin_not_kv_input b) st =
    (for_each l1 (pin_not_kv_input b) >>
     print (rank_warning name) >>
     for_each l2 (pin_not_kv_input b)) st ∧
  ∀ input_output_map st1,
    make_stateful_prepare E kv_in kv_out (Z.of_nat batch_dim) heads (Some b) st =
      (Ok input_output_map, st1) →
    rank_warning name ∈ stdout st1.
Proof.
  intros Hnkv Ht Hrank Hname.
  assert (for_each (not_kv_inputs st) (pin_not_kv_input b) st =
          (for_each l1 (pin_not_kv_input b) >>
           print (rank_warning name) >>
           for_each l2 (pin_not_kv_input b)) st) as Hloop.
  { rewrite Hnkv, for_each_app. simpl. unfold bind.
    destruct (for_each l1 (pin_not_kv_input b) st) as [[[]|e] st1] eqn:Hl1; [|done].
    apply pin_loop_preserves in Hl1 as [Hsame _].
    assert (pin_not_kv_input b p st1 = print (rank_warning name) st1) as Hturn.
    { apply (pin_not_kv_input_warns b p t name st1); [|done..]. by rewrite Hsame. }
    by rewrite Hturn. }
  split_and!.
  - by rewrite (pin_not_kv_input_warns b p t name st).
  - exact Hloop.
  - intros iom st1 Hprep. unfold make_stateful_prepare in Hprep.
    ok_bind Hprep u sta Hpin. destruct u.
    ok_bind Hpin l st0 Hl. ok_prim Hl. rewrite Hloop in Hpin.
    ok_bind Hpin u stx Hl1. ok_bind Hpin u' sty Hprint. ok_prim Hprint.
    apply pin_loop_preserves in Hpin as (_ & printed & Hout).
    ok_bind Hprep iom' stb Hkv. apply kv_loop_Ok in Hkv as (_ & Hkv & _).
    destruct (pin_stdout _ _ _ Hkv) as (printed' & Hout').
    ok_bind Hprep u'' st1' Hval. apply validate_and_infer_Ok in Hval as (_ & _ & Hout'').
    injection Hprep as _ <-. rewrite Hout'', Hout', Hout. simpl.
    rewrite !elem_of_app. left. left. right. by left.
Qed.

End Warning.

Lemma rank_warning_is_not_fatal_witness :
  let st := rank3_state ["encoder_hidden_states"] in
  let warning :=
    "[ WARNING ] Rank of encoder_hidden_states input of the model is not 2, batch size is not set" in
  not_kv_inputs st = [(0, 0)%nat] ++ (1, 0)%nat :: [] ∧
  get_tensor (ov_model st) (1, 0)%nat =
    Some (mkTensor ["encoder_hidden_states"] [dynamic_dim; dynamic_dim; static_dim 64] f32) ∧
  pin_not_kv_input 4 (1, 0)%nat st =
    (Ok tt, mkState (ov_model st) (not_kv_inputs st) [warning]) ∧
  ∃ st1, make_stateful_prepare demo_engine [] [] 0 1 (Some 4%N) st = (Ok ∅, st1) ∧
         warning ∈ stdout st1.
Proof.
  intros st warning.
  destruct (rank_warning_is_not_fatal demo_engine [] [] 0 1 4 [(0, 0)%nat] [] (1, 0)%nat
              (mkTensor ["encoder_hidden_states"] [dynamic_dim; dynamic_dim; static_dim 64] f32)
              "encoder_hidden_states" st) as (Hturn & _ & Hprep);
    [reflexivity|reflexivity|simpl; lia|reflexivity|].
  split_and!; [reflexivity|reflexivity|exact Hturn|].
  eexists. split; [vm_compute; reflexivity|].
  eapply Hprep. vm_compute. reflexivity.
Defined.

(** C7: the warning of the pinning loop is meant not to be fatal, and on an
    input that has a name it is not.  But its text is built with
    [get_any_name], which raises on a tensor without names.  On a graph
    whose non-key-value input of rank 3 has no tensor name, [make_stateful]
    with a pinned batch stops with that error and prints nothing; on the
    same graph with the input named it completes, prints the warning and
    leaves the shape of the input as it was; and the other branch of the loop
    pins a nameless input of rank 2 without any error. *)
Theorem rank_warning_nameless_input_raises :
  let unnamed := mkTensor [] [dynamic_dim; dynamic_dim; static_dim 64] f32 in
  let named := mkTensor ["encoder_hidden_states"] [dynamic_dim; dynamic_dim; static_dim 64] f32 in
  let rank2_state :=
    mkState (mkModel [mkNode "Parameter" [] [mkTensor [] [dynamic_dim; dynamic_dim] i64]
                             (AParameter "input_ids" i64 [dynamic_dim; dynamic_dim])]
                     [0%nat] [] [])
            [(0, 0)%nat] [] in
  ((1, 0)%nat ∈ not_kv_inputs (rank3_state []) ∧
   get_tensor (ov_model (rank3_state [])) (1, 0)%nat = Some unnamed ∧
   ∃ st', make_stateful demo_engine [] [] 0 1 (Some 4%N) (rank3_state []) =
            (Raise (RuntimeError "Attempt to get a name for a Tensor without names"), st') ∧
          stdout st' = []) ∧
  (get_tensor (ov_model (rank3_state ["encoder_hidden_states"])) (1, 0)%nat = Some named ∧
   ∃ st', make_stateful demo_engine [] [] 0 1 (Some 4%N) (rank3_state ["encoder_hidden_states"]) =
            (Ok tt, st') ∧
          stdout st' = [rank_warning "encoder_hidden_states"] ∧
          get_tensor (ov_model st') (1, 0)%nat = Some named) ∧
  (∃ st', make_stateful demo_engine [] [] 0 1 (Some 4%N) rank2_state = (Ok tt, st') ∧
          stdout st' = [] ∧
          get_tensor (ov_model st') (0, 0)%nat =
            Some (mkTensor [] [static_dim 4; dynamic_dim] i64)).
Proof.
  intros unnamed named rank2_state. split_and!.
  - right. by left.
  - reflexivity.
  - eexists. split; [vm_compute; reflexivity|reflexivity].
  - reflexivity.
  - eexists. split_and!; [vm_compute; reflexivity|reflexivity|reflexivity].
  - eexists. split_and!; [vm_compute; reflexivity|reflexivity|reflexivity].
Qed.

(** ** Further properties of the introspection queries and of the fuser *)

(** [model_has_input] answers true exactly for the names that
    [ov_model.input(name)] resolves, so the query guards the lookup. *)
Theorem model_has_input_iff_input_resolves (m : Model) (name : string) :
  model_has_input m name = true ↔ is_Some (model_input m name).
Proof.
  split.
  - unfold model_has_input, model_input. intros H%bool_decide_eq_true.
    apply elem_of_concat in H as (l & Hl & Hname).
    apply list_elem_of_fmap in Hl as (o & -> & Ho).
    apply head_is_Some. intros Hnil.
    by apply (filter_nil_not_elem_of _ _ o Hnil).
  - intros [p Hp]. destruct (model_has_input m name) eqn:Hhas; [done|].
    apply model_input_None in Hhas. congruence.
Qed.

Lemma revalidated_type_names m m' :
  revalidated m m' → type_name <$> nodes m' = type_name <$> nodes m.
Proof.
  intros [_ _ _ HF]. revert HF. generalize (nodes m) (nodes m'). intros l l' HF.
  induction HF as [|n n' ns ns' Hn HF IH]; [done|].
  rewrite !fmap_cons, IH. f_equal. by destruct Hn.
Qed.

(** What an argument of a node that the loop found may read after it: its
    old source, or, when that was a key-value port, the output of a node
    added by the loop. *)
Lemma reordered_old_arguments b gd kv ports m m' :
  reordered b gd kv ports m m' →
  ∀ i n, nodes m !! i = Some n →
    ∃ n', nodes m' !! i = Some n' ∧
      Forall2 (λ a a', a' = a ∨ (a ∈ ports ∧ ∃ g, a' = (g, 0%nat) ∧ (length (nodes m) ≤ g)%nat))
              (arguments n) (arguments n').
Proof.
  induction 1 as [|name names p ps m cn gn m' Hp Hcn Hgn Hr IH]; intros i n Hn.
  - exists n. split; [done|]. apply Forall_Forall2_diag, Forall_forall. auto.
  - destruct (IH _ _ (reorder_port_lookup_old p cn gn m i n Hn)) as (n' & Hn' & Ha).
    exists n'. split; [done|]. unfold subst_node in Ha. cbn [arguments] in Ha.
    rewrite Forall2_fmap_l in Ha. eapply Forall2_impl; [exact Ha|].
    intros a a'. unfold compose, subst_output. rewrite reorder_port_length.
    destruct (decide (a = p)) as [->|Hne].
    + intros [->|(_ & g & -> & Hg)]; right; (split; [by left|]); eexists; (split; [done|]); lia.
    + intros [->|(Hin & g & -> & Hg)]; [by left|right].
      split; [by right|]. exists g. split; [done|lia].
Qed.

Section FuserFurther.

Variable E : Engine.

(** After a successful run the cache-reorder query answers true. *)
Theorem fuse_cache_reorder_sets_cache_reorder
    (kv : list string) (gather_dim : Z) (st st' : State) :
  fuse_cache_reorder E kv gather_dim st = (Ok tt, st') →
  model_has_cache_reorder (ov_model st') = true.
Proof.
  intros H.
  destruct (fuse_cache_reorder_beam_input E _ _ _ _ H)
    as (_ & _ & _ & d & _ & _ & _ & _ & _ & _ & _ & _ & _ & Hinputs & Hbeam & _).
  apply bool_decide_eq_true, elem_of_concat.
  exists (get_names (ov_model st') (length (nodes (ov_model st)), 0%nat)). split.
  - apply list_elem_of_fmap. eexists. split; [done|]. rewrite Hinputs.
    apply elem_of_app. right. by left.
  - unfold get_names. rewrite Hbeam. by left.
Qed.

(** A successful run keeps the Result nodes and the sinks of the graph, so
    the state query answers as before, and it prints nothing. *)
Theorem fuse_cache_reorder_keeps_outputs_and_state
    (kv : list string) (gather_dim : Z) (st st' : State) :
  fuse_cache_reorder E kv gather_dim st = (Ok tt, st') →
  model_outputs (ov_model st') = model_outputs (ov_model st) ∧
  sinks (ov_model st') = sinks (ov_model st) ∧
  model_has_state (ov_model st') = model_has_state (ov_model st) ∧
  stdout st' = stdout st.
Proof.
  intros H.
  destruct (fuse_cache_reorder_beam_input E _ _ _ _ H)
    as (_ & _ & _ & d & m1 & m2 & ports & _ & _ & _ & -> & Hr & Hrv & _ & _ & _ & Hout).
  destruct (reordered_lists _ _ _ _ _ _ Hr) as (_ & Hres & Hsinks). simpl in Hres, Hsinks.
  pose proof (rv_results _ _ Hrv) as Hres'. pose proof (rv_sinks _ _ Hrv) as Hsinks'.
  unfold model_outputs, model_has_state. rewrite Hres', Hres, Hsinks', Hsinks. done.
Qed.

(** An input slot that did not read the port of a key-value name reads
    after a successful run what it read before, also when names repeat. *)
Theorem fuse_cache_reorder_keeps_other_edges
    (kv : list string) (gather_dim : Z) (st st' : State) (ports : list Output) :
  wf_inputs (ov_model st) →
  Forall2 (λ name p, model_input (ov_model st) name = Some p) kv ports →
  fuse_cache_reorder E kv gather_dim st = (Ok tt, st') →
  ∀ consumer a,
    source_output (ov_model st) consumer = Some a → a ∉ ports →
    source_output (ov_model st') consumer = Some a.
Proof.
  intros Hwf Hports H [i k] a Hsrc Hnot.
  destruct (fuse_cache_reorder_beam_input E _ _ _ _ H)
    as (_ & _ & _ & d & m1 & m2 & ports0 & _ & _ & _ & Hm1 & Hr & Hrv & _).
  assert (ports0 = ports) as ->.
  { eapply (reordered_ports (ov_model st) [length (nodes (ov_model st))]);
      [by apply wf_inputs_in_range| | |exact Hr|done].
    - by subst m1.
    - intros j Hj. subst m1. simpl. by rewrite lookup_app_l. }
  unfold source_output in *. cbn [fst snd] in *.
  destruct (nodes (ov_model st) !! i) as [n|] eqn:Hn; [|done]. simpl in Hsrc.
  assert (nodes m1 !! i = Some n) as Hn1 by (subst m1; simpl; by apply lookup_app_l_Some).
  destruct (reordered_old_arguments _ _ _ _ _ _ Hr _ _ Hn1) as (n2 & Hn2 & Hargs).
  destruct (Forall2_lookup_l _ _ _ _ _ Hargs Hsrc) as (a' & Ha' & [->|[Hin _]]); [|done].
  destruct (revalidated_lookup _ _ _ _ Hrv Hn2) as (n' & Hn' & Hrn).
  rewrite Hn'. simpl. by rewrite (rv_arguments _ _ Hrn).
Qed.

End FuserFurther.

Lemma fuse_cache_reorder_sets_cache_reorder_witness :
  fuse_cache_reorder demo_engine ["past_key"] 0 demo_state = (Ok tt, demo_fused_state) ∧
  model_has_cache_reorder demo_model = false ∧
  model_has_cache_reorder (ov_model demo_fused_state) = true.
Proof.
  assert (fuse_cache_reorder demo_engine ["past_key"] 0 demo_state = (Ok tt, demo_fused_state))
    as Hrun by (vm_compute; reflexivity).
  split_and!; [done|reflexivity|].
  apply (fuse_cache_reorder_sets_cache_reorder demo_engine ["past_key"] 0
           demo_state demo_fused_state Hrun).
Defined.

Lemma fuse_cache_reorder_keeps_outputs_and_state_witness :
  fuse_cache_reorder demo_engine ["past_key"] 0 demo_state = (Ok tt, demo_fused_state) ∧
  model_outputs (ov_model demo_fused_state) = [(3, 0); (4, 0)]%nat ∧
  sinks (ov_model demo_fused_state) = [] ∧
  model_has_state (ov_model demo_fused_state) = false ∧
  stdout demo_fused_state = [].
Proof.
  assert (fuse_cache_reorder demo_engine ["past_key"] 0 demo_state = (Ok tt, demo_fused_state))
    as Hrun by (vm_compute; reflexivity).
  split; [done|].
  apply (fuse_cache_reorder_keeps_outputs_and_state demo_engine ["past_key"] 0
           demo_state demo_fused_state Hrun).
Defined.

Lemma fuse_cache_reorder_keeps_other_edges_witness :
  wf_inputs demo_model ∧
  Forall2 (λ name p, model_input demo_model name = Some p) ["past_key"] [(1, 0)%nat] ∧
  fuse_cache_reorder demo_engine ["past_key"] 0 demo_state = (Ok tt, demo_fused_state) ∧
  source_output demo_model (2, 0)%nat = Some (0, 0)%nat ∧
  ((0, 0)%nat ∉ [(1, 0)%nat]) ∧
  source_output (ov_model demo_fused_state) (2, 0)%nat = Some (0, 0)%nat.
Proof.
  assert (wf_inputs demo_model) as Hwf by (repeat constructor; by eexists).
  assert (Forall2 (λ name p, model_input demo_model name = Some p) ["past_key"] [(1, 0)%nat])
    as Hports by (repeat constructor).
  assert (fuse_cache_reorder demo_engine ["past_key"] 0 demo_state = (Ok tt, demo_fused_state))
    as Hrun by (vm_compute; reflexivity).
  assert ((0, 0)%nat ∉ [(1, 0)%nat]) as Hnot by (by intros ?%list_elem_of_singleton).
  split_and!; [done|done|done|reflexivity|done|].
  apply (fuse_cache_reorder_keeps_other_edges demo_engine ["past_key"] 0
           demo_state demo_fused_state [(1, 0)%nat] Hwf Hports Hrun (2, 0)%nat (0, 0)%nat
           eq_refl Hnot).
Defined.

(** ** Names and layout after the fuser *)

Lemma filter_none {A} (P : A → Prop) `{!∀ x, Decision (P x)} (l : list A) :
  (∀ x, x ∈ l → ¬ P x) → filter P l = [].
Proof.
  induction l as [|a l IH]; intros Hno; [done|].
  rewrite filter_cons_False by (apply Hno; by left).
  apply IH. intros x Hx. apply Hno. by right.
Qed.

Lemma model_input_same m0 m name :
  in_range m0 → parameters m = parameters m0 → outputs_agree m0 m →
  model_input m name = model_input m0 name.
Proof.
  intros Hrange Hpar Hagree. unfold model_input, model_inputs. rewrite Hpar. f_equal.
  apply filter_ext_elem. intros o (i & -> & Hi)%list_elem_of_fmap.
  rewrite (get_names_agree m0 m); [done| |done].
  simpl. unfold in_range in Hrange. rewrite Forall_forall in Hrange. by apply Hrange.
Qed.

(** Adding the [beam_idx] Parameter changes the input no other name
    resolves to. *)
Lemma model_input_add_beam m d name :
  in_range m → name ≠ "beam_idx" →
  model_input (mkModel (nodes m ++ [beam_idx_node d]) (parameters m ++ [length (nodes m)])
                       (results m) (sinks m)) name = model_input m name.
Proof.
  intros Hrange Hname. set (m1 := mkModel _ _ _ _).
  assert (outputs_agree m m1) as Hagree.
  { intros i Hi. subst m1. simpl. by rewrite lookup_app_l. }
  unfold model_input, model_inputs. subst m1. cbn [parameters]. rewrite fmap_app, filter_app.
  set (m1 := mkModel _ _ _ _) in *.
  change ((λ p, (p, 0%nat)) <$> [length (nodes m)]) with [(length (nodes m), 0%nat)].
  rewrite (filter_cons_False _ (length (nodes m), 0%nat)), filter_nil, app_nil_r.
  - f_equal. apply filter_ext_elem. intros o (i & -> & Hi)%list_elem_of_fmap.
    rewrite (get_names_agree m m1); [done| |done].
    simpl. unfold in_range in Hrange. rewrite Forall_forall in Hrange. by apply Hrange.
  - unfold get_names, get_tensor. subst m1. cbn [fst snd nodes].
    rewrite lookup_app_r by lia. rewrite Nat.sub_diag. simpl.
    by intros ->%list_elem_of_singleton.
Qed.

Lemma reordered_resolved m0 b gd kv ports m m' :
  in_range m0 → parameters m = parameters m0 → outputs_agree m0 m →
  reordered b gd kv ports m m' →
  Forall2 (λ name p, model_input m0 name = Some p) kv ports.
Proof.
  intros Hrange Hpar Hagree Hr. revert Hpar Hagree.
  induction Hr as [|name names p ps m cn gn m' Hp Hcn Hgn Hr IH]; intros Hpar Hagree.
  - constructor.
  - constructor.
    + by rewrite <- (model_input_same m0 m).
    + apply IH; [done|]. by apply outputs_agree_reorder_port.
Qed.

(** The complete layout of the store after the loop, when the ports are
    pairwise distinct: turn [k] put its constant and its gather at the next
    two indices, the gather still reads the port of its turn, and an old
    argument reads what it read or the gather of the port it read. *)
Lemma reordered_layout b gd kv ports m m' :
  reordered b gd kv ports m m' →
  NoDup ports → (∀ p, p ∈ ports → (p.1 < b)%nat) → (b < length (nodes m))%nat →
  length (nodes m') = (length (nodes m) + 2 * length ports)%nat ∧
  (∀ i n, nodes m !! i = Some n →
     ∃ n', nodes m' !! i = Some n' ∧
       Forall2 (λ a a', ((a ∉ ports) ∧ a' = a) ∨
                        ∃ k, ports !! k = Some a ∧ a' = (length (nodes m) + 2 * k + 1, 0)%nat)
               (arguments n) (arguments n')) ∧
  (∀ k p, ports !! k = Some p →
     ∃ cn gn,
       nodes m' !! (length (nodes m) + 2 * k)%nat = Some cn ∧ is_axis_constant gd cn ∧
       nodes m' !! (length (nodes m) + 2 * k + 1)%nat = Some gn ∧
       is_gather p (b, 0%nat) (length (nodes m) + 2 * k, 0)%nat gn).
Proof.
  induction 1 as [|name names p ps m cn gn m' Hp Hcn Hgn Hr IH]; intros Hnd Hlt Hb.
  - split_and!.
    + simpl. lia.
    + intros i n Hn. exists n. split; [done|]. apply Forall_Forall2_diag, Forall_forall.
      intros a _. left. split; [apply not_elem_of_nil|done].
    + intros k p Hk. done.
  - apply NoDup_cons in Hnd as [Hpps Hnd].
    assert (∀ q, q ∈ ps → (q.1 < b)%nat) as Hlt' by (intros q Hq; apply Hlt; by right).
    assert (b < length (nodes (reorder_port p cn gn m)))%nat as Hb'
      by (rewrite reorder_port_length; lia).
    destruct (IH Hnd Hlt' Hb') as (Hlen & Hold & Hnew). clear IH.
    rewrite reorder_port_length in Hlen, Hold, Hnew.
    assert (∀ a a', a ∉ ps →
              ((a ∉ ps) ∧ a' = a) ∨
              (∃ k, ps !! k = Some a ∧ a' = (S (S (length (nodes m))) + 2 * k + 1, 0)%nat) →
              a' = a) as Hfix.
    { intros a a' Hnot [[_ ->]|(k & Hk & _)]; [done|].
      destruct Hnot. apply list_elem_of_lookup. eauto. }
    split_and!.
    + rewrite Hlen. simpl. lia.
    + intros i n Hn.
      destruct (Hold _ _ (reorder_port_lookup_old p cn gn m i n Hn)) as (n' & Hn' & Ha).
      exists n'. split; [done|]. unfold subst_node in Ha. cbn [arguments] in Ha.
      rewrite Forall2_fmap_l in Ha. eapply Forall2_impl; [exact Ha|].
      intros a a'. unfold compose, subst_output.
      destruct (decide (a = p)) as [->|Hne].
      * intros Hrel. apply Hfix in Hrel.
        -- right. exists 0%nat. split; [done|]. rewrite Hrel. f_equal. lia.
        -- intros Hin%Hlt'. simpl in Hin. lia.
      * intros [[Hnin ->]|(k & Hk & ->)].
        -- left. split; [|done]. intros [?|?]%elem_of_cons; done.
        -- right. exists (S k). split; [done|]. f_equal. lia.
    + intros [|k] q Hk.
      * simpl in Hk. injection Hk as <-.
        replace (length (nodes m) + 2 * 0)%nat with (length (nodes m)) by lia.
        replace (length (nodes m) + 1)%nat with (S (length (nodes m))) by lia.
        destruct (Hold _ _ (reorder_port_lookup_constant p cn gn m)) as (cn' & Hcn' & Hca).
        destruct (Hold _ _ (reorder_port_lookup_gather p cn gn m)) as (gn' & Hgn' & Hga).
        destruct (reordered_structure _ _ _ _ _ _ Hr _ _ (reorder_port_lookup_constant p cn gn m))
          as (cn'' & Hcn'' & Hct & _ & Hcattr).
        rewrite Hcn' in Hcn''. injection Hcn'' as <-.
        destruct (reordered_structure _ _ _ _ _ _ Hr _ _ (reorder_port_lookup_gather p cn gn m))
          as (gn'' & Hgn'' & Hgt & _).
        rewrite Hgn' in Hgn''. injection Hgn'' as <-.
        destruct Hcn as (Hcnt & Hcna & Hcnat). destruct Hgn as (Hgnt & Hgna).
        rewrite Hcna in Hca. apply Forall2_nil_inv_l in Hca.
        rewrite Hgna in Hga.
        apply Forall2_cons_inv_l in Hga as (a1 & l1 & H1 & Hga & Hargs).
        apply Forall2_cons_inv_l in Hga as (a2 & l2 & H2 & Hga & ->).
        apply Forall2_cons_inv_l in Hga as (a3 & l3 & H3 & Hga & ->).
        apply Forall2_nil_inv_l in Hga as ->.
        apply Hfix in H1; [|done].
        apply Hfix in H2; [|intros Hin%Hlt'; simpl in Hin; lia].
        apply Hfix in H3; [|intros Hin%Hlt'; simpl in Hin; lia].
        subst a1 a2 a3.
        exists cn', gn'. split_and!; [done| |done|].
        -- split_and!; [by rewrite Hct|done|by rewrite Hcattr].
        -- split; [by rewrite Hgt|done].
      * simpl in Hk. destruct (Hnew k q Hk) as (cn' & gn' & Hcn' & Hc & Hgn' & Hg).
        replace (length (nodes m) + 2 * S k)%nat
          with (S (S (length (nodes m))) + 2 * k)%nat by lia.
        by exists cn', gn'.
Qed.

Section FuserLayout.

Variable E : Engine.

(** On a well-formed graph a successful run leaves the tensor names of the
    old inputs as they were. *)
Lemma fuse_cache_reorder_old_input_names kv gd st st' i :
  wf_inputs (ov_model st) →
  fuse_cache_reorder E kv gd st = (Ok tt, st') →
  i ∈ parameters (ov_model st) →
  get_names (ov_model st') (i, 0%nat) = get_names (ov_model st) (i, 0%nat).
Proof.
  intros Hwf H Hi.
  destruct (fuse_cache_reorder_beam_input E _ _ _ _ H)
    as (_ & _ & _ & d & m1 & m2 & ports & _ & _ & _ & Hm1 & Hr & Hrv & _).
  unfold wf_inputs in Hwf. rewrite Forall_forall in Hwf. specialize (Hwf i Hi).
  unfold declares in Hwf. destruct (nodes (ov_model st) !! i) as [n|] eqn:Hn; [|done].
  destruct Hwf as [[ty sh] Hdecl].
  assert (nodes m1 !! i = Some n) as Hn1.
  { subst m1. simpl. by apply lookup_app_l_Some. }
  destruct (reordered_structure _ _ _ _ _ _ Hr _ _ Hn1) as (n2 & Hn2 & _ & Ho2 & Ha2).
  destruct (revalidated_lookup _ _ _ _ Hrv Hn2) as (n' & Hn' & Hrn).
  unfold get_names, get_tensor. cbn [fst snd]. rewrite Hn', Hn. simpl.
  rewrite (rv_parameter _ _ Hrn ty sh), Ho2 by (unfold declared in *; by rewrite Ha2).
  rewrite list_lookup_fmap. by destruct (outputs n !! 0%nat).
Qed.

(** A successful run resolved every key-value name in the graph that holds
    the new Parameter. *)
Lemma fuse_cache_reorder_names_resolve kv gd st st' name :
  wf_inputs (ov_model st) →
  fuse_cache_reorder E kv gd st = (Ok tt, st') →
  name ∈ kv → name ≠ "beam_idx" → is_Some (model_input (ov_model st) name).
Proof.
  intros Hwf H Hin Hname.
  destruct (fuse_cache_reorder_beam_input E _ _ _ _ H)
    as (_ & _ & _ & d & m1 & m2 & ports & _ & _ & _ & Hm1 & Hr & _).
  pose proof (wf_inputs_in_range _ Hwf) as Hrange.
  assert (in_range m1) as Hrange1.
  { subst m1. unfold in_range in *. cbn [nodes parameters]. rewrite length_app.
    apply Forall_app. split.
    - eapply Forall_impl; [exact Hrange|]. intros j Hj. simpl in *. lia.
    - apply Forall_singleton. simpl. lia. }
  assert (outputs_agree m1 m1) as Hagree by (by intros j _).
  pose proof (reordered_resolved m1 _ _ _ _ _ _ Hrange1 eq_refl Hagree Hr) as Hres.
  apply list_elem_of_lookup in Hin as [k Hk].
  destruct (Forall2_lookup_l _ _ _ _ _ Hres Hk) as (p & _ & Hp).
  exists p. rewrite <- Hp. subst m1. symmetry. by apply model_input_add_beam.
Qed.

(** A key-value name that no input of the graph carries makes
    [fuse_cache_reorder] raise; the one exception is the name [beam_idx],
    which resolves to the Parameter the function itself adds. *)
Theorem fuse_cache_reorder_missing_name_raises
    (kv : list string) (gather_dim : Z) (st : State) (name : string) :
  wf_inputs (ov_model st) →
  name ∈ kv → name ≠ "beam_idx" →
  model_has_input (ov_model st) name = false →
  ∃ e st', fuse_cache_reorder E kv gather_dim st = (Raise e, st').
Proof.
  intros Hwf Hin Hname Hmissing%model_input_None.
  destruct (fuse_cache_reorder E kv gather_dim st) as [[[]|e] st'] eqn:H; [|by eauto].
  destruct (fuse_cache_reorder_names_resolve _ _ _ _ _ Hwf H Hin Hname) as [p Hp].
  congruence.
Qed.

(** On a well-formed graph a successful run leaves every input name
    resolving to the input it resolved to, and [beam_idx] resolves to the new
    input; so the key-value names [make_stateful] looks up afterwards find the
    Parameters they named before. *)
Theorem fuse_cache_reorder_keeps_input_names
    (kv : list string) (gather_dim : Z) (st st' : State) :
  wf_inputs (ov_model st) →
  fuse_cache_reorder E kv gather_dim st = (Ok tt, st') →
  (∀ name, name ≠ "beam_idx" →
     model_input (ov_model st') name = model_input (ov_model st) name) ∧
  model_input (ov_model st') "beam_idx" = Some (length (nodes (ov_model st)), 0%nat).
Proof.
  intros Hwf H.
  pose proof (λ i, fuse_cache_reorder_old_input_names _ _ _ _ i Hwf H) as Hnames.
  destruct (fuse_cache_reorder_beam_input E _ _ _ _ H)
    as (Hassert & _ & _ & d & _ & _ & _ & _ & _ & _ & _ & _ & _ & Hinputs & Hbeam & _).
  assert (get_names (ov_model st') (length (nodes (ov_model st)), 0%nat) = ["beam_idx"])
    as Hb by (unfold get_names; by rewrite Hbeam).
  assert (∀ name,
            filter (λ o, name ∈ get_names (ov_model st') o) (model_inputs (ov_model st)) =
            filter (λ o, name ∈ get_names (ov_model st) o) (model_inputs (ov_model st)))
    as Hold.
  { intros name. apply filter_ext_elem. intros o (i & -> & Hi)%list_elem_of_fmap.
    by rewrite Hnames. }
  split.
  - intros name Hname. unfold model_input. rewrite Hinputs, filter_app, Hold.
    rewrite filter_cons_False, filter_nil, app_nil_r; [done|].
    rewrite Hb. by intros ->%list_elem_of_singleton.
  - unfold model_input. rewrite Hinputs, filter_app, Hold.
    assert (filter (λ o, "beam_idx" ∈ get_names (ov_model st) o) (model_inputs (ov_model st))
            = []) as ->.
    { apply filter_none. intros o Ho Hin.
      apply (model_has_name_false _ _ Hassert o); [apply elem_of_app; by left|done]. }
    rewrite filter_cons_True, filter_nil; [done|]. rewrite Hb. by left.
Qed.

(** When the key-value names resolve to pairwise distinct ports, after a
    successful run nothing reads the port of a key-value name directly but
    a gather the run made: an input slot that reads such a port is the data
    slot of a Gather that was not in the graph before, whose indices are
    [beam_idx] and whose axis is a constant holding [gather_dim]. *)
Theorem fuse_cache_reorder_only_gathers_read_ports
    (kv : list string) (gather_dim : Z) (st st' : State) (ports : list Output) :
  wf_inputs (ov_model st) →
  Forall2 (λ name p, model_input (ov_model st) name = Some p) kv ports →
  NoDup ports →
  fuse_cache_reorder E kv gather_dim st = (Ok tt, st') →
  let m := ov_model st in
  let m' := ov_model st' in
  let b := length (nodes m) in
  ∀ consumer p, p ∈ ports → source_output m' consumer = Some p →
    nodes m !! consumer.1 = None ∧ consumer.2 = 0%nat ∧
    ∃ gn c cn,
      nodes m' !! consumer.1 = Some gn ∧ is_gather p (b, 0%nat) (c, 0%nat) gn ∧
      nodes m' !! c = Some cn ∧ is_axis_constant gather_dim cn.
Proof.
  intros Hwf Hports Hnd H m m' b.
  destruct (fuse_cache_reorder_beam_input E _ _ _ _ H)
    as (_ & _ & _ & d & m1 & m2 & ports0 & _ & _ & _ & Hm1 & Hr & Hrv & _).
  fold m m' b in Hm1, Hrv.
  pose proof (wf_inputs_in_range _ Hwf) as Hrange. fold m in Hrange, Hwf, Hports.
  assert (ports0 = ports) as ->.
  { eapply (reordered_ports m [b]); [done| | |exact Hr|done].
    - by subst m1.
    - intros j Hj. subst m1. simpl. by rewrite lookup_app_l. }
  assert (∀ p, p ∈ ports → (p.1 < b)%nat) as Hlt.
  { intros p Hp. apply list_elem_of_lookup in Hp as [j Hj].
    destruct (Forall2_lookup_r _ _ _ _ _ Hports Hj) as (name & _ & Hname).
    apply model_input_Some in Hname as [_ Hname]. by eapply get_names_elem_lt. }
  assert (length (nodes m1) = S b) as Hlen1.
  { subst m1. cbn [nodes]. rewrite length_app. simpl. subst b. lia. }
  assert (b < length (nodes m1))%nat as Hb by lia.
  destruct (reordered_layout _ _ _ _ _ _ Hr Hnd Hlt Hb) as (Hlen & Hold & Hnew).
  rewrite Hlen1 in Hlen, Hold, Hnew.
  pose proof (Forall2_length _ _ _ Hports) as Hkvlen.
  assert (∀ k p, ports !! k = Some p →
     ∃ cn gn,
       nodes m' !! (b + 1 + 2 * k)%nat = Some cn ∧ is_axis_constant gather_dim cn ∧
       nodes m' !! (b + 2 + 2 * k)%nat = Some gn ∧
       is_gather p (b, 0%nat) (b + 1 + 2 * k, 0)%nat gn) as Hnew'.
  { intros k p Hk. destruct (Hnew k p Hk) as (cn & gn & Hcn & Hc & Hgn & Hg).
    destruct (revalidated_lookup _ _ _ _ Hrv Hcn) as (cn' & Hcn' & Hrc).
    destruct (revalidated_lookup _ _ _ _ Hrv Hgn) as (gn' & Hgn' & Hrg).
    destruct Hc as (Hct & Hca & Hcattr). destruct Hg as (Hgt & Hga).
    exists cn', gn'.
    replace (b + 1 + 2 * k)%nat with (S b + 2 * k)%nat by lia.
    replace (b + 2 + 2 * k)%nat with (S b + 2 * k + 1)%nat by lia.
    split_and!; [done| |done|].
    - split_and!; [by rewrite (rv_type_name _ _ Hrc)|by rewrite (rv_arguments _ _ Hrc)|
                   by rewrite (rv_attributes _ _ Hrc)].
    - split; [by rewrite (rv_type_name _ _ Hrg)|by rewrite (rv_arguments _ _ Hrg)]. }
  intros [i j] p Hp Hsrc. unfold source_output in Hsrc. cbn [fst snd] in *.
  destruct (nodes m' !! i) as [n'|] eqn:Hn'; [|done]. simpl in Hsrc.
  assert (i < S b + 2 * length ports)%nat as Hi.
  { apply lookup_lt_Some in Hn'. rewrite (revalidated_length _ _ Hrv), Hlen in Hn'. done. }
  specialize (Hlt p Hp).
  destruct (decide (i < S b)%nat) as [Hi1|Hi1].
  - (* a node that was there before the loop *)
    assert (is_Some (nodes m1 !! i)) as [n Hn] by (apply lookup_lt_is_Some; lia).
    destruct (Hold _ _ Hn) as (n2 & Hn2 & Hargs).
    destruct (revalidated_lookup _ _ _ _ Hrv Hn2) as (n'' & Hn'' & Hrn).
    rewrite Hn' in Hn''. injection Hn'' as <-. rewrite (rv_arguments _ _ Hrn) in Hsrc.
    destruct (Forall2_lookup_r _ _ _ _ _ Hargs Hsrc) as (a & Ha & [[Hnot ->]|(k & _ & Hk)]).
    + done.
    + subst p. simpl in Hlt. lia.
  - (* a node the loop added *)
    assert (nodes m !! i = None) as Hnew_node by (apply lookup_ge_None; fold b; lia).
    destruct (Nat.Even_or_Odd (i - S b)) as [[k Hk]|[k Hk]].
    + assert (is_Some (ports !! k)) as [q Hq] by (apply lookup_lt_is_Some; lia).
      destruct (Hnew' k q Hq) as (cn & _ & Hcn & (_ & Hca & _) & _).
      replace (b + 1 + 2 * k)%nat with i in Hcn by lia.
      rewrite Hn' in Hcn. injection Hcn as <-. by rewrite Hca in Hsrc.
    + assert (is_Some (ports !! k)) as [q Hq] by (apply lookup_lt_is_Some; lia).
      destruct (Hnew' k q Hq) as (cn & gn & Hcn & Hc & Hgn & Hg).
      replace (b + 2 + 2 * k)%nat with i in Hgn by lia.
      rewrite Hn' in Hgn. injection Hgn as <-. pose proof Hg as (_ & Hga).
      rewrite Hga in Hsrc.
      destruct j as [|[|[|j]]]; simpl in Hsrc; [| | |done].
      * injection Hsrc as ->. split_and!; [done|done|]. by exists n', (b + 1 + 2 * k)%nat, cn.
      * injection Hsrc as <-. simpl in Hlt. lia.
      * injection Hsrc as <-. simpl in Hlt. lia.
Qed.

End FuserLayout.

Lemma fuse_cache_reorder_missing_name_raises_witness :
  wf_inputs demo_model ∧
  "past_value" ∈ ["past_key"; "past_value"] ∧
  "past_value" ≠ "beam_idx" ∧
  model_has_input demo_model "past_value" = false ∧
  ∃ e st', fuse_cache_reorder demo_engine ["past_key"; "past_value"] 0 demo_state = (Raise e, st').
Proof.
  assert (wf_inputs demo_model) as Hwf by (repeat constructor; by eexists).
  assert ("past_value" ∈ ["past_key"; "past_value"]) as Hin by (right; by left).
  assert ("past_value" ≠ "beam_idx") as Hname by done.
  assert (model_has_input demo_model "past_value" = false) as Hmissing by reflexivity.
  split_and!; [done..|].
  apply (fuse_cache_reorder_missing_name_raises demo_engine ["past_key"; "past_value"] 0
           demo_state "past_value" Hwf Hin Hname Hmissing).
Defined.

Lemma fuse_cache_reorder_keeps_input_names_witness :
  wf_inputs demo_model ∧
  fuse_cache_reorder demo_engine ["past_key"] 0 demo_state = (Ok tt, demo_fused_state) ∧
  (∀ name, name ≠ "beam_idx" →
     model_input (ov_model demo_fused_state) name = model_input demo_model name) ∧
  model_input (ov_model demo_fused_state) "beam_idx" = Some (5, 0)%nat.
Proof.
  assert (wf_inputs demo_model) as Hwf by (repeat constructor; by eexists).
  assert (fuse_cache_reorder demo_engine ["past_key"] 0 demo_state = (Ok tt, demo_fused_state))
    as Hrun by (vm_compute; reflexivity).
  split_and!; [done|done|..];
    apply (fuse_cache_reorder_keeps_input_names demo_engine ["past_key"] 0
             demo_state demo_fused_state Hwf Hrun).
Defined.

Lemma fuse_cache_reorder_only_gathers_read_ports_witness :
  wf_inputs demo_model ∧
  Forall2 (λ name p, model_input demo_model name = Some p) ["past_key"] [(1, 0)%nat] ∧
  NoDup [(1, 0)%nat] ∧
  fuse_cache_reorder demo_engine ["past_key"] 0 demo_state = (Ok tt, demo_fused_state) ∧
  source_output (ov_model demo_fused_state) (7, 0)%nat = Some (1, 0)%nat ∧
  ∀ consumer, source_output (ov_model demo_fused_state) consumer = Some (1, 0)%nat →
    nodes demo_model !! consumer.1 = None ∧ consumer.2 = 0%nat ∧
    ∃ gn c cn,
      nodes (ov_model demo_fused_state) !! consumer.1 = Some gn ∧
      is_gather (1, 0)%nat (5, 0)%nat (c, 0%nat) gn ∧
      nodes (ov_model demo_fused_state) !! c = Some cn ∧ is_axis_constant 0 cn.
Proof.
  assert (wf_inputs demo_model) as Hwf by (repeat constructor; by eexists).
  assert (Forall2 (λ name p, model_input demo_model name = Some p) ["past_key"] [(1, 0)%nat])
    as Hports by (repeat constructor).
  assert (NoDup [(1, 0)%nat]) as Hnd by apply NoDup_singleton.
  assert (fuse_cache_reorder demo_engine ["past_key"] 0 demo_state = (Ok tt, demo_fused_state))
    as Hrun by (vm_compute; reflexivity).
  split_and!; [done|done|done|done|reflexivity|].
  intros consumer Hsrc.
  apply (fuse_cache_reorder_only_gathers_read_ports demo_engine ["past_key"] 0 demo_state
           demo_fused_state [(1, 0)%nat] Hwf Hports Hnd Hrun consumer (1, 0)%nat);
    [by left|done].
Defined.

(** ** Further properties of the state initializer *)

Section InitializerFurther.

Variable E : Engine.

Lemma initialize_state_rank batch bd op st st' node :
  initialize_state E batch bd op st = (Ok tt, st') →
  nodes (ov_model st) !! op = Some node → type_name node = "ReadValue" →
  ∃ out, outputs node !! 0%nat = Some out ∧
         is_Some (py_index (length (partial_shape out)) bd).
Proof.
  unfold initialize_state. intros H Hnode Hty.
  ok_bind H m st1 Hm. ok_prim Hm.
  ok_bind H node' st1 Hnode'. ok_prim Hnode'. rewrite Hnode in Hnode'. injection Hnode' as <-.
  rewrite decide_True in H by done.
  ok_bind H out st1 Hout. ok_prim Hout. exists out. split; [done|].
  ok_bind H dims st1 Hdims. rewrite length_fmap in Hdims.
  by destruct (py_index (length (partial_shape out)) bd).
Qed.

Lemma initialize_loop_rank batch bd ops st st' :
  for_each ops (initialize_state E batch bd) st = (Ok tt, st') →
  ∀ op node, op ∈ ops → nodes (ov_model st) !! op = Some node →
    type_name node = "ReadValue" →
    ∃ out, outputs node !! 0%nat = Some out ∧
           is_Some (py_index (length (partial_shape out)) bd).
Proof.
  revert st. induction ops as [|op0 ops IH]; intros st H op node Hop Hnode Hty.
  - by apply elem_of_nil in Hop.
  - simpl in H. ok_bind H u st1 Hstep. destruct u.
    apply elem_of_cons in Hop as [->|Hop].
    { by eapply initialize_state_rank. }
    assert (∃ node1, nodes (ov_model st1) !! op = Some node1 ∧
                     type_name node1 = type_name node ∧ outputs node1 = outputs node)
      as (node1 & Hnode1 & Hty1 & Hout1).
    { apply initialize_state_Ok in Hstep as (node0 & Hnode0 & Hstep).
      case_decide as Hty0; [|subst st1; by exists node].
      destruct Hstep as (out & extra & init & k & _ & -> & _). cbn [ov_model set_nodes nodes].
      assert ((nodes (ov_model st) ++ extra) !! op = Some node) as Hnode'
        by (by apply lookup_app_l_Some).
      destruct (decide (op = op0)) as [->|Hne].
      - eexists. split; [by rewrite list_lookup_alter_eq, Hnode'|done].
      - exists node. by rewrite list_lookup_alter_ne. }
    destruct (IH _ H op node1 Hop Hnode1) as (out & Hout & Hbd); [congruence|].
    exists out. by rewrite <- Hout1.
Qed.

Lemma build_state_initializer_ranks bd st st' i n :
  build_state_initializer E bd st = (Ok tt, st') →
  nodes (ov_model st) !! i = Some n → type_name n = "ReadValue" →
  ∃ out, outputs n !! 0%nat = Some out ∧
         is_Some (py_index (length (partial_shape out)) bd).
Proof.
  intros H Hn Hty. unfold build_state_initializer in H.
  ok_bind H input_ids st1 Hin. apply input_by_name_Ok in Hin as [Hin ->].
  ok_bind H so st1 Hso. apply new_node_Ok in Hso as (outs1 & _ & -> & ->).
  ok_bind H ix st1 Hix. apply new_node_Ok in Hix as (outs2 & _ & -> & ->).
  ok_bind H ax st1 Hax. apply new_node_Ok in Hax as (outs3 & _ & -> & ->).
  ok_bind H batch st1 Hbatch. apply new_node_Ok in Hbatch as (outs4 & _ & -> & ->).
  ok_bind H m st1 Hm. ok_prim Hm.
  ok_bind H u st2 Hloop. destruct u. unfold get_ops in Hloop.
  cbn [ov_model not_kv_inputs stdout nodes set_nodes] in Hloop.
  apply (initialize_loop_rank _ _ _ _ _ Hloop i n); [| |done].
  - apply elem_of_seq. apply lookup_lt_Some in Hn. rewrite !length_app. simpl. lia.
  - cbn [ov_model nodes set_nodes]. rewrite <- !app_assoc. by apply lookup_app_l_Some.
Qed.

(** [build_state_initializer] rewires the ReadValue nodes and nothing
    else: a successful run keeps the inputs, outputs and sinks of the graph,
    the list of non-key-value inputs and the printed text; every node that is
    not a ReadValue keeps its type, arguments and attributes; and the nodes of
    type ReadValue are the same before and after. *)
Theorem build_state_initializer_frame (batch_dim : Z) (st st' : State) :
  build_state_initializer E batch_dim st = (Ok tt, st') →
  let m := ov_model st in
  let m' := ov_model st' in
  model_inputs m' = model_inputs m ∧ model_outputs m' = model_outputs m ∧
  sinks m' = sinks m ∧ model_has_state m' = model_has_state m ∧
  not_kv_inputs st' = not_kv_inputs st ∧ stdout st' = stdout st ∧
  keeps_ops (nodes m) (nodes m') ∧
  ∀ i, (∃ n', nodes m' !! i = Some n' ∧ type_name n' = "ReadValue") ↔
       (∃ n, nodes m !! i = Some n ∧ type_name n = "ReadValue").
Proof.
  intros H m m'. subst m m'.
  apply build_state_initializer_Ok in H
    as (input_ids & batch & _ & _ & Hrv & Hrv' & Hk & Hpar & Hres & Hsinks & Hnkv & Hout).
  unfold model_inputs, model_outputs, model_has_state. rewrite Hpar, Hres, Hsinks.
  split_and!; [done..|]. intros i. split.
  - intros (n' & Hn' & Hty). by apply (Hrv' i n').
  - intros (n & Hn & Hty).
    destruct (Hrv i n Hn Hty) as (out & init & n' & k & _ & Hn' & Hty' & _). by exists n'.
Qed.

(** A ReadValue node whose state has no axis [batch_dim] (or no output at
    all) makes [build_state_initializer] raise: the assignment
    [dims[batch_dim] = batch] is out of range. *)
Theorem build_state_initializer_rank_too_small_raises
    (batch_dim : nat) (st : State) (i : nat) (n : Node) :
  nodes (ov_model st) !! i = Some n → type_name n = "ReadValue" →
  (∀ out, outputs n !! 0%nat = Some out → (length (partial_shape out) ≤ batch_dim)%nat) →
  ∃ e st', build_state_initializer E (Z.of_nat batch_dim) st = (Raise e, st').
Proof.
  intros Hn Hty Hsmall.
  destruct (build_state_initializer E (Z.of_nat batch_dim) st) as [[[]|e] st'] eqn:H;
    [|by eauto].
  destruct (build_state_initializer_ranks _ _ _ _ _ H Hn Hty) as (out & Hout & [k Hk]).
  specialize (Hsmall out Hout).
  rewrite py_index_of_nat in Hk. case_decide; [lia|done].
Qed.

End InitializerFurther.

Lemma build_state_initializer_frame_witness :
  build_state_initializer demo_engine 0 demo_transformed_state =
    (Ok tt, (build_state_initializer demo_engine 0 demo_transformed_state).2) ∧
  model_inputs (ov_model (build_state_initializer demo_engine 0 demo_transformed_state).2) =
    [(0, 0)%nat] ∧
  sinks (ov_model (build_state_initializer demo_engine 0 demo_transformed_state).2) = [4%nat] ∧
  model_has_state (ov_model (build_state_initializer demo_engine 0 demo_transformed_state).2) =
    true.
Proof.
  set (st' := (build_state_initializer demo_engine 0 demo_transformed_state).2).
  assert (build_state_initializer demo_engine 0 demo_transformed_state = (Ok tt, st'))
    as Hrun by (vm_compute; reflexivity).
  destruct (build_state_initializer_frame demo_engine 0 demo_transformed_state st' Hrun)
    as (Hin & _ & Hsinks & Hstate & _).
  split_and!; [done|exact Hin|exact Hsinks|exact Hstate].
Defined.

Lemma build_state_initializer_rank_too_small_raises_witness :
  nodes (ov_model demo_transformed_state) !! 1%nat =
    Some (mkNode "ReadValue" []
            [mkTensor ["past_key"] [dynamic_dim; static_dim 8; dynamic_dim; static_dim 64] f32]
            ANone) ∧
  ∃ e st', build_state_initializer demo_engine 4 demo_transformed_state = (Raise e, st').
Proof.
  assert (nodes (ov_model demo_transformed_state) !! 1%nat =
    Some (mkNode "ReadValue" []
            [mkTensor ["past_key"] [dynamic_dim; static_dim 8; dynamic_dim; static_dim 64] f32]
            ANone)) as Hn by (vm_compute; reflexivity).
  split; [done|].
  apply (build_state_initializer_rank_too_small_raises demo_engine 4 demo_transformed_state
           1%nat _ Hn eq_refl).
  intros out [= <-]. simpl. lia.
Defined.

(** ** Further properties of [make_stateful] and [patch_stateful] *)

Lemma same_wiring_refl st : same_wiring st st.
Proof. unfold same_wiring. split_and!; try done. exists []. by rewrite app_nil_r. Qed.

Lemma same_wiring_trans st1 st2 st3 :
  same_wiring st1 st2 → same_wiring st2 st3 → same_wiring st1 st3.
Proof.
  intros (Hp & Hr & Hs & Ht & Ha & Hn & printed & Ho)
         (Hp' & Hr' & Hs' & Ht' & Ha' & Hn' & printed' & Ho').
  unfold same_wiring. split_and!; try congruence.
  exists (printed ++ printed'). by rewrite Ho', Ho, app_assoc.
Qed.

Lemma same_wiring_set_attributes st j n attrs :
  nodes (ov_model st) !! j = Some n →
  same_wiring st
    (mkState (set_nodes (<[j := mkNode (type_name n) (arguments n) (outputs n) attrs]>)
                        (ov_model st))
             (not_kv_inputs st) (stdout st)).
Proof.
  intros Hn. unfold same_wiring, set_nodes.
  cbn [ov_model not_kv_inputs stdout nodes parameters results sinks].
  split_and!; try done.
  - rewrite list_fmap_insert. apply list_insert_id. by rewrite list_lookup_fmap, Hn.
  - rewrite list_fmap_insert. apply list_insert_id. by rewrite list_lookup_fmap, Hn.
  - exists []. by rewrite app_nil_r.
Qed.

Lemma same_wiring_pinned_from rewrites st st' : pinned_from rewrites st st' → same_wiring st st'.
Proof.
  intros Hp. unfold same_wiring.
  split_and!; [apply Hp..| | |apply Hp|apply Hp].
  - apply list_eq. intros i. rewrite !list_lookup_fmap.
    destruct (nodes (ov_model st) !! i) as [n|] eqn:Hn.
    + destruct (pin_nodes _ _ _ Hp _ _ Hn) as (n' & -> & Ht & _). simpl. by rewrite Ht.
    + apply lookup_ge_None in Hn. rewrite <- (pin_length _ _ _ Hp) in Hn.
      apply lookup_ge_None in Hn. by rewrite Hn.
  - apply list_eq. intros i. rewrite !list_lookup_fmap.
    destruct (nodes (ov_model st) !! i) as [n|] eqn:Hn.
    + destruct (pin_nodes _ _ _ Hp _ _ Hn) as (n' & -> & _ & Ha & _). simpl. by rewrite Ha.
    + apply lookup_ge_None in Hn. rewrite <- (pin_length _ _ _ Hp) in Hn.
      apply lookup_ge_None in Hn. by rewrite Hn.
Qed.

Lemma revalidated_arguments m m' :
  revalidated m m' → arguments <$> nodes m' = arguments <$> nodes m.
Proof.
  intros [_ _ _ HF]. revert HF. generalize (nodes m) (nodes m'). intros l l' HF.
  induction HF as [|n n' ns ns' Hn HF IH]; [done|].
  rewrite !fmap_cons, IH. f_equal. by destruct Hn.
Qed.

Lemma pin_loop_same_wiring b l st st' :
  for_each l (pin_not_kv_input b) st = (Ok tt, st') → same_wiring st st'.
Proof.
  revert st. induction l as [|p l IH]; intros st H; simpl in H.
  - injection H as <-. apply same_wiring_refl.
  - ok_bind H u st1 Hbody. destruct u.
    eapply same_wiring_trans; [|by apply IH].
    apply pin_not_kv_input_Ok in Hbody as (t & Ht & Hbody). case_decide.
    + destruct Hbody as (_ & n & Hn & _ & ->). by apply same_wiring_set_attributes.
    + destruct Hbody as (name & _ & ->). unfold same_wiring. split_and!; try done.
      by eexists.
Qed.

Lemma foldl_insert_pair_last l acc i k v :
  l !! i = Some (k, v) →
  (∀ j k' v', (i < j)%nat → l !! j = Some (k', v') → k' ≠ k) →
  foldl insert_pair acc l !! k = Some v.
Proof.
  induction l as [|[k0 v0] l IH] using rev_ind; intros Hi Hlast; [done|].
  rewrite foldl_snoc. unfold insert_pair at 1. cbn [fst snd].
  destruct (decide (i < length l)%nat) as [Hlt|Hge].
  - rewrite lookup_app_l in Hi by done.
    rewrite lookup_insert_ne.
    + apply IH; [done|]. intros j k' v' Hj Hl. apply (Hlast j k' v' Hj).
      by apply lookup_app_l_Some.
    + apply (Hlast (length l) k0 v0 Hlt). by rewrite list_lookup_middle.
  - assert (i = length l) as ->.
    { apply lookup_lt_Some in Hi. rewrite length_app in Hi. simpl in Hi. lia. }
    rewrite list_lookup_middle in Hi by done. injection Hi as -> ->.
    by rewrite lookup_insert_eq.
Qed.

Lemma map_kv_pair_same_wiring bd heads nb acc pair st imap st' :
  map_kv_pair bd heads nb acc pair st = (Ok imap, st') →
  imap = insert_pair acc pair ∧ same_wiring st st'.
Proof.
  unfold map_kv_pair. destruct nb as [b|]; intros H.
  - ok_bind H p st1 Hp. apply input_by_name_Ok in Hp as [Hp ->].
    ok_bind H shape st1 Hshape. apply get_partial_shape_Ok in Hshape as [Hshape ->].
    ok_bind H shape' st1 Hset. unfold shape_setitem in Hset.
    destruct (py_index (length shape) bd) as [k|]; [|done]. injection Hset as <- <-.
    ok_bind H u st1 Hsps. destruct u. apply set_partial_shape_Ok in Hsps as (n & Hn & Hd & ->).
    injection H as <- <-. split; [done|]. by apply same_wiring_set_attributes.
  - injection H as <- <-. split; [done|apply same_wiring_refl].
Qed.

Lemma kv_loop_same_wiring bd heads nb pairs acc st imap st' :
  for_fold pairs (map_kv_pair bd heads nb) acc st = (Ok imap, st') →
  imap = foldl insert_pair acc pairs ∧ same_wiring st st'.
Proof.
  revert acc st. induction pairs as [|pair pairs IH]; intros acc st H; simpl in H.
  - injection H as <- <-. split; [done|apply same_wiring_refl].
  - ok_bind H acc1 st1 Hbody.
    apply map_kv_pair_same_wiring in Hbody as [-> Hw1].
    apply IH in H as [-> Hw2]. split; [done|]. by eapply same_wiring_trans.
Qed.

Section MakeStatefulFurther.

Variable E : Engine.

Lemma make_stateful_prepare_Ok kv_in kv_out bd heads nb st iom st1 :
  make_stateful_prepare E kv_in kv_out bd heads nb st = (Ok iom, st1) →
  iom = foldl insert_pair ∅ (zip kv_in kv_out) ∧ same_wiring st st1.
Proof.
  intros H. destruct nb as [b|].
  - unfold make_stateful_prepare in H.
    ok_bind H u sta Hpin. destruct u.
    ok_bind Hpin l st0 Hl. ok_prim Hl.
    ok_bind H iom' stb Hkv.
    ok_bind H u st1' Hval. destruct u. injection H as -> ->.
    apply pin_loop_same_wiring in Hpin.
    apply kv_loop_same_wiring in Hkv as [-> Hkv].
    apply validate_and_infer_Ok in Hval as (Hrv & Hnkv & Hout).
    split; [done|].
    eapply same_wiring_trans; [exact Hpin|]. eapply same_wiring_trans; [exact Hkv|].
    unfold same_wiring.
    rewrite (rv_parameters _ _ Hrv), (rv_results _ _ Hrv), (rv_sinks _ _ Hrv),
      (revalidated_type_names _ _ Hrv), (revalidated_arguments _ _ Hrv).
    split_and!; try done. exists []. by rewrite app_nil_r.
  - unfold make_stateful_prepare, bind, ret in H.
    rewrite for_fold_map_kv_pair_None in H. injection H as <- <-.
    split; [done|apply same_wiring_refl].
Qed.

(** Pinning the batch changes shapes only.  Whatever [num_beams_and_batch]
    is, when the statements of [make_stateful] before the engine's
    transformation complete, the graph has the inputs, outputs and sinks it
    had, every node has the type and the arguments it had, the list of
    non-key-value inputs is the same, and the printed text was only
    extended. *)
Theorem make_stateful_prepare_keeps_wiring
    (kv_in kv_out : list string) (batch_dim : Z) (heads : N) (nb : option N)
    (st st1 : State) (input_output_map : gmap string string) :
  make_stateful_prepare E kv_in kv_out batch_dim heads nb st = (Ok input_output_map, st1) →
  let m := ov_model st in
  let m1 := ov_model st1 in
  model_inputs m1 = model_inputs m ∧ model_outputs m1 = model_outputs m ∧
  sinks m1 = sinks m ∧ model_has_state m1 = model_has_state m ∧
  type_name <$> nodes m1 = type_name <$> nodes m ∧
  arguments <$> nodes m1 = arguments <$> nodes m ∧
  not_kv_inputs st1 = not_kv_inputs st ∧
  ∃ printed, stdout st1 = stdout st ++ printed.
Proof.
  intros H m m1. subst m m1.
  apply make_stateful_prepare_Ok in H as (_ & Hp & Hr & Hs & Ht & Ha & Hn & Ho).
  unfold model_inputs, model_outputs, model_has_state. rewrite Hp, Hr, Hs. done.
Qed.

(** The mapping is a Python dict filled in the order of the zipped names:
    when an input name occurs more than once, the output name paired with
    its last occurrence is the one handed to the transformation. *)
Theorem make_stateful_map_last_wins
    (kv_in kv_out : list string) (batch_dim : Z) (heads : N) (nb : option N)
    (st st1 : State) (input_output_map : gmap string string) (i : nat) (k v : string) :
  make_stateful_prepare E kv_in kv_out batch_dim heads nb st = (Ok input_output_map, st1) →
  kv_in !! i = Some k → kv_out !! i = Some v →
  (∀ j, (i < j)%nat → (j < length kv_out)%nat → kv_in !! j ≠ Some k) →
  input_output_map !! k = Some v.
Proof.
  intros H Hk Hv Hlast. apply make_stateful_prepare_Ok in H as (-> & _).
  apply (foldl_insert_pair_last _ _ i).
  - by apply lookup_zip_Some.
  - intros j k' v' Hj [Hk' Hv']%lookup_zip_Some ->.
    apply (Hlast j Hj); [by eapply lookup_lt_Some|done].
Qed.

End MakeStatefulFurther.

Lemma make_stateful_prepare_keeps_wiring_witness :
  make_stateful_prepare demo_engine ["past_key"] ["present_key"] 0 8 (Some 2%N) demo_state =
    (Ok demo_map, demo_pinned_state) ∧
  model_inputs (ov_model demo_pinned_state) = [(0, 0); (1, 0)]%nat ∧
  type_name <$> nodes (ov_model demo_pinned_state) =
    ["Parameter"; "Parameter"; "Attention"; "Result"; "Result"] ∧
  arguments <$> nodes (ov_model demo_pinned_state) =
    [[]; []; [(0, 0); (1, 0)]; [(2, 0)]; [(2, 1)]]%nat.
Proof.
  assert (make_stateful_prepare demo_engine ["past_key"] ["present_key"] 0 8 (Some 2%N) demo_state
          = (Ok demo_map, demo_pinned_state)) as Hprep by (vm_compute; reflexivity).
  destruct (make_stateful_prepare_keeps_wiring demo_engine ["past_key"] ["present_key"] 0 8
              (Some 2%N) demo_state demo_pinned_state demo_map Hprep)
    as (Hin & _ & _ & _ & Hty & Hargs & _).
  split_and!; [done|exact Hin|exact Hty|exact Hargs].
Defined.

Lemma make_stateful_map_last_wins_witness :
  make_stateful_prepare demo_engine ["past_key"; "past_key"] ["present_old"; "present_key"]
                        0 1 None demo_state =
    (Ok (<["past_key" := "present_key"]> (<["past_key" := "present_old"]> ∅)), demo_state) ∧
  (<["past_key" := "present_key"]> (<["past_key" := "present_old"]> ∅) : gmap string string)
    !! "past_key" = Some "present_key".
Proof.
  assert (make_stateful_prepare demo_engine ["past_key"; "past_key"]
            ["present_old"; "present_key"] 0 1 None demo_state =
          (Ok (<["past_key" := "present_key"]> (<["past_key" := "present_old"]> ∅)), demo_state))
    as Hprep by reflexivity.
  split; [done|].
  apply (make_stateful_map_last_wins demo_engine ["past_key"; "past_key"]
           ["present_old"; "present_key"] 0 1 None demo_state demo_state _ 1%nat
           "past_key" "present_key" Hprep eq_refl eq_refl).
  intros j Hj Hlen. simpl in Hlen. lia.
Defined.

Section PatchStatefulFurther.

Variable E : Engine.

(** End to end: a successful [patch_stateful] passed the version gate on a
    graph without a port named [beam_idx], printed nothing, and ran its three
    stages in order: the fuser on the inputs that carry no key-value name,
    the engine's transformation on the mapping of the zipped names, and the
    state initializer.  In the graph it leaves, every ReadValue node reads a
    zero-valued broadcast whose shape has the live batch extent of
    [input_ids] at index 1 for the family [chatglm] and at index 0 for every
    other family, and that index is within the rank of the state. *)
Theorem patch_stateful_initializes_states (model : PyModel) (st st' : State) :
  patch_stateful E model st = (Ok tt, st') →
  let m := ov_model st in
  let m' := ov_model st' in
  let kv_in := key_value_input_names model in
  let batch_dim := if decide (config_model_type model = "chatglm") then 1%nat else 0%nat in
  is_openvino_version E "<=" "2023.2" = false ∧
  model_has_name m "beam_idx" = false ∧
  stdout st' = stdout st ∧
  ∃ sf st2 input_ids batch,
    fuse_cache_reorder E kv_in (Z.of_nat batch_dim)
      (mkState m (filter (λ input, ¬ Exists (λ name, name ∈ kv_in) (get_names m input))
                         (model_inputs m))
               (stdout st)) = (Ok tt, sf) ∧
    make_stateful_transformation E
      (foldl insert_pair ∅ (zip kv_in (key_value_output_names model))) sf = (Ok tt, st2) ∧
    build_state_initializer E (Z.of_nat batch_dim) st2 = (Ok tt, st') ∧
    model_input (ov_model st2) "input_ids" = Some input_ids ∧
    batch_extent (nodes m') input_ids batch ∧
    ∀ i n', nodes m' !! i = Some n' → type_name n' = "ReadValue" →
      ∃ n out init,
        nodes (ov_model st2) !! i = Some n ∧ type_name n = "ReadValue" ∧
        outputs n !! 0%nat = Some out ∧ (batch_dim < length (partial_shape out))%nat ∧
        arguments n' = [(init, 0%nat)] ∧
        zero_initializer (nodes m') batch batch_dim out init.
Proof.
  intros H m m' kv_in batch_dim. unfold patch_stateful in H.
  assert ((if decide (config_model_type model = "chatglm") then 1 else 0) =
          Z.of_nat batch_dim) as Hbd by (subst batch_dim; by case_decide).
  rewrite Hbd in H.
  ok_bind H u st0 Hgate. unfold raise_if_openvino_is_too_old in Hgate.
  destruct (is_openvino_version E "<=" "2023.2") eqn:Hver; [done|].
  injection Hgate as _ <-.
  ok_bind H m0 st1 Hm. ok_prim Hm.
  ok_bind H u1 st1 Hset. ok_prim Hset.
  ok_bind H u2 sf Hfuse. destruct u2.
  fold m kv_in in Hfuse, H.
  unfold make_stateful in H. ok_bind H iom st1 Hprep.
  unfold make_stateful_prepare, bind, ret in Hprep.
  rewrite for_fold_map_kv_pair_None in Hprep. injection Hprep as <- <-.
  ok_bind H u3 st2 Htrans. destruct u3.
  destruct (fuse_cache_reorder_beam_input E _ _ _ _ Hfuse)
    as (Hassert & _ & _ & _ & _ & _ & _ & _ & _ & _ & _ & _ & _ & _ & _ & _ & Hout1).
  cbn [ov_model stdout] in Hassert, Hout1.
  assert (stdout st2 = stdout sf) as Hout2.
  { unfold make_stateful_transformation in Htrans.
    destruct (apply_make_stateful_transformation E _ _); [|done]. by injection Htrans as <-. }
  pose proof H as Hinit.
  apply build_state_initializer_Ok in Hinit
    as (input_ids & batch & Hin & Hbatch & Hrv & Hrv' & _ & _ & _ & _ & _ & Hout3).
  split_and!; [done|done|congruence|].
  exists sf, st2, input_ids, batch. split_and!; [done..|].
  intros i n' Hn' Hty. unfold m' in Hn'. destruct (Hrv' i n' Hn' Hty) as (n & Hn & Hnty).
  destruct (Hrv i n Hn Hnty) as (out & init & n'' & k & Ho & Hn'' & _ & Ha & Hk & Hz).
  rewrite py_index_of_nat in Hk. case_decide as Hlt; [|done]. injection Hk as <-.
  rewrite Hn' in Hn''. injection Hn'' as <-. by exists n, out, init.
Qed.

End PatchStatefulFurther.

Lemma patch_stateful_initializes_states_witness :
  patch_stateful demo_engine (mkPyModel ["past_key"] ["present_key"] "chatglm" 12) demo_state =
    (Ok tt, (patch_stateful demo_engine (mkPyModel ["past_key"] ["present_key"] "chatglm" 12)
                            demo_state).2) ∧
  is_openvino_version demo_engine "<=" "2023.2" = false ∧
  stdout (patch_stateful demo_engine (mkPyModel ["past_key"] ["present_key"] "chatglm" 12)
                         demo_state).2 = [].
Proof.
  set (model := mkPyModel ["past_key"] ["present_key"] "chatglm" 12).
  set (st' := (patch_stateful demo_engine model demo_state).2).
  assert (patch_stateful demo_engine model demo_state = (Ok tt, st'))
    as Hrun by (vm_compute; reflexivity).
  destruct (patch_stateful_initializes_states demo_engine model demo_state st' Hrun)
    as (Hver & _ & Hout & _).
  split_and!; [done|exact Hver|exact Hout].
Defined.

(** ** Invariants kept on every outcome *)

Lemma preserves_bind {A B} (I : State → Prop) (c : M A) (k : A → M B) :
  preserves I c → (∀ a, preserves I (k a)) → preserves I (bind c k).
Proof.
  intros Hc Hk st r st' H HI. unfold bind in H.
  destruct (c st) as [[a|e] st1] eqn:Hcst.
  - eapply Hk; [exact H|]. eapply Hc; eauto.
  - injection H as <- <-. eapply Hc; eauto.
Qed.

Lemma preserves_step {A} (I : State → Prop) (c : M A) :
  (∀ st, I st → I (c st).2) → preserves I c.
Proof. intros Hc st r st' H HI. specialize (Hc st HI). by rewrite H in Hc. Qed.

Lemma preserves_ret {A} (I : State → Prop) (a : A) : preserves I (ret a).
Proof. by apply preserves_step. Qed.

Lemma preserves_raise {A} (I : State → Prop) e : preserves I (raise (A := A) e).
Proof. by apply preserves_step. Qed.

Lemma preserves_from_option {A} (I : State → Prop) e (o : option A) :
  preserves I (from_option e o).
Proof. destruct o; [apply preserves_ret|apply preserves_raise]. Qed.

Lemma preserves_py_assert (I : State → Prop) b : preserves I (py_assert b).
Proof. destruct b; [apply preserves_ret|apply preserves_raise]. Qed.

Lemma preserves_get_model (I : State → Prop) : preserves I get_model.
Proof. by apply preserves_step. Qed.

Lemma preserves_get_not_kv_inputs (I : State → Prop) : preserves I get_not_kv_inputs.
Proof. by apply preserves_step. Qed.

Lemma preserves_for_each {A} (I : State → Prop) (l : list A) (body : A → M unit) :
  (∀ x, preserves I (body x)) → preserves I (for_each l body).
Proof.
  intros Hbody. induction l as [|x l IH]; simpl; [apply preserves_ret|].
  apply preserves_bind; [apply Hbody|done].
Qed.

Lemma preserves_for_fold {A S} (I : State → Prop) (l : list A) (body : S → A → M S) s :
  (∀ s x, preserves I (body s x)) → preserves I (for_fold l body s).
Proof.
  intros Hbody. revert s. induction l as [|x l IH]; intros s; simpl; [apply preserves_ret|].
  apply preserves_bind; [apply Hbody|done].
Qed.

Lemma preserves_list_comprehension {A B} (I : State → Prop) (l : list A) (f : A → M B) :
  (∀ x, preserves I (f x)) → preserves I (list_comprehension l f).
Proof.
  intros Hf. induction l as [|x l IH]; simpl; [apply preserves_ret|].
  apply preserves_bind; [apply Hf|intros y].
  apply preserves_bind; [done|intros ys]. apply preserves_ret.
Qed.

Lemma preserves_input_by_name (I : State → Prop) name : preserves I (input_by_name name).
Proof.
  apply preserves_bind; [apply preserves_get_model|intros m]. apply preserves_from_option.
Qed.

Lemma preserves_get_partial_shape (I : State → Prop) p : preserves I (get_partial_shape p).
Proof.
  apply preserves_bind; [apply preserves_get_model|intros m]. apply preserves_from_option.
Qed.

Lemma preserves_shape_setitem (I : State → Prop) sh k d : preserves I (shape_setitem sh k d).
Proof.
  unfold shape_setitem. destruct (py_index _ k); [apply preserves_ret|apply preserves_raise].
Qed.

(** *** The printed text *)

Section NeverPrints.

Variable E : Engine.
Variable out : list string.

Let unprinted (st : State) : Prop := stdout st = out.

Lemma unprinted_modify_model f : preserves unprinted (modify_model f).
Proof. by apply preserves_step. Qed.

Lemma unprinted_set_not_kv_inputs l : preserves unprinted (set_not_kv_inputs l).
Proof. by apply preserves_step. Qed.

Lemma unprinted_new_node ty args attrs : preserves unprinted (new_node E ty args attrs).
Proof.
  apply preserves_step. intros st HI. unfold new_node.
  by destruct (infer_node E _ ty args attrs).
Qed.

Lemma unprinted_validate_and_infer : preserves unprinted (validate_and_infer E).
Proof.
  apply preserves_step. intros st HI. unfold validate_and_infer.
  by destruct (validate_nodes_and_infer_types E _).
Qed.

Lemma unprinted_make_stateful_transformation iom :
  preserves unprinted (make_stateful_transformation E iom).
Proof.
  apply preserves_step. intros st HI. unfold make_stateful_transformation.
  by destruct (apply_make_stateful_transformation E _ _).
Qed.

Lemma unprinted_reorder_cache_input b gd name :
  preserves unprinted (reorder_cache_input E b gd name).
Proof.
  unfold reorder_cache_input.
  apply preserves_bind; [apply preserves_input_by_name|intros p].
  apply preserves_bind; [apply preserves_get_model|intros m].
  apply preserves_bind; [apply unprinted_new_node|intros c].
  apply preserves_bind; [apply unprinted_new_node|intros g].
  apply preserves_for_each. intros consumer. apply unprinted_modify_model.
Qed.

Lemma unprinted_fuse_cache_reorder kv gd : preserves unprinted (fuse_cache_reorder E kv gd).
Proof.
  unfold fuse_cache_reorder.
  apply preserves_bind; [apply preserves_get_model|intros m].
  apply preserves_bind; [apply preserves_py_assert|intros _].
  apply preserves_bind; [apply preserves_input_by_name|intros input_ids].
  apply preserves_bind; [apply preserves_get_partial_shape|intros shape].
  apply preserves_bind; [apply preserves_from_option|intros d].
  apply preserves_bind; [apply unprinted_new_node|intros beam].
  apply preserves_bind; [apply unprinted_modify_model|intros _].
  apply preserves_bind; [apply unprinted_modify_model|intros _].
  apply preserves_bind; [apply preserves_get_model|intros m1].
  apply preserves_bind; [apply preserves_from_option|intros new_input].
  apply preserves_bind; [apply preserves_get_not_kv_inputs|intros l].
  apply preserves_bind; [apply unprinted_set_not_kv_inputs|intros _].
  apply preserves_bind; [|intros _; apply unprinted_validate_and_infer].
  apply preserves_for_each. intros name. apply unprinted_reorder_cache_input.
Qed.

Lemma unprinted_initialize_state batch bd op :
  preserves unprinted (initialize_state E batch bd op).
Proof.
  unfold initialize_state.
  apply preserves_bind; [apply preserves_get_model|intros m].
  apply preserves_bind; [apply preserves_from_option|intros node].
  case_decide; [|apply preserves_ret].
  apply preserves_bind; [apply preserves_from_option|intros o].
  apply preserves_bind.
  { destruct (py_index _ bd); [apply preserves_ret|apply preserves_raise]. }
  intros dims.
  apply preserves_bind.
  { apply preserves_list_comprehension. intros [v|n]; [apply unprinted_new_node|].
    apply preserves_ret. }
  intros ids.
  apply preserves_bind; [apply unprinted_new_node|intros shape].
  apply preserves_bind; [apply unprinted_new_node|intros zero].
  apply preserves_bind; [apply unprinted_new_node|intros bc].
  apply unprinted_modify_model.
Qed.

Lemma unprinted_build_state_initializer bd :
  preserves unprinted (build_state_initializer E bd).
Proof.
  unfold build_state_initializer.
  apply preserves_bind; [apply preserves_input_by_name|intros input_ids].
  apply preserves_bind; [apply unprinted_new_node|intros so].
  apply preserves_bind; [apply unprinted_new_node|intros ix].
  apply preserves_bind; [apply unprinted_new_node|intros ax].
  apply preserves_bind; [apply unprinted_new_node|intros batch].
  apply preserves_bind; [apply preserves_get_model|intros m].
  apply preserves_bind; [|intros _; apply unprinted_validate_and_infer].
  apply preserves_for_each. intros op. apply unprinted_initialize_state.
Qed.

Lemma unprinted_make_stateful_None kv_in kv_out bd heads :
  preserves unprinted (make_stateful E kv_in kv_out bd heads None).
Proof.
  unfold make_stateful, make_stateful_prepare.
  apply preserves_bind.
  { apply preserves_bind; [apply preserves_ret|intros _].
    apply preserves_bind.
    - apply preserves_for_fold. intros acc pair. apply preserves_ret.
    - intros iom. apply preserves_bind; [apply preserves_ret|intros _]. apply preserves_ret. }
  intros iom.
  apply preserves_bind; [apply unprinted_make_stateful_transformation|intros _].
  apply unprinted_build_state_initializer.
Qed.

Lemma unprinted_patch_stateful model : preserves unprinted (patch_stateful E model).
Proof.
  unfold patch_stateful.
  apply preserves_bind.
  { unfold raise_if_openvino_is_too_old.
    destruct (is_openvino_version E "<=" "2023.2"); [apply preserves_raise|apply preserves_ret]. }
  intros _.
  apply preserves_bind; [apply preserves_get_model|intros m].
  apply preserves_bind; [apply unprinted_set_not_kv_inputs|intros _].
  apply preserves_bind; [apply unprinted_fuse_cache_reorder|intros _].
  apply unprinted_make_stateful_None.
Qed.

End NeverPrints.

Section NeverPrintsClaims.

Variable E : Engine.

(** The only statement of the file that prints is the rank warning of the
    pinning loop.  So [fuse_cache_reorder], [build_state_initializer],
    [make_stateful] without a pinned batch and [patch_stateful] leave the
    printed text as it was on every outcome, whether they return or raise. *)
Theorem only_the_rank_warning_prints (st : State) :
  (∀ kv gd r st', fuse_cache_reorder E kv gd st = (r, st') → stdout st' = stdout st) ∧
  (∀ bd r st', build_state_initializer E bd st = (r, st') → stdout st' = stdout st) ∧
  (∀ kv_in kv_out bd heads r st',
     make_stateful E kv_in kv_out bd heads None st = (r, st') → stdout st' = stdout st) ∧
  (∀ model r st', patch_stateful E model st = (r, st') → stdout st' = stdout st).
Proof.
  split_and!.
  - intros kv gd r st' H. by apply (unprinted_fuse_cache_reorder E (stdout st) kv gd st r st').
  - intros bd r st' H. by apply (unprinted_build_state_initializer E (stdout st) bd st r st').
  - intros kv_in kv_out bd heads r st' H.
    by apply (unprinted_make_stateful_None E (stdout st) kv_in kv_out bd heads st r st').
  - intros model r st' H. by apply (unprinted_patch_stateful E (stdout st) model st r st').
Qed.

End NeverPrintsClaims.

(** *** A failed run of the fuser *)

Lemma bind_Raise {A B} (c : M A) (k : A → M B) st e st' :
  bind c k st = (Raise e, st') →
  c st = (Raise e, st') ∨ ∃ a st1, c st = (Ok a, st1) ∧ k a st1 = (Raise e, st').
Proof.
  unfold bind. destruct (c st) as [[a|e'] st1]; intros H.
  - right. by exists a, st1.
  - injection H as -> ->. by left.
Qed.

Lemma beam_marked_has_name b st :
  beam_marked b st →
  model_has_cache_reorder (ov_model st) = true ∧ model_has_name (ov_model st) "beam_idx" = true.
Proof.
  intros [Hin Hname]. split.
  - apply bool_decide_eq_true, elem_of_concat. exists (get_names (ov_model st) (b, 0%nat)).
    split; [|done]. apply list_elem_of_fmap. eauto.
  - apply (model_has_name_true _ _ (b, 0%nat)); [|done]. apply elem_of_app. by left.
Qed.

Section FailedFuser.

Variable E : Engine.
Variable b : nat.

Lemma beam_marked_new_node ty args attrs :
  preserves (beam_marked b) (new_node E ty args attrs).
Proof.
  apply preserves_step. intros st [Hin Hname]. unfold new_node.
  destruct (infer_node E _ ty args attrs) as [outs|]; [|done].
  split; [done|]. simpl. pose proof (get_names_elem_lt _ _ _ Hname) as Hlt. simpl in Hlt.
  revert Hname. unfold get_names, get_tensor, set_nodes. cbn [fst snd nodes].
  by rewrite lookup_app_l.
Qed.

Lemma beam_marked_replace_source_output consumer new :
  preserves (beam_marked b) (modify_model (replace_source_output consumer new)).
Proof.
  apply preserves_step. intros st [Hin Hname]. split; [done|]. simpl.
  revert Hname. unfold get_names, get_tensor, replace_source_output, set_nodes.
  cbn [fst snd nodes]. rewrite list_lookup_alter.
  case_decide as Hc; [|done]. rewrite Hc. by destruct (nodes (ov_model st) !! b).
Qed.

Lemma beam_marked_reorder_cache_input gd name :
  preserves (beam_marked b) (reorder_cache_input E b gd name).
Proof.
  unfold reorder_cache_input.
  apply preserves_bind; [apply preserves_input_by_name|intros p].
  apply preserves_bind; [apply preserves_get_model|intros m].
  apply preserves_bind; [apply beam_marked_new_node|intros c].
  apply preserves_bind; [apply beam_marked_new_node|intros g].
  apply preserves_for_each. intros consumer. apply beam_marked_replace_source_output.
Qed.

End FailedFuser.

Section FailedFuserClaims.

Variable E : Engine.

(** [fuse_cache_reorder] does not undo what it did when it raises.  A run
    that raises either failed before it touched anything, and leaves the
    state it was called in, or leaves a graph that already has the input
    [beam_idx]; on that graph every further run fails its assertion. *)
Theorem fuse_cache_reorder_failure_is_not_undone
    (kv : list string) (gather_dim : Z) (st st' : State) (e : Exn) :
  fuse_cache_reorder E kv gather_dim st = (Raise e, st') →
  st' = st ∨
  (model_has_cache_reorder (ov_model st') = true ∧
   ∀ kv' gather_dim',
     fuse_cache_reorder E kv' gather_dim' st' = (Raise AssertionError, st')).
Proof.
  intros H. unfold fuse_cache_reorder in H.
  apply bind_Raise in H as [H|(m & st1 & Hm & H)]; [done|]. ok_prim Hm.
  apply bind_Raise in H as [H|(u & st1 & Hassert & H)].
  { left. unfold py_assert in H. destruct (negb _); [done|]. by injection H as _ <-. }
  ok_prim Hassert.
  apply bind_Raise in H as [H|(input_ids & st1 & Hin & H)].
  { left. by apply (preserves_input_by_name (λ s, s = st) _ _ _ _ H). }
  apply input_by_name_Ok in Hin as [Hin ->].
  apply bind_Raise in H as [H|(shape & st1 & Hshape & H)].
  { left. by apply (preserves_get_partial_shape (λ s, s = st) _ _ _ _ H). }
  apply get_partial_shape_Ok in Hshape as [Hshape ->].
  apply bind_Raise in H as [H|(d & st1 & Hd & H)].
  { left. by apply (preserves_from_option (λ s, s = st) _ _ _ _ _ H). }
  ok_prim Hd.
  apply bind_Raise in H as [H|(beam & st1 & Hbeam & H)].
  { left. unfold opset13_parameter, new_node in H.
    destruct (infer_node E _ _ _ _); [done|]. by injection H as _ <-. }
  apply new_node_Ok in Hbeam as (outs & Houts & -> & ->).
  apply infer_parameter in Houts as ->.
  apply bind_Raise in H as [H|(u1 & st1 & Hnames & H)]; [done|]. ok_prim Hnames.
  apply bind_Raise in H as [H|(u2 & st1 & Hparams & H)]; [done|]. ok_prim Hparams.
  right. set (b := length (nodes (ov_model st))) in *.
  match type of H with bind _ _ ?s = _ => set (s1 := s) in * end.
  assert (beam_marked b s1) as Hmarked.
  { subst s1. split.
    - unfold model_inputs, add_parameters, set_nodes. cbn [ov_model parameters].
      rewrite fmap_app, elem_of_app. right. by left.
    - unfold get_names, get_tensor, add_parameters, set_nodes. cbn [ov_model nodes fst snd].
      rewrite list_lookup_alter_eq, list_lookup_middle by done. simpl. by left. }
  assert (beam_marked b st') as Hmarked'.
  { apply bind_Raise in H as [H|(m1 & st1 & Hm1 & H)]; [done|]. ok_prim Hm1.
    apply bind_Raise in H as [H|(new_input & st1 & Hnew & H)].
    { by apply (preserves_from_option (beam_marked b) _ _ _ _ _ H). }
    ok_prim Hnew.
    apply bind_Raise in H as [H|(l & st1 & Hl & H)]; [done|]. ok_prim Hl.
    apply bind_Raise in H as [H|(u3 & st1 & Hset & H)]; [done|]. ok_prim Hset.
    match type of H with bind _ _ ?s = _ => assert (beam_marked b s) as Hmarked2 by done end.
    apply bind_Raise in H as [H|(u4 & st2 & Hloop & H)].
    - eapply (preserves_for_each (beam_marked b)); [|exact H|exact Hmarked2].
      intros name. apply beam_marked_reorder_cache_input.
    - assert (beam_marked b st2) as Hmarked3.
      { eapply (preserves_for_each (beam_marked b)); [|exact Hloop|exact Hmarked2].
        intros name. apply beam_marked_reorder_cache_input. }
      unfold validate_and_infer in H.
      destruct (validate_nodes_and_infer_types E _); [done|]. by injection H as _ <-. }
  destruct (beam_marked_has_name _ _ Hmarked') as [Hquery Hname].
  split; [done|]. intros kv' gather_dim'.
  unfold fuse_cache_reorder, bind, get_model. by rewrite Hname.
Qed.

End FailedFuserClaims.

Lemma fuse_cache_reorder_failure_is_not_undone_witness :
  fuse_cache_reorder demo_engine ["past_value"] 0 demo_state =
    (Raise (RuntimeError "no input named past_value"),
     (fuse_cache_reorder demo_engine ["past_value"] 0 demo_state).2) ∧
  ((fuse_cache_reorder demo_engine ["past_value"] 0 demo_state).2 = demo_state ∨
   (model_has_cache_reorder
      (ov_model (fuse_cache_reorder demo_engine ["past_value"] 0 demo_state).2) = true ∧
    ∀ kv' gather_dim',
      fuse_cache_reorder demo_engine kv' gather_dim'
        (fuse_cache_reorder demo_engine ["past_value"] 0 demo_state).2 =
      (Raise AssertionError, (fuse_cache_reorder demo_engine ["past_value"] 0 demo_state).2))).
Proof.
  set (st' := (fuse_cache_reorder demo_engine ["past_value"] 0 demo_state).2).
  assert (fuse_cache_reorder demo_engine ["past_value"] 0 demo_state =
          (Raise (RuntimeError "no input named past_value"), st'))
    as Hrun by (vm_compute; reflexivity).
  split; [done|].
  apply (fuse_cache_reorder_failure_is_not_undone demo_engine ["past_value"] 0
           demo_state st' _ Hrun).
Defined.

(** ** Pinning: what makes it raise, and what it does not depend on *)

Lemma bind_ext {A B} (c : M A) (k k' : A → M B) st :
  (∀ a st1, k a st1 = k' a st1) → bind c k st = bind c k' st.
Proof. intros Hk. unfold bind. destruct (c st) as [[a|e] st1]; [apply Hk|done]. Qed.

Lemma pin_loop_positive_ranks b l st st' p t :
  for_each l (pin_not_kv_input b) st = (Ok tt, st') →
  p ∈ l → get_tensor (ov_model st) p = Some t → (length (partial_shape t) ≤ 2)%nat →
  (0 < length (partial_shape t))%nat.
Proof.
  revert st. induction l as [|q l IH]; intros st H Hp Ht Hrank.
  - by apply elem_of_nil in Hp.
  - simpl in H. ok_bind H u st1 Hbody. destruct u.
    apply elem_of_cons in Hp as [->|Hp].
    + apply pin_not_kv_input_Ok in Hbody as (t' & Ht' & Hbody).
      rewrite Ht in Ht'. injection Ht' as <-. rewrite decide_True in Hbody by done.
      by destruct Hbody.
    + apply (IH st1); [done|done| |done].
      apply pin_not_kv_input_preserves in Hbody as [Hsame _]. by rewrite Hsame.
Qed.

Section PinningFurther.

Variable E : Engine.

Lemma make_stateful_prepare_pinned_Ok kv_in kv_out (bd : nat) heads b st iom st1 :
  make_stateful_prepare E kv_in kv_out (Z.of_nat bd) heads (Some b) st = (Ok iom, st1) →
  (∀ p t, p ∈ not_kv_inputs st → get_tensor (ov_model st) p = Some t →
     (length (partial_shape t) ≤ 2)%nat → (0 < length (partial_shape t))%nat) ∧
  (∀ name, name ∈ (zip kv_in kv_out).*1 →
     ∃ p t, model_input (ov_model st) name = Some p ∧ get_tensor (ov_model st) p = Some t ∧
            (bd < length (partial_shape t))%nat).
Proof.
  intros H. unfold make_stateful_prepare in H.
  ok_bind H u sta Hpin. destruct u.
  ok_bind Hpin l st0 Hl. ok_prim Hl.
  ok_bind H iom' stb Hkv. apply kv_loop_Ok in Hkv as (_ & _ & Hall).
  split.
  - intros p t Hp Ht Hrank. by eapply pin_loop_positive_ranks.
  - intros name Hname. rewrite Forall_forall in Hall.
    destruct (Hall name Hname) as (j & t & Hin & Ht & Hbd).
    destruct (pin_loop_preserves _ _ _ _ Hpin) as [Hsame _].
    destruct (pin_loop_same_wiring _ _ _ _ Hpin) as (Hpar & _).
    exists (j, 0%nat), t. rewrite <- Hsame, <- Hin. split_and!; [|done..].
    unfold model_input, model_inputs. rewrite Hpar. f_equal.
    apply list_filter_iff. intros o. unfold get_names. by rewrite Hsame.
Qed.

(** With a pinned batch, a key-value input name that is paired with an
    output name and resolves to no input of the graph, or to one whose shape
    has no axis [batch_dim], makes [make_stateful] raise. *)
Theorem make_stateful_pinned_name_raises
    (kv_in kv_out : list string) (batch_dim : nat) (heads b : N) (st : State)
    (i : nat) (name : string) :
  kv_in !! i = Some name → (i < length kv_out)%nat →
  (∀ p t, model_input (ov_model st) name = Some p → get_tensor (ov_model st) p = Some t →
     (length (partial_shape t) ≤ batch_dim)%nat) →
  ∃ e st', make_stateful E kv_in kv_out (Z.of_nat batch_dim) heads (Some b) st = (Raise e, st').
Proof.
  intros Hname Hi Hbad.
  destruct (make_stateful E kv_in kv_out (Z.of_nat batch_dim) heads (Some b) st)
    as [[[]|e] st'] eqn:H; [|by eauto].
  unfold make_stateful in H. ok_bind H iom st1 Hprep.
  apply make_stateful_prepare_pinned_Ok in Hprep as [_ Hkv].
  apply lookup_lt_is_Some in Hi as [v Hv].
  destruct (Hkv name) as (p & t & Hp & Ht & Hbd).
  { apply list_elem_of_fmap. exists (name, v). split; [done|].
    apply list_elem_of_lookup. exists i. by apply lookup_zip_Some. }
  specialize (Hbad p t Hp Ht). lia.
Qed.

(** With a pinned batch, a non-key-value input of rank 0 makes
    [make_stateful] raise: the assignment [shape[0] = num_beams_and_batch] is
    out of range. *)
Theorem make_stateful_pinned_scalar_input_raises
    (kv_in kv_out : list string) (batch_dim : nat) (heads b : N) (st : State)
    (p : Output) (t : Tensor) :
  p ∈ not_kv_inputs st → get_tensor (ov_model st) p = Some t → partial_shape t = [] →
  ∃ e st', make_stateful E kv_in kv_out (Z.of_nat batch_dim) heads (Some b) st = (Raise e, st').
Proof.
  intros Hp Ht Hscalar.
  destruct (make_stateful E kv_in kv_out (Z.of_nat batch_dim) heads (Some b) st)
    as [[[]|e] st'] eqn:H; [|by eauto].
  unfold make_stateful in H. ok_bind H iom st1 Hprep.
  apply make_stateful_prepare_pinned_Ok in Hprep as [Hnkv _].
  specialize (Hnkv p t Hp Ht). rewrite Hscalar in Hnkv. simpl in Hnkv. lia.
Qed.

Lemma make_stateful_None_heads kv_in kv_out bd heads heads' st :
  make_stateful E kv_in kv_out bd heads None st =
  make_stateful E kv_in kv_out bd heads' None st.
Proof.
  unfold make_stateful, make_stateful_prepare, bind, ret.
  by rewrite !for_fold_map_kv_pair_None.
Qed.

(** [patch_stateful] never pins the batch, so the number of attention heads
    it computes is not used: two metadata objects with the same key-value
    names that agree on whether the family is [chatglm] give the same run,
    whatever their head counts are and whether or not the family is
    [bloom]. *)
Theorem patch_stateful_ignores_attention_heads (model model' : PyModel) (st : State) :
  key_value_input_names model' = key_value_input_names model →
  key_value_output_names model' = key_value_output_names model →
  (config_model_type model' = "chatglm" ↔ config_model_type model = "chatglm") →
  patch_stateful E model' st = patch_stateful E model st.
Proof.
  intros Hin Hout Hfamily. unfold patch_stateful. rewrite Hin, Hout.
  assert ((if decide (config_model_type model' = "chatglm") then 1 else 0) =
          (if decide (config_model_type model = "chatglm") then 1 else 0)) as ->.
  { destruct (decide (config_model_type model' = "chatglm")),
             (decide (config_model_type model = "chatglm")); tauto. }
  apply bind_ext. intros _ st1. apply bind_ext. intros m st2.
  apply bind_ext. intros _ st3. apply bind_ext. intros _ st4.
  apply make_stateful_None_heads.
Qed.

End PinningFurther.

Lemma make_stateful_pinned_name_raises_witness :
  ["past_key"; "past_value"] !! 1%nat = Some "past_value" ∧
  (1 < length ["present_key"; "present_value"])%nat ∧
  model_input demo_model "past_value" = None ∧
  ∃ e st', make_stateful demo_engine ["past_key"; "past_value"] ["present_key"; "present_value"]
                         0 8 (Some 2%N) demo_state = (Raise e, st').
Proof.
  assert (model_input demo_model "past_value" = None) as Hmissing by reflexivity.
  split_and!; [reflexivity|simpl; lia|done|].
  apply (make_stateful_pinned_name_raises demo_engine ["past_key"; "past_value"]
           ["present_key"; "present_value"] 0 8 2 demo_state 1%nat "past_value" eq_refl).
  - simpl. lia.
  - intros p t Hp. change (ov_model demo_state) with demo_model in Hp. congruence.
Defined.

Lemma make_stateful_pinned_scalar_input_raises_witness :
  let scalar_state :=
    mkState (mkModel [mkNode "Parameter" [] [mkTensor ["input_ids"] [] i64]
                             (AParameter "input_ids" i64 [])] [0%nat] [] [])
            [(0, 0)%nat] [] in
  (0, 0)%nat ∈ not_kv_inputs scalar_state ∧
  get_tensor (ov_model scalar_state) (0, 0)%nat = Some (mkTensor ["input_ids"] [] i64) ∧
  ∃ e st', make_stateful demo_engine [] [] 0 1 (Some 2%N) scalar_state = (Raise e, st').
Proof.
  intros scalar_state.
  assert ((0, 0)%nat ∈ not_kv_inputs scalar_state) as Hp by (by left).
  split_and!; [done|reflexivity|].
  apply (make_stateful_pinned_scalar_input_raises demo_engine [] [] 0 1 2 scalar_state
           (0, 0)%nat (mkTensor ["input_ids"] [] i64) Hp eq_refl eq_refl).
Defined.

Lemma patch_stateful_ignores_attention_heads_witness :
  patch_stateful demo_engine (mkPyModel ["past_key"] ["present_key"] "bloom" 12) demo_state =
  patch_stateful demo_engine (mkPyModel ["past_key"] ["present_key"] "gpt2" 1) demo_state.
Proof.
  apply (patch_stateful_ignores_attention_heads demo_engine
           (mkPyModel ["past_key"] ["present_key"] "gpt2" 1)
           (mkPyModel ["past_key"] ["present_key"] "bloom" 12) demo_state eq_refl eq_refl).
  split; intros Hc; by vm_compute in Hc.
Defined.
